(** * Proxy Manager Tray: a shallow embedding of [proxy/proxy_tray.py]

    The tray application keeps two proxy selections (system proxy and
    redsocks), probes the desktop for the actual on/off state of both
    subsystems, renders a coloured glyph and a tooltip, and drives the
    external commands that switch the subsystems on and off.

    The embedding follows the Python source method by method.  The
    [ProxyManager] instance and the [pystray] icon it is handed are one
    explicit [state]; every method is a computation in a small state and
    exception monad [M].  Everything outside the process (spawned commands,
    the two catalog files, the text of an exception) is supplied by an
    environment [env], and every spawned command and every notification is
    appended to a log kept in the state, so that the statements below can
    talk about what was attempted and in which order. *)

From stdpp Require Import gmap strings list.
From Stdlib Require Import ZArith DecimalString DecimalNat.

Open Scope string_scope.

(** ** Python text

    A [str] is modelled by the bytes of its UTF-8 encoding, the encoding in
    which the program reads its files and the output of its commands; text
    that does not decode never becomes a [str], the read raises instead.

    [str.strip()] removes white space from both ends.  The code points
    Python counts as white space are U+0009 to U+000D, U+001C to U+0020,
    U+0085, U+00A0, U+1680, U+2000 to U+200A, U+2028, U+2029, U+202F, U+205F
    and U+3000; encoded, they take one, two or three bytes.  [strip] works
    on the bytes; [strip_chars] is the same operation on the characters,
    and [strip_encode] below shows that the two agree. *)
Module Py.

(** One byte: U+0009-U+000D and U+001C-U+0020. *)
Definition space1 (a : N) : bool :=
  (((9 <=? a) && (a <=? 13)) || ((28 <=? a) && (a <=? 32)))%N.

(** Two bytes: U+0085 (C2 85) and U+00A0 (C2 A0). *)
Definition space2 (a b : N) : bool :=
  ((a =? 194) && ((b =? 133) || (b =? 160)))%N.

(** Three bytes: U+1680 (E1 9A 80), U+2000-U+200A (E2 80 80 to E2 80 8A),
    U+2028, U+2029, U+202F (E2 80 A8, A9, AF), U+205F (E2 81 9F) and U+3000
    (E3 80 80). *)
Definition space3 (a b c : N) : bool :=
  (((a =? 225) && (b =? 154) && (c =? 128))
   || ((a =? 226) && (b =? 128)
       && (((128 <=? c) && (c <=? 138))
           || (c =? 168) || (c =? 169) || (c =? 175)))
   || ((a =? 226) && (b =? 129) && (c =? 159))
   || ((a =? 227) && (b =? 128) && (c =? 128)))%N.

(** Dropping white space from the front of a byte string, the two- and
    three-byte characters being recognised by [w2] and [w3] on the bytes in
    the order they are met. *)
Fixpoint strip_front (w2 : N → N → bool) (w3 : N → N → N → bool)
    (s : string) : string :=
  match s with
  | EmptyString => EmptyString
  | String a r1 =>
      if space1 (Ascii.N_of_ascii a) then strip_front w2 w3 r1
      else
        match r1 with
        | EmptyString => s
        | String b r2 =>
            if w2 (Ascii.N_of_ascii a) (Ascii.N_of_ascii b) then strip_front w2 w3 r2
            else
              match r2 with
              | EmptyString => s
              | String c r3 =>
                  if w3 (Ascii.N_of_ascii a) (Ascii.N_of_ascii b) (Ascii.N_of_ascii c)
                  then strip_front w2 w3 r3
                  else s
              end
        end
  end.

Definition lstrip (s : string) : string := strip_front space2 space3 s.

(** From the back the bytes of a character are met last byte first. *)
Definition rstrip (s : string) : string :=
  String.rev (strip_front (λ a b, space2 b a) (λ a b c, space3 c b a) (String.rev s)).

Definition strip (s : string) : string := rstrip (lstrip s).

(** *** The same on characters

    A character is its code point.  [isspace] is [str.isspace] of one
    character, [utf8] its encoding, and [strip_chars] is [str.strip] on a
    text given as the list of its characters. *)
Definition code_point (c : N) : Prop := (c < 1114112)%N.

Definition isspace (c : N) : bool :=
  (((9 <=? c) && (c <=? 13)) || ((28 <=? c) && (c <=? 32))
   || (c =? 133) || (c =? 160) || (c =? 5760)
   || ((8192 <=? c) && (c <=? 8202))
   || (c =? 8232) || (c =? 8233) || (c =? 8239) || (c =? 8287)
   || (c =? 12288))%N.

Definition utf8 (c : N) : string :=
  (if c <? 128 then String (Ascii.ascii_of_N c) ""
   else if c <? 2048 then
     String (Ascii.ascii_of_N (192 + c / 64))
       (String (Ascii.ascii_of_N (128 + c mod 64)) "")
   else if c <? 65536 then
     String (Ascii.ascii_of_N (224 + c / 4096))
       (String (Ascii.ascii_of_N (128 + (c / 64) mod 64))
          (String (Ascii.ascii_of_N (128 + c mod 64)) ""))
   else
     String (Ascii.ascii_of_N (240 + c / 262144))
       (String (Ascii.ascii_of_N (128 + (c / 4096) mod 64))
          (String (Ascii.ascii_of_N (128 + (c / 64) mod 64))
             (String (Ascii.ascii_of_N (128 + c mod 64)) ""))))%N.

Definition encode (l : list N) : string := fold_right (λ c s, utf8 c +:+ s) "" l.

Fixpoint lstrip_chars (l : list N) : list N :=
  match l with
  | c :: rest => if isspace c then lstrip_chars rest else l
  | [] => []
  end.

Definition strip_chars (l : list N) : list N :=
  reverse (lstrip_chars (reverse (lstrip_chars l))).

(** [len] of a [str] counts code points: every byte of the encoding that is
    not a continuation byte (10xxxxxx) starts one. *)
Definition continuation (c : Ascii.ascii) : bool :=
  let n := Ascii.nat_of_ascii c in (128 <=? n)%nat && (n <? 192)%nat.

Fixpoint len (s : string) : nat :=
  match s with
  | EmptyString => 0
  | String c rest => (if continuation c then 0 else 1) + len rest
  end.

(** Truth value of a [str] in a condition. *)
Definition truthy (s : string) : bool :=
  match s with EmptyString => false | _ => true end.

(** [str(i)] for a non-negative integer. *)
Definition str_of_nat (n : nat) : string := NilEmpty.string_of_uint (Nat.to_uint n).

End Py.

(** ** Data model *)

(** A proxy record is a Python [dict] with string keys; the catalog file
    documents string fields [name], [ip], [user] and [password]. *)
Abbreviation record := (gmap string string).

Definition make_record (name ip user password : string) : record :=
  <["name" := name]> (<["ip" := ip]> (<["user" := user]> (<["password" := password]> ∅))).

(** Truth value of a [dict] in a condition: false exactly for the empty one. *)
Definition truthy_record (r : record) : bool := negb (bool_decide (r = ∅)).

Definition color : Type := Z * Z * Z.

(** Paths and constants. *)
Definition PROXY_CMD : string := "/usr/local/sbin/proxyredsocks".
Definition POLL_INTERVAL : nat := 5.
Definition PROXY_PORT : string := "3128".

(** Colour palette. *)
Definition CLR_PROXY : color := (41, 121, 255)%Z.     (* Blue *)
Definition CLR_REDSOCKS : color := (0, 200, 83)%Z.    (* Green *)
Definition CLR_BOTH : color := (156, 39, 176)%Z.      (* Purple *)
Definition CLR_OFF : color := (120, 120, 120)%Z.      (* Gray *)
Definition CLR_WHITE : color := (255, 255, 255)%Z.

(** What [_render_icon] draws: a 64x64 disc filled with [fill], carrying
    [glyph] centred in white at [font_size].  The pixels are the work of the
    imaging library and are not modelled. *)
Record image := mkImage {
  fill : color;
  glyph : string;
  font_size : nat;
}.

(** Exceptions that reach the handlers of the program. *)
Inductive exn :=
| KeyError (key : string)
| CalledProcessError (cmd : list string) (returncode : Z)
| ExternalError (detail : string).

(** How a spawned command ends: it runs to completion with an exit status
    and an output, or the call itself raises (tool missing, timeout expired,
    output not decodable). *)
Inductive proc_outcome :=
| Completed (returncode : Z) (stdout : string)
| Aborted (detail : string).

(** What the process does to the outside world, in order. *)
Inductive event :=
| Spawn (argv : list string) (timeout : nat) (outcome : proc_outcome)
| Notify (title body urgency : string)
| Sleep (seconds : nat).

(** Content of [proxies.json] once parsed: a list of records, or any other
    JSON value. *)
Inductive json_data :=
| JsonList (data : list record)
| JsonOther.

(** The environment: outcome of a command given what happened so far, the
    result of opening and parsing [proxies.json], the lines [proxy.txt]
    hands out before it ends or before reading raises, and the text Python
    gives an exception. *)
Record env := mkEnv {
  spawn : list event → list string → proc_outcome;
  read_json : list event → exn + json_data;
  read_txt : list event → list string * option exn;
  exn_str : exn → string;
}.

(** The [ProxyManager] instance together with the tray icon. *)
Record state := mkState {
  _running : bool;
  proxy_selection : record;
  redsocks_selection : record;
  icon_icon : image;
  icon_title : string;
  icon_visible : bool;
  icon_stopped : bool;
  log : list event;
}.

Definition set_running (b : bool) (s : state) : state :=
  mkState b (proxy_selection s) (redsocks_selection s) (icon_icon s) (icon_title s)
          (icon_visible s) (icon_stopped s) (log s).
Definition set_proxy_selection (r : record) (s : state) : state :=
  mkState (_running s) r (redsocks_selection s) (icon_icon s) (icon_title s)
          (icon_visible s) (icon_stopped s) (log s).
Definition set_redsocks_selection (r : record) (s : state) : state :=
  mkState (_running s) (proxy_selection s) r (icon_icon s) (icon_title s)
          (icon_visible s) (icon_stopped s) (log s).
Definition set_icon_icon (i : image) (s : state) : state :=
  mkState (_running s) (proxy_selection s) (redsocks_selection s) i (icon_title s)
          (icon_visible s) (icon_stopped s) (log s).
Definition set_icon_title (t : string) (s : state) : state :=
  mkState (_running s) (proxy_selection s) (redsocks_selection s) (icon_icon s) t
          (icon_visible s) (icon_stopped s) (log s).
Definition set_icon_visible (b : bool) (s : state) : state :=
  mkState (_running s) (proxy_selection s) (redsocks_selection s) (icon_icon s) (icon_title s)
          b (icon_stopped s) (log s).
Definition set_icon_stopped (b : bool) (s : state) : state :=
  mkState (_running s) (proxy_selection s) (redsocks_selection s) (icon_icon s) (icon_title s)
          (icon_visible s) b (log s).
Definition record_event (e : event) (s : state) : state :=
  mkState (_running s) (proxy_selection s) (redsocks_selection s) (icon_icon s) (icon_title s)
          (icon_visible s) (icon_stopped s) (log s ++ [e]).

(** ** The monad of methods: state passing with exceptions *)

Inductive result (A : Type) :=
| Ok (a : A)
| Raise (e : exn).
Arguments Ok {A} a.
Arguments Raise {A} e.

Definition M (A : Type) : Type := state → result A * state.

Definition ret {A} (a : A) : M A := λ s, (Ok a, s).

Definition bind {A B} (m : M A) (k : A → M B) : M B :=
  λ s, match m s with
       | (Ok a, s') => k a s'
       | (Raise e, s') => (Raise e, s')
       end.

Definition raise {A} (e : exn) : M A := λ s, (Raise e, s).

(** [try: m  except Exception as exc: h exc] *)
Definition try_except {A} (m : M A) (h : exn → M A) : M A :=
  λ s, match m s with
       | (Ok a, s') => (Ok a, s')
       | (Raise e, s') => h e s'
       end.

Definition get {A} (f : state → A) : M A := λ s, (Ok (f s), s).
Definition modify (f : state → state) : M unit := λ s, (Ok tt, f s).

Declare Scope py_scope.
Delimit Scope py_scope with py.
Notation "'let*' x ':=' m 'in' k" := (bind m (λ x, k))
  (at level 10, x name, m at level 100, k at level 200) : py_scope.
Notation "m ';;;' k" := (bind m (λ _, k))
  (at level 100, k at level 200, right associativity) : py_scope.
Open Scope py_scope.

(** [for x in l: body x] *)
Fixpoint for_each {A} (l : list A) (body : A → M unit) : M unit :=
  match l with
  | [] => ret tt
  | x :: rest => body x ;;; for_each rest body
  end.

(** [d[k]] and [d.get(k, dflt)] *)
Definition getitem (d : record) (k : string) : M string :=
  match d !! k with
  | Some v => ret v
  | None => raise (KeyError k)
  end.

Definition dict_get (d : record) (k dflt : string) : string := default dflt (d !! k).

(** ** The program *)

Section Model.

Context (E : env).

(** [subprocess.run(argv, timeout=t, check=chk)]: the command is spawned
    and its outcome logged; with [check=True] a non-zero exit status raises
    [CalledProcessError].  The result is the pair of [returncode] and
    [stdout]. *)
Definition subprocess_run (argv : list string) (t : nat) (chk : bool) : M (Z * string) :=
  λ s, let o := spawn E (log s) argv in
       let s' := record_event (Spawn argv t o) s in
       match o with
       | Aborted d => (Raise (ExternalError d), s')
       | Completed rc out =>
           if chk && negb (rc =? 0)%Z
           then (Raise (CalledProcessError argv rc), s')
           else (Ok (rc, out), s')
       end.

(** [subprocess.check_call(argv, timeout=t)] *)
Definition check_call (argv : list string) (t : nat) : M unit :=
  subprocess_run argv t true ;;; ret tt.

(** *** Data helpers *)

Definition txt_entry (i : nat) (ip : string) : record :=
  make_record ("Proxy " +:+ Py.str_of_nat i) ip "edcguest" "edcguest".

(** The loop [for i, line in enumerate(fh, 1)] from line number [i] on, over
    the lines still to come, appending to [proxies]. *)
Fixpoint txt_loop (i : nat) (lines : list string) (proxies : list record) : list record :=
  match lines with
  | [] => proxies
  | line :: rest =>
      let ip := Py.strip line in
      txt_loop (S i) rest (if Py.truthy ip then proxies ++ [txt_entry i ip] else proxies)
  end.

Definition _load_proxies : M (list record) :=
  let* proxies :=
    try_except
      (let* tr := get log in
       match read_json E tr with
       | inl exc => raise exc
       | inr (JsonList data) =>
           match data with
           | _ :: _ => ret data
           | [] => ret []
           end
       | inr JsonOther => ret []
       end)
      (λ _, ret []) in
  match proxies with
  | _ :: _ => ret proxies
  | [] =>
      (* Fallback: build entries from proxy.txt *)
      let* tr := get log in
      let '(lines, failure) := read_txt E tr in
      let proxies := txt_loop 1 lines proxies in
      try_except
        (match failure with Some exc => raise exc | None => ret tt end)
        (λ _, ret tt) ;;;
      ret proxies
  end.

Definition default_record : record :=
  make_record "Default" "172.16.x.x" "edcguest" "edcguest".

Definition _initial_proxy : M record :=
  let* proxies := _load_proxies in
  match proxies with
  | first :: _ => ret first
  | [] => ret default_record
  end.

Definition __init__ : M unit :=
  modify (set_running true) ;;;
  let* initial := _initial_proxy in
  modify (set_proxy_selection initial) ;;;
  modify (set_redsocks_selection initial).

(** *** Status queries *)

(** The two read-only queries. *)
Definition systemctl_is_active : list string :=
  ["systemctl"; "is-active"; "--quiet"; "redsocks"].

Definition kreadconfig6_proxy_type : list string :=
  ["kreadconfig6"; "--file"; "kioslaverc";
   "--group"; "Proxy Settings"; "--key"; "ProxyType"].

(** True when the redsocks systemd unit is active. *)
Definition is_redsocks_on : M bool :=
  try_except
    (check_call systemctl_is_active 3 ;;;
     ret true)
    (λ _, ret false).

(** True when the KDE system proxy is set to Manual (ProxyType=1). *)
Definition is_proxy_on : M bool :=
  try_except
    (let* r := subprocess_run kreadconfig6_proxy_type 3 false in
     ret (String.eqb (Py.strip (snd r)) "1"))
    (λ _, ret false).

(** *** Notifications *)

(** Fire and forget: whatever happens to [notify-send] is discarded. *)
Definition _notify (title body urgency : string) : M unit :=
  modify (record_event (Notify title body urgency)).

(** *** Icon rendering *)

(** The colour and label chosen from the two probes. *)
Definition icon_style (proxy redsocks : bool) : color * string :=
  if proxy && redsocks then (CLR_BOTH, "PR")
  else if redsocks then (CLR_REDSOCKS, "R")
  else if proxy then (CLR_PROXY, "P")
  else (CLR_OFF, "–").

Definition _render_icon : M image :=
  let* proxy := is_proxy_on in
  let* redsocks := is_redsocks_on in
  let '(bg, label) := icon_style proxy redsocks in
  let fsize := if (1 <? Py.len label)%nat then 20 else 30 in
  ret (mkImage bg label fsize).

Definition _tooltip : M string :=
  let* p := is_proxy_on in
  let proxy := if p then "ON" else "OFF" in
  let* r := is_redsocks_on in
  let redsocks := if r then "ON" else "OFF" in
  let* psel := get proxy_selection in
  let* pip := getitem psel "ip" in
  let* rsel := get redsocks_selection in
  let* rip := getitem rsel "ip" in
  ret ("Proxy: " +:+ proxy +:+ " (" +:+ pip +:+ ")  |  "
       +:+ "Redsocks: " +:+ redsocks +:+ " (" +:+ rip +:+ ")").

(** *** Refresh *)

Definition _refresh : M unit :=
  let* img := _render_icon in
  modify (set_icon_icon img) ;;;
  let* tip := _tooltip in
  modify (set_icon_title tip).

(** *** Actions: system proxy *)

Definition kwriteconfig6 (key val : string) : list string :=
  ["kwriteconfig6"; "--file"; "kioslaverc";
   "--group"; "Proxy Settings"; "--key"; key; val].

Definition proxy_url (ip user passwd : string) : string :=
  if Py.truthy user
  then "http://" +:+ user +:+ ":" +:+ passwd +:+ "@" +:+ ip +:+ ":" +:+ PROXY_PORT
  else "http://" +:+ ip +:+ ":" +:+ PROXY_PORT.

(** The [settings] dictionary, in insertion order. *)
Definition proxy_settings (url : string) : list (string * string) :=
  [("ProxyType", "1");
   ("httpProxy", url);
   ("httpsProxy", url);
   ("ftpProxy", url);
   ("NoProxyFor", "localhost,127.0.0.0/8,10.0.0.0/8,172.16.0.0/12,192.168.0.0/16")].

Definition _enable_proxy : M unit :=
  let* sel := get proxy_selection in
  let* ip := getitem sel "ip" in
  let user := dict_get sel "user" "" in
  let passwd := dict_get sel "password" "" in
  let settings := proxy_settings (proxy_url ip user passwd) in
  try_except
    (for_each settings
       (λ kv, subprocess_run (kwriteconfig6 (fst kv) (snd kv)) 5 true ;;; ret tt) ;;;
     let* sel' := get proxy_selection in
     let* name := getitem sel' "name" in
     _notify "Proxy ON"
       ("System proxy → " +:+ name +:+ " (" +:+ ip +:+ ":" +:+ PROXY_PORT +:+ ")")
       "normal")
    (λ exc, _notify "Proxy Error" (exn_str E exc) "critical") ;;;
  _refresh.

Definition _disable_proxy : M unit :=
  try_except
    (subprocess_run (kwriteconfig6 "ProxyType" "0") 5 true ;;;
     _notify "Proxy OFF" "System proxy disabled" "normal")
    (λ exc, _notify "Proxy Error" (exn_str E exc) "critical") ;;;
  _refresh.

(** *** Actions: redsocks *)

Definition pkexec_enable (ip : string) : list string := ["pkexec"; PROXY_CMD; "enable"; ip].
Definition pkexec_disable : list string := ["pkexec"; PROXY_CMD; "disable"].

Definition _enable_redsocks : M unit :=
  let* sel := get redsocks_selection in
  let* ip := getitem sel "ip" in
  try_except
    (subprocess_run (pkexec_enable ip) 30 true ;;;
     let* sel' := get redsocks_selection in
     let* name := getitem sel' "name" in
     _notify "Redsocks ON"
       ("Transparent proxy via " +:+ name +:+ " (" +:+ ip +:+ ")")
       "normal")
    (λ exc, _notify "Redsocks Error" (exn_str E exc) "critical") ;;;
  _refresh.

Definition _disable_redsocks : M unit :=
  try_except
    (subprocess_run pkexec_disable 30 true ;;;
     _notify "Redsocks OFF" "Transparent proxy disabled" "normal")
    (λ exc, _notify "Redsocks Error" (exn_str E exc) "critical") ;;;
  _refresh.

(** *** Actions: change proxy *)

(** The first loop of [_pick_proxy]: one (tag, label, on/off) triple per
    catalog record, appended to [args]. *)
Fixpoint radiolist_entries (proxies : list record) (current_selection : record)
    (args : list string) : M (list string) :=
  match proxies with
  | [] => ret args
  | p :: rest =>
      let* tag := getitem p "ip" in
      let* name := getitem p "name" in
      let label := name +:+ "  (" +:+ tag +:+ ")" in
      let* cur := getitem current_selection "ip" in
      let on := if String.eqb tag cur then "on" else "off" in
      radiolist_entries rest current_selection (args ++ [tag; label; on])
  end.

(** The second loop of [_pick_proxy]: [Some p] when the loop returns [p],
    [None] when it runs to its end. *)
Fixpoint find_choice (proxies : list record) (choice : string) : M (option record) :=
  match proxies with
  | [] => ret None
  | p :: rest =>
      let* ip := getitem p "ip" in
      if String.eqb ip choice then ret (Some p) else find_choice rest choice
  end.

Definition radiolist_head (title : string) : list string :=
  ["kdialog"; "--title"; title; "--radiolist"; "Select a proxy server:"].

Definition radiolist_custom : list string := ["__custom__"; "Enter custom IP…"; "off"].

Definition inputbox (current_ip : string) : list string :=
  ["kdialog"; "--title"; "Custom Proxy IP";
   "--inputbox"; "Enter proxy IP address:"; current_ip].

(** Returns the chosen proxy record, or [None] if cancelled. *)
Definition _pick_proxy (title : string) (current_selection : record) : M (option record) :=
  let* proxies := _load_proxies in
  match proxies with
  | [] =>
      _notify "No Proxies" "proxies.json is empty or missing" "critical" ;;;
      ret None
  | _ :: _ =>
      let* args := radiolist_entries proxies current_selection (radiolist_head title) in
      let args := (args ++ radiolist_custom)%list in
      try_except
        (let* r := subprocess_run args 120 false in
         if negb (fst r =? 0)%Z then ret None   (* cancelled *)
         else
           let choice := Py.strip (snd r) in
           if String.eqb choice "__custom__" then
             let* cur := getitem current_selection "ip" in
             let* r2 := subprocess_run (inputbox cur) 120 false in
             if negb (fst r2 =? 0)%Z || negb (Py.truthy (Py.strip (snd r2)))
             then ret None
             else ret (Some (make_record "Custom" (Py.strip (snd r2)) "edcguest" "edcguest"))
           else find_choice proxies choice)
        (λ exc, _notify "Error" (exn_str E exc) "critical" ;;; ret None)
  end.

(** Change the system proxy selection. *)
Definition _change_proxy : M unit :=
  let* cur := get proxy_selection in
  let* result := _pick_proxy "Change System Proxy" cur in
  match result with
  | Some res =>
      if truthy_record res then
        modify (set_proxy_selection res) ;;;
        let* name := getitem res "name" in
        let* ip := getitem res "ip" in
        _notify "Proxy Changed" ("System proxy → " +:+ name +:+ " (" +:+ ip +:+ ")") "normal" ;;;
        _refresh
      else _refresh
  | None => _refresh
  end.

(** Change the redsocks proxy selection. *)
Definition _change_redsocks_proxy : M unit :=
  let* cur := get redsocks_selection in
  let* result := _pick_proxy "Change Redsocks Proxy" cur in
  match result with
  | Some res =>
      if truthy_record res then
        modify (set_redsocks_selection res) ;;;
        let* name := getitem res "name" in
        let* ip := getitem res "ip" in
        _notify "Redsocks Proxy Changed"
          ("Redsocks proxy → " +:+ name +:+ " (" +:+ ip +:+ ")") "normal" ;;;
        _refresh
      else _refresh
  | None => _refresh
  end.

(** *** Quit *)

Definition _quit : M unit :=
  modify (set_running false) ;;;
  modify (set_icon_stopped true).

(** *** Menu *)

(** The entries of the menu that carry a callback. *)
Inductive menu_item :=
| EnableProxy | DisableProxy | ChangeProxy
| EnableRedsocks | DisableRedsocks | ChangeRedsocksProxy
| Quit.

Definition callback (it : menu_item) : M unit :=
  match it with
  | EnableProxy => _enable_proxy
  | DisableProxy => _disable_proxy
  | ChangeProxy => _change_proxy
  | EnableRedsocks => _enable_redsocks
  | DisableRedsocks => _disable_redsocks
  | ChangeRedsocksProxy => _change_redsocks_proxy
  | Quit => _quit
  end.

(** The two status lines of the menu, recomputed each time it opens. *)
Definition proxy_label : M string :=
  let* on := is_proxy_on in
  let st := if on then "ON" else "OFF" in
  let* sel := get proxy_selection in
  let* ip := getitem sel "ip" in
  ret ("🔌  Proxy: " +:+ st +:+ "  (" +:+ ip +:+ ")").

Definition redsocks_label : M string :=
  let* on := is_redsocks_on in
  let st := if on then "ON" else "OFF" in
  let* sel := get redsocks_selection in
  let* ip := getitem sel "ip" in
  ret ("🔀  Redsocks: " +:+ st +:+ "  (" +:+ ip +:+ ")").

(** *** Monitor *)

(** The background loop, unrolled at most [fuel] times: it leaves when
    [_running] is cleared. *)
Fixpoint _monitor (fuel : nat) : M unit :=
  match fuel with
  | O => ret tt
  | S fuel' =>
      let* running := get _running in
      if running then
        modify (record_event (Sleep POLL_INTERVAL)) ;;;
        try_except _refresh (λ _, ret tt) ;;;
        _monitor fuel'
      else ret tt
  end.

(** *** Entry point *)

Definition on_setup : M unit :=
  modify (set_icon_visible true) ;;;
  let* p := is_proxy_on in
  let proxy_s := if p then "ON" else "OFF" in
  let* r := is_redsocks_on in
  let redsocks_s := if r then "ON" else "OFF" in
  let* psel := get proxy_selection in
  let* pip := getitem psel "ip" in
  let* rsel := get redsocks_selection in
  let* rip := getitem rsel "ip" in
  _notify "Proxy Manager"
    ("Proxy: " +:+ proxy_s +:+ " (" +:+ pip +:+ ")
" +:+ "Redsocks: " +:+ redsocks_s +:+ " (" +:+ rip +:+ ")")
    "normal".

(** [run] up to the point where the icon sits in the tray: the icon is
    created with a first rendering and tooltip, then set up.  From there on
    the process is driven by menu clicks and by the monitor thread. *)
Definition run : M unit :=
  let* img := _render_icon in
  let* tip := _tooltip in
  modify (set_icon_icon img) ;;;
  modify (set_icon_title tip) ;;;
  on_setup.

Definition main : M unit :=
  __init__ ;;;
  run.

End Model.

(** What a computation leaves behind, and what it added to the log. *)
Definition exec {A} (m : M A) (s : state) : state := snd (m s).
Definition new_events (s s' : state) : list event := drop (length (log s)) (log s').

(** The two selections, as a pair. *)
Definition selections (s : state) : record * record :=
  (proxy_selection s, redsocks_selection s).

(** Observations on a log. *)
Definition is_notification (e : event) : bool :=
  match e with Notify _ _ _ => true | _ => false end.

Definition is_critical (e : event) : bool :=
  match e with Notify _ _ u => String.eqb u "critical" | _ => false end.

Definition notifications (tr : list event) : list event := filter is_notification tr.
Definition criticals (tr : list event) : list event := filter is_critical tr.

(** A call made with [check=True] fails when the command does not complete
    or completes with a non-zero exit status. *)
Definition check_failed (o : proc_outcome) : bool :=
  match o with
  | Completed rc _ => negb (rc =? 0)%Z
  | Aborted _ => true
  end.

(** A computation is [quiet] for a class [P] of events when it leaves both
    selections alone and only appends events of that class to the log. *)
Definition quiet (P : event → Prop) {A} (m : M A) : Prop :=
  ∀ s, ∃ tr, selections (exec m s) = selections s
             ∧ log (exec m s) = (log s ++ tr)%list
             ∧ Forall P tr.

(** ** Vocabulary of the statements *)

(** The command line of a spawned command. *)
Definition event_argv (e : event) : list string :=
  match e with Spawn argv _ _ => argv | _ => [] end.

(** Calls that change a subsystem: the configuration writer and the
    privileged helper. *)
Definition is_mutation_call (e : event) : bool :=
  match e with
  | Spawn (cmd :: _) _ _ => String.eqb cmd "kwriteconfig6" || String.eqb cmd "pkexec"
  | _ => false
  end.

Definition mutation_calls (tr : list event) : list event := filter is_mutation_call tr.

(** A mutation call that failed. *)
Definition is_failed_mutation (e : event) : bool :=
  match e with
  | Spawn _ _ o => is_mutation_call e && check_failed o
  | _ => false
  end.

(** The two read-only probes. *)
Definition is_probe (e : event) : Prop :=
  match e with
  | Spawn argv _ _ => argv = kreadconfig6_proxy_type ∨ argv = systemctl_is_active
  | _ => False
  end.

(** Spawned commands of any kind, but no notification. *)
Definition is_spawn (e : event) : Prop :=
  match e with Spawn _ _ _ => True | _ => False end.

(** Events of the background loop: probes and sleeps. *)
Definition is_poll (e : event) : Prop :=
  match e with Sleep _ => True | _ => is_probe e end.

(** The catalog as the loader returns it in a state. *)
Definition catalog (E : env) (s : state) : result (list record) := fst (_load_proxies E s).

(** The two subsystems, each with its selection and its picker. *)
Inductive subsystem := SystemProxy | Redsocks.

Definition selection_of (sub : subsystem) (s : state) : record :=
  match sub with
  | SystemProxy => proxy_selection s
  | Redsocks => redsocks_selection s
  end.

Definition picker_title (sub : subsystem) : string :=
  match sub with
  | SystemProxy => "Change System Proxy"
  | Redsocks => "Change Redsocks Proxy"
  end.

Definition change (E : env) (sub : subsystem) : M unit :=
  match sub with
  | SystemProxy => _change_proxy E
  | Redsocks => _change_redsocks_proxy E
  end.

(** The four mutation operations among the menu entries. *)
Definition is_mutation (it : menu_item) : bool :=
  match it with
  | EnableProxy | DisableProxy | EnableRedsocks | DisableRedsocks => true
  | _ => false
  end.

(** The command line of the radiolist dialog for a catalog. *)
Definition radiolist_argv (title : string) (cur : record) (proxies : list record)
    (s : state) : result (list string) :=
  match radiolist_entries proxies cur (radiolist_head title) s with
  | (Ok args, _) => Ok (args ++ radiolist_custom)%list
  | (Raise e, _) => Raise e
  end.

(** The picker was cancelled: the radiolist dialog was shown and closed with
    a non-zero status, or the custom entry was chosen and the input box was
    closed with a non-zero status or with blank input. *)
Inductive cancelled (E : env) (title : string) (cur : record) (s : state) : Prop :=
| cancelled_at_list proxies argv rc out :
    catalog E s = Ok proxies → proxies ≠ [] →
    radiolist_argv title cur proxies s = Ok argv →
    spawn E (log s) argv = Completed rc out →
    rc ≠ 0%Z →
    cancelled E title cur s
| cancelled_at_custom proxies argv out ip rc2 out2 :
    catalog E s = Ok proxies → proxies ≠ [] →
    radiolist_argv title cur proxies s = Ok argv →
    spawn E (log s) argv = Completed 0 out →
    Py.strip out = "__custom__" →
    cur !! "ip" = Some ip →
    spawn E (log s ++ [Spawn argv 120 (Completed 0 out)])%list (inputbox ip)
      = Completed rc2 out2 →
    rc2 ≠ 0%Z ∨ Py.strip out2 = "" →
    cancelled E title cur s.

(** The radiolist dialog returned a tag that is neither the custom-entry
    sentinel nor the address of a catalog record. *)
Inductive unmatched_tag (E : env) (title : string) (cur : record) (s : state) : Prop :=
| unmatched proxies argv out :
    catalog E s = Ok proxies → proxies ≠ [] →
    radiolist_argv title cur proxies s = Ok argv →
    spawn E (log s) argv = Completed 0 out →
    Py.strip out ≠ "__custom__" →
    (∀ p, p ∈ proxies → p !! "ip" ≠ Some (Py.strip out)) →
    unmatched_tag E title cur s.

(** ** The specification's wording, for comparison *)

(** The display table: off, proxy only, redsocks only, both. *)
Definition spec_display (proxy redsocks : bool) : color * string :=
  match proxy, redsocks with
  | false, false => (CLR_OFF, "–")
  | true, false => (CLR_PROXY, "P")
  | false, true => (CLR_REDSOCKS, "R")
  | true, true => (CLR_BOTH, "PR")
  end.

Definition on_off (b : bool) : string := if b then "ON" else "OFF".

(** The tooltip as the specification spells it. *)
Definition spec_tooltip (proxy : bool) (proxy_ip : string) (redsocks : bool)
    (redsocks_ip : string) : string :=
  "Proxy: " +:+ on_off proxy +:+ " (" +:+ proxy_ip +:+ ") | Redsocks: "
  +:+ on_off redsocks +:+ " (" +:+ redsocks_ip +:+ ")".

(** The tooltip with the separator the program writes: two spaces on each
    side of the bar. *)
Definition wide_tooltip (proxy : bool) (proxy_ip : string) (redsocks : bool)
    (redsocks_ip : string) : string :=
  "Proxy: " +:+ on_off proxy +:+ " (" +:+ proxy_ip +:+ ")  |  Redsocks: "
  +:+ on_off redsocks +:+ " (" +:+ redsocks_ip +:+ ")".

(** The structured source gives nothing: absent or unreadable, not a list,
    or an empty list. *)
Definition json_unusable (j : exn + json_data) : Prop :=
  match j with
  | inl _ => True
  | inr JsonOther => True
  | inr (JsonList data) => data = []
  end.

(** The records of the line-oriented source: one per non-blank line, named
    after the number of the line (counted from 1), with the fixed
    credentials. *)
Definition line_entry (number : nat) (line : string) : option record :=
  if decide (Py.strip line = "") then None
  else Some (make_record ("Proxy " +:+ Py.str_of_nat number) (Py.strip line)
               "edcguest" "edcguest").

Definition spec_text_catalog (lines : list string) : list record :=
  omap id (imap (λ i line, line_entry (S i) line) lines).

(** The five key-writes of enable-system-proxy for a selection, in order. *)
Definition planned_writes (sel : record) : list (list string) :=
  let url := proxy_url (default "" (sel !! "ip"))
               (dict_get sel "user" "") (dict_get sel "password" "") in
  [kwriteconfig6 "ProxyType" "1";
   kwriteconfig6 "httpProxy" url;
   kwriteconfig6 "httpsProxy" url;
   kwriteconfig6 "ftpProxy" url;
   kwriteconfig6 "NoProxyFor"
     "localhost,127.0.0.0/8,10.0.0.0/8,172.16.0.0/12,192.168.0.0/16"].

(** Claim C1 as the specification words it: every one of the five writes is
    attempted whatever the others do, and a failed write yields exactly one
    critical notification. *)
Definition spec_all_writes_attempted (E : env) (s : state) : Prop :=
  let tr := new_events s (exec (_enable_proxy E) s) in
  map event_argv (mutation_calls tr) = planned_writes (proxy_selection s)
  ∧ (Exists is_failed_mutation tr → length (criticals tr) = 1).

(** Claim C3 as the specification words it for the system-proxy probe: it
    answers true exactly when the read yields "1", and every failure of the
    read, a non-zero exit status included, makes it answer false. *)
Definition spec_proxy_probe (E : env) (s : state) : Prop :=
  let o := spawn E (log s) kreadconfig6_proxy_type in
  (fst (is_proxy_on E s) = Ok true
   ↔ ∃ rc out, o = Completed rc out ∧ Py.strip out = "1")
  ∧ (check_failed o = true → fst (is_proxy_on E s) = Ok false).

(** Claim C8 as the specification words it. *)
Definition spec_tooltip_text (E : env) (s : state) : Prop :=
  ∀ p r s1 s2 pip rip,
    is_proxy_on E s = (Ok p, s1) → is_redsocks_on E s1 = (Ok r, s2) →
    proxy_selection s !! "ip" = Some pip → redsocks_selection s !! "ip" = Some rip →
    fst (_tooltip E s) = Ok (spec_tooltip p pip r rip).

(** ** Sample worlds *)

Definition record_A : record := <["name" := "A"]> (<["ip" := "10.0.0.1"]> ∅).
Definition record_B : record := <["name" := "B"]> (<["ip" := "10.0.0.2"]> ∅).

(** The manager once constructed over the catalog [A, B], icon not yet
    refreshed, nothing logged. *)
Definition sample_state : state :=
  mkState true record_A record_A (mkImage CLR_OFF "–" 30) "" true false [].

Definition sample_exn_str (e : exn) : string :=
  match e with
  | KeyError k => k
  | CalledProcessError _ _ => "Command returned non-zero exit status"
  | ExternalError d => d
  end.

(** A world with catalog [A, B] whose commands answer as [sp] says. *)
Definition sample_world (sp : list event → list string → proc_outcome) : env :=
  mkEnv sp (λ _, inr (JsonList [record_A; record_B])) (λ _, ([], None)) sample_exn_str.

(** The first command spawned exits with status 1; the later ones succeed
    with empty output. *)
Definition first_call_fails (tr : list event) (argv : list string) : proc_outcome :=
  match tr with
  | [] => Completed 1 ""
  | _ => Completed 0 ""
  end.

(** The third command spawned times out; the others succeed with empty
    output. *)
Definition third_call_fails (tr : list event) (argv : list string) : proc_outcome :=
  match tr with
  | [_; _] => Aborted "timed out after 5 seconds"
  | _ => Completed 0 ""
  end.

(** Every command exits with status 1 after printing "1". *)
Definition exit_1_print_1 (tr : list event) (argv : list string) : proc_outcome :=
  Completed 1 "1".

(** Every command succeeds and prints nothing. *)
Definition all_succeed (tr : list event) (argv : list string) : proc_outcome :=
  Completed 0 "".

(** The radiolist dialog answers with the custom-entry tag; the input box
    that follows is confirmed with blank input. *)
Definition custom_then_blank (tr : list event) (argv : list string) : proc_outcome :=
  match tr with
  | [] => Completed 0 "__custom__
"
  | _ => Completed 0 "  
"
  end.

(** The radiolist dialog answers with a tag that is no catalog address. *)
Definition stray_tag (tr : list event) (argv : list string) : proc_outcome :=
  Completed 0 "10.9.9.9
".

(** A world where the system proxy and redsocks are on or off as told: the
    configuration read prints the proxy type, the service query exits with 0
    when active and with 3 when not. *)
Definition probe_world (proxy redsocks : bool) : env :=
  sample_world
    (λ _ argv,
       match argv with
       | "kreadconfig6" :: _ => Completed 0 (if proxy then "1
" else "0
")
       | "systemctl" :: _ => Completed (if redsocks then 0 else 3) ""
       | _ => Completed 0 ""
       end).

(** A world without [proxies.json], whose [proxy.txt] has a blank second
    line and cannot be read beyond the third. *)
Definition text_world : env :=
  mkEnv all_succeed
        (λ _, inl (ExternalError "No such file or directory"))
        (λ _, (["10.1.1.1
"; "
"; "  10.1.1.3  "], Some (ExternalError "Input/output error")))
        sample_exn_str.

(** A world with neither catalog file. *)
Definition bare_world : env :=
  mkEnv all_succeed
        (λ _, inl (ExternalError "No such file or directory"))
        (λ _, ([], Some (ExternalError "No such file or directory")))
        sample_exn_str.

(** ** Shapes of logs *)

(** A computation that only makes checked mutation calls from a planned
    list, in order, and stops at the first that fails. *)
Definition checked_calls {A} (m : M A) (planned : list (list string)) (s : state) : Prop :=
  ∃ writes,
    log (exec m s) = (log s ++ writes)%list
    ∧ selections (exec m s) = selections s
    ∧ map event_argv writes = take (length writes) planned
    ∧ Forall (λ e, is_mutation_call e = true) writes
    ∧ match fst (m s) with
      | Ok _ =>
          length writes = length planned
          ∧ Forall (λ e, is_failed_mutation e = false) writes
      | Raise _ =>
          ∃ ws w, writes = (ws ++ [w])%list
                  ∧ Forall (λ e, is_failed_mutation e = false) ws
                  ∧ is_failed_mutation w = true
      end.

(** An action that makes its checked calls, reports once, and refreshes:
    either every planned call was made and none failed, or the last call
    made failed and the report is the critical one titled [err_title]. *)
Definition action_shape (E : env) (m : M unit) (s : state)
    (planned : list (list string)) (err_title : string) : Prop :=
  ∃ s1 writes tail,
    m s = _refresh E s1
    ∧ log s1 = (log s ++ writes ++ tail)%list
    ∧ selections s1 = selections s
    ∧ map event_argv writes = take (length writes) planned
    ∧ Forall (λ e, is_mutation_call e = true) writes
    ∧ ((length writes = length planned
        ∧ Forall (λ e, is_failed_mutation e = false) writes
        ∧ ∃ title body urgency, tail = [Notify title body urgency])
       ∨ (∃ ws w body,
            writes = (ws ++ [w])%list
            ∧ Forall (λ e, is_failed_mutation e = false) ws
            ∧ is_failed_mutation w = true
            ∧ tail = [Notify err_title body "critical"])).

(** What follows the calls inside the guard: one normal notification, or an
    exception before anything is logged. *)
Definition reports_or_raises (after : M unit) : Prop :=
  ∀ s, (∃ title body, after s = (Ok tt, record_event (Notify title body "normal") s))
       ∨ (∃ e, after s = (Raise e, s)).

(** No constraint on the events logged. *)
Definition any_event (e : event) : Prop := True.

(** The other subsystem. *)
Definition other (sub : subsystem) : subsystem :=
  match sub with
  | SystemProxy => Redsocks
  | Redsocks => SystemProxy
  end.

(** What the process does once it is set up: the user opens the menu, which
    recomputes the two status lines, or clicks one of its entries, or the
    background loop runs one pass. *)
Inductive activity :=
| OpenMenu
| Click (it : menu_item)
| Poll.

Definition perform (E : env) (a : activity) : M unit :=
  match a with
  | OpenMenu => proxy_label E ;;; redsocks_label E ;;; ret tt
  | Click it => callback E it
  | Poll => _monitor E 1
  end.

Fixpoint run_schedule (E : env) (sched : list activity) (s : state) : state :=
  match sched with
  | [] => s
  | a :: rest => run_schedule E rest (exec (perform E a) s)
  end.

(** An activity that is not one of the two selection pickers. *)
Definition not_a_picker (a : activity) : Prop :=
  a ≠ Click ChangeProxy ∧ a ≠ Click ChangeRedsocksProxy.

(** ** Fonts *)

(** Font search order (first hit wins). *)
Definition FONT_CANDIDATES : list string :=
  ["/usr/share/fonts/google-noto/NotoSans-Bold.ttf";
   "/usr/share/fonts/google-noto/NotoSansMono-Bold.ttf";
   "/usr/share/fonts/dejavu-sans-fonts/DejaVuSans-Bold.ttf";
   "/usr/share/fonts/dejavu/DejaVuSans-Bold.ttf";
   "/usr/share/fonts/liberation-sans/LiberationSans-Bold.ttf";
   "/usr/share/fonts/truetype/dejavu/DejaVuSans-Bold.ttf"].

(** A font as [_load_font] returns it: a TrueType file loaded at a size, or
    the built-in default of the imaging library. *)
Inductive font :=
| TrueType (path : string) (size : nat)
| DefaultFont.

(** The fonts on disk: whether a path is a regular file, and whether
    [ImageFont.truetype] loads it at a size ([false] when it raises). *)
Record font_files := mkFontFiles {
  isfile : string → bool;
  loads : string → nat → bool;
}.

(** The loop of [_load_font] over the candidates still to try. *)
Fixpoint try_fonts (F : font_files) (paths : list string) (size : nat) : font :=
  match paths with
  | [] => DefaultFont
  | path :: rest =>
      if isfile F path then
        if loads F path size then TrueType path size
        else try_fonts F rest size
      else try_fonts F rest size
  end.

Definition _load_font (F : font_files) (size : nat) : font :=
  try_fonts F FONT_CANDIDATES size.

(** A candidate that is on disk and loads. *)
Definition usable (F : font_files) (size : nat) (path : string) : Prop :=
  isfile F path = true ∧ loads F path size = true.

(** ** More vocabulary *)

(** What the system-proxy probe makes of the outcome of its read, and the
    redsocks probe of the outcome of its query. *)
Definition proxy_answer (o : proc_outcome) : bool :=
  match o with
  | Completed _ out => String.eqb (Py.strip out) "1"
  | Aborted _ => false
  end.

Definition redsocks_answer (o : proc_outcome) : bool := negb (check_failed o).

(** Both selections hold an address. *)
Definition has_addresses (s : state) : Prop :=
  is_Some (proxy_selection s !! "ip") ∧ is_Some (redsocks_selection s !! "ip").

(** A world whose commands answer the same whatever happened before. *)
Definition stable (E : env) : Prop :=
  ∀ tr tr' argv, spawn E tr argv = spawn E tr' argv.

Definition is_sleep (e : event) : bool :=
  match e with Sleep _ => true | _ => false end.

(** ** More sample worlds *)

(** A record with an address and nothing else. *)
Definition record_unnamed : record := <["ip" := "10.0.0.3"]> ∅.

(** A manager whose selections are the record without a name. *)
Definition unnamed_state : state :=
  mkState true record_unnamed record_unnamed (mkImage CLR_OFF "–" 30) "" true false [].

(** A manager whose system-proxy selection has no address. *)
Definition addressless_state : state :=
  mkState true ∅ record_A (mkImage CLR_OFF "–" 30) "stale" true false [].

(** A world whose catalog starts with a record that has no address. *)
Definition addressless_world : env :=
  mkEnv all_succeed (λ _, inr (JsonList [<["name" := "A"]> ∅; record_B]))
        (λ _, ([], None)) sample_exn_str.

(** ** Actions and their reports *)

(** The external calls a menu action means to make in a state, in order. *)
Definition planned_calls (it : menu_item) (s : state) : list (list string) :=
  match it with
  | EnableProxy => planned_writes (proxy_selection s)
  | DisableProxy => [kwriteconfig6 "ProxyType" "0"]
  | EnableRedsocks => [pkexec_enable (default "" (redsocks_selection s !! "ip"))]
  | DisableRedsocks => [pkexec_disable]
  | _ => []
  end.

(** The selection an enable action reads. *)
Definition enabled_selection (it : menu_item) (s : state) : option record :=
  match it with
  | EnableProxy => Some (proxy_selection s)
  | EnableRedsocks => Some (redsocks_selection s)
  | _ => None
  end.

(** The title of the error report of a mutation. *)
Definition error_title (it : menu_item) : string :=
  match it with
  | EnableProxy | DisableProxy => "Proxy Error"
  | _ => "Redsocks Error"
  end.

(** An action of the guarded shape whose report, when no call failed,
    satisfies [Q]. *)
Definition action_report (E : env) (m : M unit) (s : state)
    (planned : list (list string)) (err_title : string)
    (Q : string → string → string → Prop) : Prop :=
  ∃ s1 writes tail,
    m s = _refresh E s1
    ∧ log s1 = (log s ++ writes ++ tail)%list
    ∧ selections s1 = selections s
    ∧ map event_argv writes = take (length writes) planned
    ∧ Forall (λ e, is_mutation_call e = true) writes
    ∧ ((length writes = length planned
        ∧ Forall (λ e, is_failed_mutation e = false) writes
        ∧ ∃ title body urgency, tail = [Notify title body urgency] ∧ Q title body urgency)
       ∨ (∃ ws w body,
            writes = (ws ++ [w])%list
            ∧ Forall (λ e, is_failed_mutation e = false) ws
            ∧ is_failed_mutation w = true
            ∧ tail = [Notify err_title body "critical"])).

(** The report of a mutation none of whose calls failed: the normal one
    when the selection read has a name or none is read, the critical one,
    carrying the KeyError, when an enable action finds no name. *)
Definition success_report (E : env) (it : menu_item) (s : state)
    (title body urgency : string) : Prop :=
  match enabled_selection it s with
  | Some sel =>
      match sel !! "name" with
      | Some _ => urgency = "normal"
      | None =>
          title = error_title it ∧ body = exn_str E (KeyError "name")
          ∧ urgency = "critical"
      end
  | None => urgency = "normal"
  end.

(** ** The picker, beyond cancellation *)

(** A record the radiolist can show: it has an address and a name. *)
Definition listable (p : record) : Prop := is_Some (p !! "ip") ∧ is_Some (p !! "name").

(** The three arguments the radiolist gets for a record: tag, label, and
    whether it is preselected. *)
Definition radiolist_triple (current_ip : string) (p : record) : list string :=
  let ip := default "" (p !! "ip") in
  [ip;
   default "" (p !! "name") +:+ "  (" +:+ ip +:+ ")";
   if String.eqb ip current_ip then "on" else "off"].

Definition set_selection (sub : subsystem) (r : record) (s : state) : state :=
  match sub with
  | SystemProxy => set_proxy_selection r s
  | Redsocks => set_redsocks_selection r s
  end.

(** The notification of a change of selection. *)
Definition changed_notice (sub : subsystem) (name ip : string) : event :=
  match sub with
  | SystemProxy =>
      Notify "Proxy Changed" ("System proxy → " +:+ name +:+ " (" +:+ ip +:+ ")") "normal"
  | Redsocks =>
      Notify "Redsocks Proxy Changed"
        ("Redsocks proxy → " +:+ name +:+ " (" +:+ ip +:+ ")") "normal"
  end.

(** The radiolist returned the address of a catalog record; [p] is the
    first record of the catalog with that address. *)
Inductive chosen (E : env) (title : string) (cur : record) (s : state) (p : record) : Prop :=
| chosen_from_catalog proxies argv out i :
    catalog E s = Ok proxies →
    radiolist_argv title cur proxies s = Ok argv →
    spawn E (log s) argv = Completed 0 out →
    Py.strip out ≠ "__custom__" →
    list_find (λ q, q !! "ip" = Some (Py.strip out)) proxies = Some (i, p) →
    chosen E title cur s p.

(** The custom entry was chosen and the input box confirmed with the
    non-blank text [addr] (once stripped). *)
Inductive custom_entered (E : env) (title : string) (cur : record) (s : state)
    (addr : string) : Prop :=
| custom_confirmed proxies argv out ip out2 :
    catalog E s = Ok proxies → proxies ≠ [] →
    radiolist_argv title cur proxies s = Ok argv →
    spawn E (log s) argv = Completed 0 out →
    Py.strip out = "__custom__" →
    cur !! "ip" = Some ip →
    spawn E (log s ++ [Spawn argv 120 (Completed 0 out)])%list (inputbox ip)
      = Completed 0 out2 →
    Py.strip out2 = addr → addr ≠ "" →
    custom_entered E title cur s addr.

(** A dialog of the picker did not complete (tool missing, timeout):
    the radiolist, or the input box after the custom entry was chosen. *)
Inductive dialog_failed (E : env) (title : string) (cur : record) (s : state)
    (detail : string) : Prop :=
| radiolist_failed proxies argv :
    catalog E s = Ok proxies → proxies ≠ [] →
    radiolist_argv title cur proxies s = Ok argv →
    spawn E (log s) argv = Aborted detail →
    dialog_failed E title cur s detail
| inputbox_failed proxies argv out ip :
    catalog E s = Ok proxies → proxies ≠ [] →
    radiolist_argv title cur proxies s = Ok argv →
    spawn E (log s) argv = Completed 0 out →
    Py.strip out = "__custom__" →
    cur !! "ip" = Some ip →
    spawn E (log s ++ [Spawn argv 120 (Completed 0 out)])%list (inputbox ip)
      = Aborted detail →
    dialog_failed E title cur s detail.

(** The radiolist answers with the address of B. *)
Definition picks_B (tr : list event) (argv : list string) : proc_outcome :=
  Completed 0 "10.0.0.2
".

(** The radiolist answers with the custom entry, the input box with an
    address padded with blanks. *)
Definition custom_then_address (tr : list event) (argv : list string) : proc_outcome :=
  match tr with
  | [] => Completed 0 "__custom__
"
  | _ => Completed 0 " 192.168.1.9
"
  end.

(** No dialog can be shown. *)
Definition no_display (tr : list event) (argv : list string) : proc_outcome :=
  Aborted "cannot connect to display".

(** A world whose catalog holds a record without a name after A. *)
Definition unnamed_world : env :=
  mkEnv all_succeed (λ _, inr (JsonList [record_A; record_unnamed]))
        (λ _, ([], None)) sample_exn_str.

(** ** More frames *)

(** A computation that leaves an observation of the state as it was. *)
Definition preserves {B} (f : state → B) {A} (m : M A) : Prop :=
  ∀ s, f (exec m s) = f s.

(** An activity other than the Quit entry. *)
Definition not_quit (a : activity) : Prop := a ≠ Click Quit.

(** A record as the loader builds it from a line of [proxy.txt]. *)
Definition from_text (p : record) : Prop :=
  (∃ n, p !! "name" = Some ("Proxy " +:+ Py.str_of_nat n))
  ∧ (∃ ip, p !! "ip" = Some ip ∧ ip ≠ "")
  ∧ p !! "user" = Some "edcguest"
  ∧ p !! "password" = Some "edcguest".

(** ** What the environment answers to a plan *)

(** The timeout a mutation gives its external calls, in seconds. *)
Definition call_timeout (it : menu_item) : nat :=
  match it with
  | EnableProxy | DisableProxy => 5
  | _ => 30
  end.

(** A spawned command that failed: it did not complete, or completed with a
    non-zero exit status. *)
Definition call_failed (e : event) : bool :=
  match e with
  | Spawn _ _ o => check_failed o
  | _ => false
  end.

(** What the environment answers when the calls of a plan are made one
    after the other from a log on, each logged before the next is made. *)
Fixpoint answers (E : env) (tr : list event) (t : nat) (plan : list (list string))
    : list event :=
  match plan with
  | [] => []
  | argv :: rest =>
      let e := Spawn argv t (spawn E tr argv) in
      e :: answers E (tr ++ [e]) t rest
  end.

(** A computation that makes the calls of a plan in order, as the
    environment answers them, and stops at the first that fails. *)
Definition answered_calls {A} (E : env) (m : M A) (t : nat) (plan : list (list string))
    (s : state) : Prop :=
  ∃ writes,
    log (exec m s) = (log s ++ writes)%list
    ∧ selections (exec m s) = selections s
    ∧ writes = take (length writes) (answers E (log s) t plan)
    ∧ match fst (m s) with
      | Ok _ =>
          length writes = length plan
          ∧ Forall (λ e, call_failed e = false) writes
      | Raise _ =>
          ∃ ws w, writes = (ws ++ [w])%list
                  ∧ Forall (λ e, call_failed e = false) ws
                  ∧ call_failed w = true
      end.

(** An action that makes the calls of its plan as the environment answers
    them, reports once, and refreshes. *)
Definition action_answered (E : env) (m : M unit) (s : state) (t : nat)
    (plan : list (list string)) (err_title : string) : Prop :=
  ∃ s1 writes tail,
    m s = _refresh E s1
    ∧ log s1 = (log s ++ writes ++ tail)%list
    ∧ selections s1 = selections s
    ∧ writes = take (length writes) (answers E (log s) t plan)
    ∧ ((length writes = length plan
        ∧ Forall (λ e, call_failed e = false) writes
        ∧ ∃ title body urgency, tail = [Notify title body urgency])
       ∨ (∃ ws w body,
            writes = (ws ++ [w])%list
            ∧ Forall (λ e, call_failed e = false) ws
            ∧ call_failed w = true
            ∧ tail = [Notify err_title body "critical"])).

(** A state and world in which the environment fails a planned call of an
    action, and the action leaves one critical notification and the
    selections as they were. *)
Definition failure_reported_once (E : env) (it : menu_item) (s : state) : Prop :=
  Exists call_failed (answers E (log s) (call_timeout it) (planned_calls it s))
  ∧ length (criticals (new_events s (exec (callback E it) s))) = 1
  ∧ selections (exec (callback E it) s) = selections s.

(** ** Encoded characters *)

(** The bytes of a character, by the length of its encoding: the lead and
    continuation bytes of one, two and three bytes, and where the bytes of
    four lie. *)
Inductive utf8_bytes (c : N) : string → Prop :=
  | utf8_1 : (c < 128)%N → utf8_bytes c (String (Ascii.ascii_of_N c) "")
  | utf8_2 a b :
      (128 ≤ c < 2048)%N → a = (192 + c / 64)%N → b = (128 + c mod 64)%N →
      utf8_bytes c (String (Ascii.ascii_of_N a) (String (Ascii.ascii_of_N b) ""))
  | utf8_3 a b d :
      (2048 ≤ c < 65536)%N →
      a = (224 + c / 4096)%N → b = (128 + (c / 64) mod 64)%N → d = (128 + c mod 64)%N →
      utf8_bytes c (String (Ascii.ascii_of_N a)
                      (String (Ascii.ascii_of_N b) (String (Ascii.ascii_of_N d) "")))
  | utf8_4 a b d e :
      (65536 ≤ c < 1114112)%N →
      (240 ≤ a < 248)%N → (128 ≤ b < 192)%N → (128 ≤ d < 192)%N → (128 ≤ e < 192)%N →
      utf8_bytes c (String (Ascii.ascii_of_N a)
                      (String (Ascii.ascii_of_N b)
                         (String (Ascii.ascii_of_N d) (String (Ascii.ascii_of_N e) "")))).


(** ** A world with no-break spaces *)

(** U+00A0, the no-break space, encoded. *)
Definition NBSP : string := Py.utf8 160.

(** A world without [proxies.json] whose [proxy.txt] holds a line made of a
    no-break space and an address followed by one.  The configuration read
    prints 1 and a no-break space; the radiolist answers with the custom
    entry and the input box with a no-break space. *)
Definition nbsp_world : env :=
  mkEnv (λ tr argv,
           match argv with
           | "kreadconfig6" :: _ => Completed 1 ("1" +:+ NBSP +:+ "
")
           | _ =>
               match tr with
               | [] => Completed 0 "__custom__
"
               | _ => Completed 0 (NBSP +:+ "
")
               end
           end)
        (λ _, inl (ExternalError "No such file or directory"))
        (λ _, ([NBSP +:+ "
"; "10.1.1.2" +:+ NBSP +:+ "
"], None))
        sample_exn_str.
(** * Text: bytes and characters *)

Lemma div_4096 (c : N) : (c / 64 / 64 = c / 4096)%N.
Proof. by rewrite N.Div0.div_div. Qed.

Lemma div_262144 (c : N) : (c / 4096 / 64 = c / 262144)%N.
Proof. by rewrite N.Div0.div_div. Qed.

(** Linear arithmetic over the quotients and remainders of [c] by 64, 4096
    and 262144. *)
Ltac arith c :=
  pose proof (N.div_mod' c 64); pose proof (N.mod_upper_bound c 64 ltac:(done));
  pose proof (N.div_mod' (c / 64) 64);
  pose proof (N.mod_upper_bound (c / 64) 64 ltac:(done));
  pose proof (N.div_mod' (c / 4096) 64);
  pose proof (N.mod_upper_bound (c / 4096) 64 ltac:(done));
  rewrite ?div_4096, ?div_262144 in *;
  generalize dependent ((c / 4096) mod 64)%N;
  generalize dependent ((c / 64) mod 64)%N;
  generalize dependent (c mod 64)%N;
  generalize dependent (c / 262144)%N;
  generalize dependent (c / 4096)%N;
  generalize dependent (c / 64)%N;
  intros; lia.

Ltac bools :=
  repeat first [rewrite orb_true_iff | rewrite andb_true_iff
               | rewrite N.eqb_eq | rewrite N.leb_le].

Ltac bool_false :=
  apply Bool.not_true_is_false; bools; lia.

Lemma byte_of_N (n : N) : (n < 256)%N → Ascii.N_of_ascii (Ascii.ascii_of_N n) = n.
Proof. apply Ascii.N_ascii_embedding. Qed.

Lemma space1_ascii (c : N) : (c < 128)%N → Py.space1 c = Py.isspace c.
Proof.
  intros Hc. apply Bool.eq_iff_eq_true. unfold Py.space1, Py.isspace. bools. lia.
Qed.

Lemma space1_high (a : N) : (128 ≤ a)%N → Py.space1 a = false.
Proof. intros Ha. unfold Py.space1. bool_false. Qed.

Lemma space2_lead (a b : N) : a ≠ 194%N → Py.space2 a b = false.
Proof. intros Ha. unfold Py.space2. bool_false. Qed.

Lemma space2_ascii (a b : N) : (b < 128)%N → Py.space2 a b = false.
Proof. intros Hb. unfold Py.space2. bool_false. Qed.

Lemma space3_lead (a b c : N) : (a < 225 ∨ 227 < a)%N → Py.space3 a b c = false.
Proof. intros Ha. unfold Py.space3. bool_false. Qed.

Lemma space3_middle (a b c : N) : (b < 128 ∨ 154 < b)%N → Py.space3 a b c = false.
Proof. intros Hb. unfold Py.space3. bool_false. Qed.

Lemma space3_ascii (a b c : N) : (c < 128)%N → Py.space3 a b c = false.
Proof. intros Hc. unfold Py.space3. bool_false. Qed.

Lemma space2_utf8 (c : N) :
  (128 ≤ c < 2048)%N → Py.space2 (192 + c / 64) (128 + c mod 64) = Py.isspace c.
Proof.
  intros Hc. apply Bool.eq_iff_eq_true. unfold Py.space2, Py.isspace.
  bools. arith c.
Qed.

Lemma space3_utf8 (c : N) :
  (2048 ≤ c < 65536)%N →
  Py.space3 (224 + c / 4096) (128 + (c / 64) mod 64) (128 + c mod 64) = Py.isspace c.
Proof.
  intros Hc. apply Bool.eq_iff_eq_true. unfold Py.space3, Py.isspace.
  bools. arith c.
Qed.

Lemma isspace_low (c : N) : (65536 ≤ c)%N → Py.isspace c = false.
Proof. intros Hc. unfold Py.isspace. bool_false. Qed.

Lemma utf8_cases (c : N) : Py.code_point c → utf8_bytes c (Py.utf8 c).
Proof.
  unfold Py.code_point, Py.utf8. intros Hc.
  destruct (N.ltb_spec c 128); [by constructor|].
  destruct (N.ltb_spec c 2048); [by constructor|].
  destruct (N.ltb_spec c 65536); [by constructor|].
  constructor; arith c.
Qed.

Lemma append_cons (a : Ascii.ascii) (s r : string) : String a s +:+ r = String a (s +:+ r).
Proof. done. Qed.

Lemma append_nil (r : string) : "" +:+ r = r.
Proof. done. Qed.

Lemma rev_cons_1 (a : Ascii.ascii) : String.rev (String a "") = String a "".
Proof. done. Qed.

Lemma rev_cons_2 (a b : Ascii.ascii) :
  String.rev (String a (String b "")) = String b (String a "").
Proof. done. Qed.

Lemma rev_cons_3 (a b d : Ascii.ascii) :
  String.rev (String a (String b (String d ""))) = String d (String b (String a "")).
Proof. done. Qed.

Lemma rev_cons_4 (a b d e : Ascii.ascii) :
  String.rev (String a (String b (String d (String e ""))))
  = String e (String d (String b (String a ""))).
Proof. done. Qed.

Lemma strip_front_utf8 (c : N) (rest : string) :
  Py.code_point c →
  Py.strip_front Py.space2 Py.space3 (Py.utf8 c +:+ rest)
  = if Py.isspace c then Py.strip_front Py.space2 Py.space3 rest
    else Py.utf8 c +:+ rest.
Proof.
  intros Hc. destruct (utf8_cases c Hc) as [H1|a b H2 -> ->|a b d H3 -> -> ->|a b d e H4 Ha Hb Hd He].
  - rewrite ?append_cons, append_nil. cbn [Py.strip_front]. rewrite byte_of_N by lia.
    rewrite space1_ascii by done. destruct (Py.isspace c); [done|].
    destruct rest as [|b [|d r3]]; [done| |].
    + by rewrite space2_lead by lia.
    + rewrite space2_lead by lia. by rewrite space3_lead by lia.
  - rewrite ?append_cons, append_nil. cbn [Py.strip_front]. rewrite !byte_of_N by arith c.
    rewrite space1_high by arith c. rewrite space2_utf8 by done.
    destruct (Py.isspace c); [done|].
    destruct rest as [|d r3]; [done|]. by rewrite space3_lead by arith c.
  - rewrite ?append_cons, append_nil. cbn [Py.strip_front]. rewrite !byte_of_N by arith c.
    rewrite space1_high by arith c. rewrite space2_lead by arith c.
    rewrite space3_utf8 by done. by destruct (Py.isspace c).
  - rewrite ?append_cons, append_nil. cbn [Py.strip_front]. rewrite !byte_of_N by lia.
    rewrite space1_high by lia. rewrite space2_lead by lia.
    rewrite space3_lead by lia. by rewrite isspace_low by lia.
Qed.

Lemma strip_back_utf8 (c : N) (rest : string) :
  Py.code_point c →
  Py.strip_front (λ a b, Py.space2 b a) (λ a b d, Py.space3 d b a)
    (String.rev (Py.utf8 c) +:+ rest)
  = if Py.isspace c
    then Py.strip_front (λ a b, Py.space2 b a) (λ a b d, Py.space3 d b a) rest
    else String.rev (Py.utf8 c) +:+ rest.
Proof.
  intros Hc. destruct (utf8_cases c Hc) as [H1|a b H2 -> ->|a b d H3 -> -> ->|a b d e H4 Ha Hb Hd He].
  - rewrite ?rev_cons_4, ?rev_cons_3, ?rev_cons_2, ?rev_cons_1, ?append_cons, append_nil.
    cbn [Py.strip_front]. rewrite byte_of_N by lia.
    rewrite space1_ascii by done. destruct (Py.isspace c); [done|].
    destruct rest as [|b [|d r3]]; [done| |].
    + by rewrite space2_ascii by lia.
    + rewrite space2_ascii by lia. by rewrite space3_ascii by lia.
  - rewrite ?rev_cons_4, ?rev_cons_3, ?rev_cons_2, ?rev_cons_1, ?append_cons, append_nil.
    cbn [Py.strip_front].
    rewrite !byte_of_N by arith c.
    rewrite space1_high by arith c. rewrite space2_utf8 by done.
    destruct (Py.isspace c); [done|].
    destruct rest as [|d r3]; [done|]. by rewrite space3_middle by arith c.
  - rewrite ?rev_cons_4, ?rev_cons_3, ?rev_cons_2, ?rev_cons_1, ?append_cons, append_nil.
    cbn [Py.strip_front].
    rewrite !byte_of_N by arith c.
    rewrite space1_high by arith c. rewrite space2_lead by arith c.
    rewrite space3_utf8 by done. by destruct (Py.isspace c).
  - rewrite ?rev_cons_4, ?rev_cons_3, ?rev_cons_2, ?rev_cons_1, ?append_cons, append_nil.
    cbn [Py.strip_front].
    rewrite !byte_of_N by lia.
    rewrite space1_high by lia. rewrite space2_lead by lia.
    rewrite space3_lead by lia. by rewrite isspace_low by lia.
Qed.

Lemma append_assoc (s1 s2 s3 : string) : (s1 +:+ s2) +:+ s3 = s1 +:+ (s2 +:+ s3).
Proof. induction s1 as [|a s1 IH]; [done|]. rewrite !append_cons. by f_equal. Qed.

Lemma append_empty (s : string) : s +:+ "" = s.
Proof. induction s as [|a s IH]; [done|]. rewrite append_cons. by f_equal. Qed.

Lemma rev_app_spec (s acc : string) : String.rev_app s acc = String.rev s +:+ acc.
Proof.
  unfold String.rev. revert acc. induction s as [|a s IH]; intros acc; [done|].
  cbn [String.rev_app]. rewrite (IH (String a acc)), (IH (String a "")).
  by rewrite append_assoc.
Qed.

Lemma rev_cons (a : Ascii.ascii) (s : string) :
  String.rev (String a s) = String.rev s +:+ String a "".
Proof. unfold String.rev at 1. cbn [String.rev_app]. apply rev_app_spec. Qed.

Lemma rev_append (s1 s2 : string) :
  String.rev (s1 +:+ s2) = String.rev s2 +:+ String.rev s1.
Proof.
  induction s1 as [|a s1 IH].
  - by rewrite append_nil, append_empty.
  - by rewrite append_cons, !rev_cons, IH, append_assoc.
Qed.

Lemma rev_rev (s : string) : String.rev (String.rev s) = s.
Proof.
  induction s as [|a s IH]; [done|].
  by rewrite rev_cons, rev_append, IH.
Qed.

Lemma encode_app (l1 l2 : list N) : Py.encode (l1 ++ l2) = Py.encode l1 +:+ Py.encode l2.
Proof.
  induction l1 as [|c l1 IH]; simpl; [done|]. by rewrite IH, append_assoc.
Qed.

Lemma lstrip_chars_valid (l : list N) :
  Forall Py.code_point l → Forall Py.code_point (Py.lstrip_chars l).
Proof.
  induction 1 as [|c l Hc Hl IH]; simpl; [done|].
  destruct (Py.isspace c); [done|]. by constructor.
Qed.

Lemma lstrip_encode (l : list N) :
  Forall Py.code_point l → Py.lstrip (Py.encode l) = Py.encode (Py.lstrip_chars l).
Proof.
  unfold Py.lstrip. induction 1 as [|c l Hc Hl IH]; [done|].
  cbn [Py.encode fold_right Py.lstrip_chars]. fold (Py.encode l).
  rewrite strip_front_utf8 by done. by destruct (Py.isspace c).
Qed.

Lemma strip_back_encode (l : list N) :
  Forall Py.code_point l →
  Py.strip_front (λ a b, Py.space2 b a) (λ a b d, Py.space3 d b a)
    (String.rev (Py.encode (reverse l)))
  = String.rev (Py.encode (reverse (Py.lstrip_chars l))).
Proof.
  induction 1 as [|c l Hc Hl IH]; [done|].
  rewrite reverse_cons, encode_app, rev_append.
  cbn [Py.encode fold_right Py.lstrip_chars]. rewrite append_empty.
  rewrite strip_back_utf8 by done. destruct (Py.isspace c); [done|].
  rewrite reverse_cons, encode_app, rev_append. simpl. by rewrite append_empty.
Qed.

(** * Reasoning about computations *)

Section Quiet.

Context (P : event → Prop).

Lemma quiet_ret {A} (a : A) : quiet P (ret a).
Proof. intros s. exists []. by rewrite app_nil_r. Qed.

Lemma quiet_raise {A} (e : exn) : quiet P (@raise A e).
Proof. intros s. exists []. by rewrite app_nil_r. Qed.

Lemma quiet_get {A} (f : state → A) : quiet P (get f).
Proof. intros s. exists []. by rewrite app_nil_r. Qed.

Lemma quiet_bind {A B} (m : M A) (k : A → M B) :
  quiet P m → (∀ a, quiet P (k a)) → quiet P (bind m k).
Proof.
  intros Hm Hk s. destruct (Hm s) as (tr & Hsel & Hlog & Htr).
  unfold exec, bind in *. destruct (m s) as [[a|e] s1]; simpl in *.
  - destruct (Hk a s1) as (tr' & Hsel' & Hlog' & Htr'). unfold exec in *.
    exists (tr ++ tr')%list. split_and!.
    + congruence.
    + by rewrite Hlog', Hlog, app_assoc.
    + by apply Forall_app.
  - by exists tr.
Qed.

Lemma quiet_try_except {A} (m : M A) (h : exn → M A) :
  quiet P m → (∀ e, quiet P (h e)) → quiet P (try_except m h).
Proof.
  intros Hm Hh s. destruct (Hm s) as (tr & Hsel & Hlog & Htr).
  unfold exec, try_except in *. destruct (m s) as [[a|e] s1]; simpl in *.
  - by exists tr.
  - destruct (Hh e s1) as (tr' & Hsel' & Hlog' & Htr'). unfold exec in *.
    exists (tr ++ tr')%list. split_and!.
    + congruence.
    + by rewrite Hlog', Hlog, app_assoc.
    + by apply Forall_app.
Qed.

Lemma quiet_for_each {A} (l : list A) (body : A → M unit) :
  (∀ x, quiet P (body x)) → quiet P (for_each l body).
Proof.
  intros Hbody. induction l as [|x l IH]; simpl.
  - apply quiet_ret.
  - apply quiet_bind; auto.
Qed.

Lemma quiet_getitem (d : record) (k : string) : quiet P (getitem d k).
Proof. unfold getitem. destruct (d !! k); [apply quiet_ret | apply quiet_raise]. Qed.

Lemma quiet_record_event (e : event) : P e → quiet P (modify (record_event e)).
Proof. intros He s. exists [e]. split_and!; [done | done | by constructor]. Qed.

Lemma quiet_modify (f : state → state) :
  (∀ s, selections (f s) = selections s) → (∀ s, log (f s) = log s) →
  quiet P (modify f).
Proof.
  intros Hsel Hlog s. exists []. unfold exec, modify. simpl.
  by rewrite Hsel, Hlog, app_nil_r.
Qed.

Lemma quiet_subprocess_run E argv t chk :
  (∀ o, P (Spawn argv t o)) → quiet P (subprocess_run E argv t chk).
Proof.
  intros HP s. exists [Spawn argv t (spawn E (log s) argv)].
  unfold exec, subprocess_run.
  destruct (spawn E (log s) argv) as [rc out|d] eqn:Ho.
  - destruct (chk && negb (rc =? 0)%Z); simpl; split_and!; auto.
  - simpl. split_and!; auto.
Qed.

End Quiet.

Lemma quiet_weaken (P Q : event → Prop) {A} (m : M A) :
  (∀ e, P e → Q e) → quiet P m → quiet Q m.
Proof.
  intros HPQ Hm s. destruct (Hm s) as (tr & ? & ? & Htr).
  exists tr. split_and!; [done | done |]. eapply Forall_impl; eauto.
Qed.

(** ** Sequencing *)

Lemma bind_ok {A B} (m : M A) (k : A → M B) (s s1 : state) (a : A) :
  m s = (Ok a, s1) → bind m k s = k a s1.
Proof. intros H. unfold bind. by rewrite H. Qed.

Lemma bind_raise {A B} (m : M A) (k : A → M B) (s s1 : state) (e : exn) :
  m s = (Raise e, s1) → bind m k s = (Raise e, s1).
Proof. intros H. unfold bind. by rewrite H. Qed.

Lemma try_ok {A} (m : M A) (h : exn → M A) (s s1 : state) (a : A) :
  m s = (Ok a, s1) → try_except m h s = (Ok a, s1).
Proof. intros H. unfold try_except. by rewrite H. Qed.

Lemma try_raise {A} (m : M A) (h : exn → M A) (s s1 : state) (e : exn) :
  m s = (Raise e, s1) → try_except m h s = h e s1.
Proof. intros H. unfold try_except. by rewrite H. Qed.

(** ** Logs *)

Lemma new_events_app (s s' : state) (tr : list event) :
  log s' = (log s ++ tr)%list → new_events s s' = tr.
Proof. intros Hlog. unfold new_events. by rewrite Hlog, drop_app_length. Qed.

Lemma notifications_app (tr1 tr2 : list event) :
  notifications (tr1 ++ tr2) = (notifications tr1 ++ notifications tr2)%list.
Proof. apply filter_app. Qed.

Lemma criticals_app (tr1 tr2 : list event) :
  criticals (tr1 ++ tr2) = (criticals tr1 ++ criticals tr2)%list.
Proof. apply filter_app. Qed.

Lemma mutation_calls_app (tr1 tr2 : list event) :
  mutation_calls (tr1 ++ tr2) = (mutation_calls tr1 ++ mutation_calls tr2)%list.
Proof. apply filter_app. Qed.

Lemma filter_none {A} (f : A → bool) (P : A → Prop) (l : list A) :
  (∀ x, P x → f x = false) → Forall P l → filter f l = [].
Proof.
  intros Hf Hl. induction Hl as [|x l Hx _ IH]; [done|].
  rewrite filter_cons, IH. destruct (decide (f x)) as [Hfx|]; [|done].
  rewrite (Hf x Hx) in Hfx. done.
Qed.

Lemma filter_all {A} (f : A → bool) (P : A → Prop) (l : list A) :
  (∀ x, P x → f x = true) → Forall P l → filter f l = l.
Proof.
  intros Hf Hl. induction Hl as [|x l Hx _ IH]; [done|].
  rewrite filter_cons, IH. destruct (decide (f x)) as [|Hfx]; [done|].
  rewrite (Hf x Hx) in Hfx. by destruct Hfx.
Qed.

Lemma spawn_not_notification (e : event) : is_spawn e → is_notification e = false.
Proof. by destruct e. Qed.

Lemma spawn_not_critical (e : event) : is_spawn e → is_critical e = false.
Proof. by destruct e. Qed.

Lemma probe_is_spawn (e : event) : is_probe e → is_spawn e.
Proof. by destruct e. Qed.

Lemma probe_not_mutation (e : event) : is_probe e → is_mutation_call e = false.
Proof. destruct e as [argv t o| |]; [|done..]. by intros [->| ->]. Qed.

Lemma probe_not_failed_mutation (e : event) : is_probe e → is_failed_mutation e = false.
Proof.
  intros He. destruct e as [argv t o| |]; [|done..].
  unfold is_failed_mutation. by rewrite (probe_not_mutation _ He).
Qed.

(** ** External commands *)

Lemma subprocess_run_eq E argv t chk s :
  subprocess_run E argv t chk s =
  (match spawn E (log s) argv with
   | Aborted d => Raise (ExternalError d)
   | Completed rc out =>
       if chk && negb (rc =? 0)%Z then Raise (CalledProcessError argv rc)
       else Ok (rc, out)
   end,
   record_event (Spawn argv t (spawn E (log s) argv)) s).
Proof.
  unfold subprocess_run. destruct (spawn E (log s) argv) as [rc out|d]; [|done].
  by destruct (chk && negb (rc =? 0)%Z).
Qed.

(** With [check=True] the call raises exactly when the command failed. *)
Lemma subprocess_run_checked E argv t s :
  let o := spawn E (log s) argv in
  (check_failed o = false ∧ ∃ v, subprocess_run E argv t true s = (Ok v, record_event (Spawn argv t o) s))
  ∨ (check_failed o = true ∧ ∃ e, subprocess_run E argv t true s = (Raise e, record_event (Spawn argv t o) s)).
Proof.
  intros o. rewrite subprocess_run_eq. subst o.
  destruct (spawn E (log s) argv) as [rc out|d]; simpl.
  - destruct (rc =? 0)%Z; simpl; [left|right]; eauto.
  - right. eauto.
Qed.

(** ** The probes *)

Lemma is_proxy_on_eq E s :
  is_proxy_on E s =
  (Ok match spawn E (log s) kreadconfig6_proxy_type with
      | Completed _ out => String.eqb (Py.strip out) "1"
      | Aborted _ => false
      end,
   record_event (Spawn kreadconfig6_proxy_type 3 (spawn E (log s) kreadconfig6_proxy_type)) s).
Proof.
  unfold is_proxy_on, try_except, bind. rewrite subprocess_run_eq.
  by destruct (spawn E (log s) kreadconfig6_proxy_type).
Qed.

Lemma is_redsocks_on_eq E s :
  is_redsocks_on E s =
  (Ok (negb (check_failed (spawn E (log s) systemctl_is_active))),
   record_event (Spawn systemctl_is_active 3 (spawn E (log s) systemctl_is_active)) s).
Proof.
  unfold is_redsocks_on, check_call, try_except, bind. rewrite subprocess_run_eq.
  destruct (spawn E (log s) systemctl_is_active) as [rc out|d]; [|done].
  simpl. by destruct (rc =? 0)%Z.
Qed.

Lemma quiet_is_proxy_on E : quiet is_probe (is_proxy_on E).
Proof.
  apply quiet_try_except; [|intros; apply quiet_ret].
  apply quiet_bind; [|intros; apply quiet_ret].
  apply quiet_subprocess_run. intros o. by left.
Qed.

Lemma quiet_is_redsocks_on E : quiet is_probe (is_redsocks_on E).
Proof.
  apply quiet_try_except; [|intros; apply quiet_ret].
  apply quiet_bind; [|intros; apply quiet_ret].
  apply quiet_bind; [|intros; apply quiet_ret].
  apply quiet_subprocess_run. intros o. by right.
Qed.

(** ** Rendering *)

Lemma render_icon_eq E s p r s1 s2 :
  is_proxy_on E s = (Ok p, s1) →
  is_redsocks_on E s1 = (Ok r, s2) →
  _render_icon E s =
  (Ok (mkImage (fst (icon_style p r)) (snd (icon_style p r))
               (if (1 <? Py.len (snd (icon_style p r)))%nat then 20 else 30)), s2).
Proof.
  intros Hp Hr. unfold _render_icon, bind. rewrite Hp, Hr.
  by destruct (icon_style p r).
Qed.

Lemma quiet_render_icon E : quiet is_probe (_render_icon E).
Proof.
  apply quiet_bind; [apply quiet_is_proxy_on|]. intros p.
  apply quiet_bind; [apply quiet_is_redsocks_on|]. intros r.
  destruct (icon_style p r). apply quiet_ret.
Qed.

Lemma quiet_tooltip E : quiet is_probe (_tooltip E).
Proof.
  apply quiet_bind; [apply quiet_is_proxy_on|]. intros p.
  apply quiet_bind; [apply quiet_is_redsocks_on|]. intros r.
  apply quiet_bind; [apply quiet_get|]. intros psel.
  apply quiet_bind; [apply quiet_getitem|]. intros pip.
  apply quiet_bind; [apply quiet_get|]. intros rsel.
  apply quiet_bind; [apply quiet_getitem|]. intros rip.
  apply quiet_ret.
Qed.

Lemma quiet_refresh E : quiet is_probe (_refresh E).
Proof.
  apply quiet_bind; [apply quiet_render_icon|]. intros img.
  apply quiet_bind; [by apply quiet_modify|]. intros _.
  apply quiet_bind; [apply quiet_tooltip|]. intros tip.
  by apply quiet_modify.
Qed.

(** ** The catalog loader *)

Lemma truthy_strip_blank (line : string) :
  Py.truthy (Py.strip line) = false ↔ Py.strip line = "".
Proof. by destruct (Py.strip line). Qed.

Lemma txt_loop_from (i : nat) (lines : list string) (acc : list record) :
  txt_loop i lines acc = (acc ++ omap id (imap (λ j, line_entry (i + j)) lines))%list.
Proof.
  revert i acc. induction lines as [|line rest IH]; intros i acc; simpl.
  - by rewrite app_nil_r.
  - rewrite IH. rewrite Nat.add_0_r. unfold line_entry at 2, txt_entry.
    assert (imap (λ j, line_entry (S i + j)) rest
            = imap ((λ j, line_entry (i + j)) ∘ S) rest) as ->.
    { apply imap_ext. intros j x _. simpl. f_equal. lia. }
    destruct (decide (Py.strip line = "")) as [Hblank|Hfull].
    + rewrite Hblank. done.
    + destruct (Py.strip line) eqn:Hs; [done|]. simpl.
      by rewrite <- app_assoc.
Qed.

Lemma txt_loop_spec (lines : list string) :
  txt_loop 1 lines [] = spec_text_catalog lines.
Proof. by rewrite txt_loop_from. Qed.

Lemma load_proxies_eq E s :
  _load_proxies E s =
  (Ok match read_json E (log s) with
      | inr (JsonList (first :: others)) => first :: others
      | _ => txt_loop 1 (fst (read_txt E (log s))) []
      end, s).
Proof.
  unfold _load_proxies, bind, try_except, get.
  destruct (read_json E (log s)) as [exc|[[|first others]|]]; simpl; try done;
    by destruct (read_txt E (log s)) as [lines [exc'|]].
Qed.

Lemma quiet_load_proxies P E : quiet P (_load_proxies E).
Proof. intros s. exists []. unfold exec. by rewrite load_proxies_eq, app_nil_r. Qed.

Lemma spec_text_catalog_nil (lines : list string) :
  spec_text_catalog lines = [] ↔ ∀ line, line ∈ lines → Py.strip line = "".
Proof.
  unfold spec_text_catalog.
  assert (∀ (f : nat → nat) (ls : list string),
    omap id (imap (λ j line, line_entry (f j) line) ls) = []
    ↔ ∀ line, line ∈ ls → Py.strip line = "") as Hgen.
  { intros f ls. revert f. induction ls as [|l ls IH]; intros f; simpl.
    - split; [|done]. intros _ line Hin. by apply elem_of_nil in Hin.
    - unfold line_entry at 1. destruct (decide (Py.strip l = "")) as [Hb|Hf]; simpl.
      + specialize (IH (f ∘ S)). simpl in IH. unfold compose. rewrite IH.
        split.
        * intros Hrest line Hin. apply elem_of_cons in Hin as [->|Hin]; auto.
        * intros Hall line Hin. apply Hall. by right.
      + split; [done|]. intros Hall. destruct Hf. apply Hall. by left. }
  apply (Hgen S).
Qed.

(** What is known after the refresh that ends every action: the refresh
    appends probes only. *)
Lemma after_refresh E (s s1 : state) (pre : list event) :
  log s1 = (log s ++ pre)%list →
  selections s1 = selections s →
  ∃ probes,
    Forall is_probe probes
    ∧ new_events s (exec (_refresh E) s1) = (pre ++ probes)%list
    ∧ selections (exec (_refresh E) s1) = selections s.
Proof.
  intros Hlog Hsel. destruct (quiet_refresh E s1) as (probes & Hsel' & Hlog' & Hprobes).
  exists probes. split_and!; [done| |congruence].
  apply new_events_app. by rewrite Hlog', Hlog, app_assoc.
Qed.

Lemma probes_no_notification (probes : list event) :
  Forall is_probe probes → notifications probes = [].
Proof.
  intros H. apply (filter_none _ is_probe); [|done].
  intros e He. by apply spawn_not_notification, probe_is_spawn.
Qed.

Lemma probes_no_critical (probes : list event) :
  Forall is_probe probes → criticals probes = [].
Proof.
  intros H. apply (filter_none _ is_probe); [|done].
  intros e He. by apply spawn_not_critical, probe_is_spawn.
Qed.

Lemma probes_no_mutation (probes : list event) :
  Forall is_probe probes → mutation_calls probes = [].
Proof.
  intros H. apply (filter_none _ is_probe); [|done]. apply probe_not_mutation.
Qed.

Lemma probes_not_failed (probes : list event) :
  Forall is_probe probes → ¬ Exists is_failed_mutation probes.
Proof.
  intros H Hex. apply Exists_exists in Hex as (e & Hin & Hfail).
  rewrite Forall_forall in H. rewrite (probe_not_failed_mutation e) in Hfail; auto.
Qed.

(** ** The write loop of enable-system-proxy *)

Lemma failed_write_event (key val : string) (t : nat) (o : proc_outcome) :
  is_failed_mutation (Spawn (kwriteconfig6 key val) t o) = check_failed o.
Proof. done. Qed.

Lemma for_each_writes E (settings : list (string * string)) (s : state) :
  checked_calls
    (for_each settings
       (λ kv, subprocess_run E (kwriteconfig6 (fst kv) (snd kv)) 5 true ;;; ret tt))
    (map (λ kv, kwriteconfig6 (fst kv) (snd kv)) settings) s.
Proof.
  unfold checked_calls. revert s. induction settings as [|[key val] rest IH]; intros s.
  - exists []. simpl. by rewrite app_nil_r.
  - cbn [for_each fst snd].
    pose (o := spawn E (log s) (kwriteconfig6 key val)).
    pose (w := Spawn (kwriteconfig6 key val) 5 o).
    destruct (subprocess_run_checked E (kwriteconfig6 key val) 5 s)
      as [[Hok [v Hrun]]|[Hfail [e Hrun]]]; fold o in Hok || fold o in Hfail;
      fold o in Hrun; fold w in Hrun.
    + assert (bind (subprocess_run E (kwriteconfig6 key val) 5 true) (λ _, ret tt) s
              = (Ok tt, record_event w s)) as Hstep
        by (by rewrite (bind_ok _ _ _ _ _ Hrun)).
      unfold exec. rewrite (bind_ok _ _ _ _ _ Hstep).
      destruct (IH (record_event w s)) as (writes & Hlog & Hsel & Hargv & Hmut & Hres).
      unfold exec in *. exists (w :: writes). split_and!.
      * rewrite Hlog. simpl. by rewrite <- app_assoc.
      * rewrite Hsel. done.
      * simpl. by rewrite Hargv.
      * by constructor.
      * destruct (fst _) as [[]|exc].
        -- destruct Hres as [Hlen Hall]. split; [simpl; by rewrite Hlen|].
           constructor; [|done]. subst w. by rewrite failed_write_event.
        -- destruct Hres as (ws & wl & -> & Hall & Hwl).
           exists (w :: ws), wl. split_and!; [done| |done].
           constructor; [|done]. subst w. by rewrite failed_write_event.
    + assert (bind (subprocess_run E (kwriteconfig6 key val) 5 true) (λ _, ret tt) s
              = (Raise e, record_event w s)) as Hstep
        by (by rewrite (bind_raise _ _ _ _ _ Hrun)).
      unfold exec. rewrite (bind_raise _ _ _ _ _ Hstep).
      exists [w]. split_and!; [done|done|done|by repeat constructor|].
      exists [], w. split_and!; [done|done|]. subst w. by rewrite failed_write_event.
Qed.

Lemma single_checked_call E (argv : list string) (t : nat) (s : state) :
  (∀ o, is_mutation_call (Spawn argv t o) = true) →
  checked_calls (subprocess_run E argv t true) [argv] s.
Proof.
  intros Hmut. pose (o := spawn E (log s) argv).
  assert (is_failed_mutation (Spawn argv t o) = check_failed o) as Hfm.
  { unfold is_failed_mutation. by rewrite Hmut. }
  exists [Spawn argv t o]. unfold exec.
  destruct (subprocess_run_checked E argv t s) as [[Hok [v Hrun]]|[Hfail [e Hrun]]];
    fold o in Hok || fold o in Hfail; fold o in Hrun; rewrite Hrun; simpl.
  - split_and!; [done|done|done|by repeat constructor|done|].
    repeat constructor. by rewrite Hfm.
  - split_and!; [done|done|done|by repeat constructor|].
    exists [], (Spawn argv t o). by rewrite Hfm.
Qed.

(** ** Guarded actions *)

Lemma guarded_action_shape E {A} (calls : M A) (after : M unit)
    (err_title : string) (planned : list (list string)) (s : state) :
  checked_calls calls planned s →
  reports_or_raises after →
  action_shape E
    (try_except (calls ;;; after) (λ exc, _notify err_title (exn_str E exc) "critical") ;;;
     _refresh E)
    s planned err_title.
Proof.
  intros (writes & Hlog & Hsel & Hargv & Hmut & Hres) Hafter.
  unfold exec in *. destruct (calls s) as [[a|e] s1] eqn:Hcalls; simpl in *.
  - destruct Hres as [Hlen Hall].
    destruct (Hafter s1) as [(title & body & Hrep)|[e Hraise]].
    + exists (record_event (Notify title body "normal") s1), writes, [Notify title body "normal"].
      split_and!; [|simpl; by rewrite Hlog, <- app_assoc|done|done|done|left; eauto 10].
      erewrite bind_ok; [done|]. apply try_ok. by rewrite (bind_ok _ _ _ _ _ Hcalls).
    + exists (record_event (Notify err_title (exn_str E e) "critical") s1), writes,
             [Notify err_title (exn_str E e) "critical"].
      split_and!; [|simpl; by rewrite Hlog, <- app_assoc|done|done|done|left; eauto 10].
      erewrite bind_ok; [done|]. erewrite try_raise; [done|].
      by rewrite (bind_ok _ _ _ _ _ Hcalls).
  - exists (record_event (Notify err_title (exn_str E e) "critical") s1), writes,
           [Notify err_title (exn_str E e) "critical"].
    split_and!; [|simpl; by rewrite Hlog, <- app_assoc|done|done|done|].
    + erewrite bind_ok; [done|]. erewrite try_raise; [done|].
      by rewrite (bind_raise _ _ _ _ _ Hcalls).
    + right. destruct Hres as (ws & w & -> & Hall & Hw). eauto 10.
Qed.

(** What an action of that shape leaves in the log, refresh included. *)
Lemma action_observed E (m : M unit) (s : state) (planned : list (list string))
    (err_title : string) :
  action_shape E m s planned err_title →
  ∃ s1 writes tail,
    m s = _refresh E s1
    ∧ log s1 = (log s ++ writes ++ tail)%list
    ∧ mutation_calls (new_events s (exec m s)) = writes
    ∧ notifications (new_events s (exec m s)) = tail
    ∧ criticals (new_events s (exec m s)) = criticals tail
    ∧ (Exists is_failed_mutation (new_events s (exec m s)) → Exists is_failed_mutation writes)
    ∧ selections (exec m s) = selections s
    ∧ map event_argv writes = take (length writes) planned
    ∧ ((length writes = length planned
        ∧ Forall (λ e, is_failed_mutation e = false) writes
        ∧ ∃ title body urgency, tail = [Notify title body urgency])
       ∨ (∃ ws w body,
            writes = (ws ++ [w])%list
            ∧ Forall (λ e, is_failed_mutation e = false) ws
            ∧ is_failed_mutation w = true
            ∧ tail = [Notify err_title body "critical"])).
Proof.
  intros (s1 & writes & tail & Hrun & Hlog & Hsel & Hargv & Hmut & Hcases).
  destruct (after_refresh E s s1 (writes ++ tail) Hlog Hsel) as (probes & Hprobes & Htr & Hsel').
  exists s1, writes, tail. unfold exec. rewrite Hrun. fold (exec (_refresh E) s1).
  rewrite Htr.
  assert (is_spawn_free : ∃ title body urgency, tail = [Notify title body urgency]).
  { destruct Hcases as [(_ & _ & ?)|(? & ? & ? & _ & _ & _ & ->)]; eauto. }
  destruct is_spawn_free as (title & body & urgency & ->).
  assert (filter is_mutation_call writes = writes) as Hfw.
  { by apply (filter_all _ (λ e, is_mutation_call e = true)). }
  split_and!; try done.
  - unfold mutation_calls. rewrite !filter_app, Hfw.
    fold (mutation_calls probes). rewrite (probes_no_mutation _ Hprobes).
    simpl. by rewrite !app_nil_r.
  - assert (notifications writes = []) as Hnw.
    { apply (filter_none _ (λ e, is_mutation_call e = true)); [|done].
      intros [] ?; done. }
    rewrite !notifications_app, Hnw, (probes_no_notification _ Hprobes).
    by rewrite app_nil_r.
  - assert (criticals writes = []) as Hcw.
    { apply (filter_none _ (λ e, is_mutation_call e = true)); [|done].
      intros [] ?; done. }
    rewrite !criticals_app, Hcw, (probes_no_critical _ Hprobes).
    by rewrite app_nil_r.
  - rewrite !Exists_app. intros [[?|Hn]|Hp]; [done| |].
    + apply Exists_cons in Hn as [Hn|Hn]; [done|]. by apply Exists_nil in Hn.
    + by apply probes_not_failed in Hp.
Qed.

(** ** The four mutation operations *)

Lemma enable_proxy_without_ip E s :
  proxy_selection s !! "ip" = None → _enable_proxy E s = (Raise (KeyError "ip"), s).
Proof. intros H. unfold _enable_proxy, bind, get, getitem. simpl. by rewrite H. Qed.

Lemma enable_proxy_shape E s ip :
  proxy_selection s !! "ip" = Some ip →
  action_shape E (_enable_proxy E) s (planned_writes (proxy_selection s)) "Proxy Error".
Proof.
  intros Hip. unfold action_shape, planned_writes. rewrite Hip.
  assert (_enable_proxy E s =
          (try_except
             (for_each
                (proxy_settings (proxy_url ip (dict_get (proxy_selection s) "user" "")
                                   (dict_get (proxy_selection s) "password" "")))
                (λ kv, subprocess_run E (kwriteconfig6 (fst kv) (snd kv)) 5 true ;;; ret tt) ;;;
              (let* sel' := get proxy_selection in
               let* name := getitem sel' "name" in
               _notify "Proxy ON"
                 ("System proxy → " +:+ name +:+ " (" +:+ ip +:+ ":" +:+ PROXY_PORT +:+ ")")
                 "normal"))
             (λ exc, _notify "Proxy Error" (exn_str E exc) "critical") ;;;
           _refresh E) s) as ->.
  { unfold _enable_proxy. unfold bind at 1, get at 1. unfold bind at 1, getitem at 1.
    by rewrite Hip. }
  apply (guarded_action_shape E _ _ "Proxy Error" _ s); [apply for_each_writes|].
  intros s0. unfold bind, get, getitem. simpl.
  destruct (proxy_selection s0 !! "name"); simpl; eauto.
Qed.

Lemma disable_proxy_shape E s :
  action_shape E (_disable_proxy E) s [kwriteconfig6 "ProxyType" "0"] "Proxy Error".
Proof.
  apply (guarded_action_shape E _ _ "Proxy Error" _ s).
  - by apply single_checked_call.
  - intros s0. left. by eexists _, _.
Qed.

Lemma enable_redsocks_without_ip E s :
  redsocks_selection s !! "ip" = None → _enable_redsocks E s = (Raise (KeyError "ip"), s).
Proof. intros H. unfold _enable_redsocks, bind, get, getitem. simpl. by rewrite H. Qed.

Lemma enable_redsocks_shape E s ip :
  redsocks_selection s !! "ip" = Some ip →
  action_shape E (_enable_redsocks E) s [pkexec_enable ip] "Redsocks Error".
Proof.
  intros Hip. unfold action_shape.
  assert (_enable_redsocks E s =
          (try_except
             (subprocess_run E (pkexec_enable ip) 30 true ;;;
              (let* sel' := get redsocks_selection in
               let* name := getitem sel' "name" in
               _notify "Redsocks ON"
                 ("Transparent proxy via " +:+ name +:+ " (" +:+ ip +:+ ")") "normal"))
             (λ exc, _notify "Redsocks Error" (exn_str E exc) "critical") ;;;
           _refresh E) s) as ->.
  { unfold _enable_redsocks. unfold bind at 1, get at 1. unfold bind at 1, getitem at 1.
    by rewrite Hip. }
  apply (guarded_action_shape E _ _ "Redsocks Error" _ s).
  - by apply single_checked_call.
  - intros s0. unfold bind, get, getitem. simpl.
    destruct (redsocks_selection s0 !! "name"); simpl; eauto.
Qed.

Lemma disable_redsocks_shape E s :
  action_shape E (_disable_redsocks E) s [pkexec_disable] "Redsocks Error".
Proof.
  apply (guarded_action_shape E _ _ "Redsocks Error" _ s).
  - by apply single_checked_call.
  - intros s0. left. by eexists _, _.
Qed.

(** A mutation either raises before doing anything (the selection has no
    address) or has the shape of a guarded action. *)
Lemma mutation_shape E (it : menu_item) (s : state) :
  is_mutation it = true →
  (∃ e, callback E it s = (Raise e, s))
  ∨ ∃ planned err_title, action_shape E (callback E it) s planned err_title.
Proof.
  intros Hit. destruct it; try done; simpl.
  - destruct (proxy_selection s !! "ip") as [ip|] eqn:Hip.
    + right. eexists _, _. by eapply enable_proxy_shape.
    + left. eexists. by apply enable_proxy_without_ip.
  - right. eexists _, _. apply disable_proxy_shape.
  - destruct (redsocks_selection s !! "ip") as [ip|] eqn:Hip.
    + right. eexists _, _. by eapply enable_redsocks_shape.
    + left. eexists. by apply enable_redsocks_without_ip.
  - right. eexists _, _. apply disable_redsocks_shape.
Qed.

Lemma not_failed_anywhere (tr : list event) :
  Forall (λ e, is_failed_mutation e = false) tr → ¬ Exists is_failed_mutation tr.
Proof.
  intros Hall Hex. apply Exists_exists in Hex as (e & Hin & Hfail).
  rewrite Forall_forall in Hall. by rewrite (Hall e Hin) in Hfail.
Qed.

Lemma new_events_same (s : state) : new_events s s = [].
Proof. unfold new_events. by rewrite drop_all. Qed.

(** ** Frame: what leaves the selections alone *)

Ltac quiet_step :=
  cbv beta;
  lazymatch goal with
  | |- quiet _ (bind _ _) => apply quiet_bind; [|intros ?]
  | |- quiet _ (try_except _ _) => apply quiet_try_except; [|intros ?]
  | |- quiet _ (ret _) => apply quiet_ret
  | |- quiet _ (raise _) => apply quiet_raise
  | |- quiet _ (get _) => apply quiet_get
  | |- quiet _ (getitem _ _) => apply quiet_getitem
  | |- quiet _ (subprocess_run _ _ _ _) => apply quiet_subprocess_run; intros; exact I
  | |- quiet _ (_notify _ _ _) => apply quiet_record_event; exact I
  | |- quiet _ (_load_proxies _) => apply quiet_load_proxies
  | |- quiet _ (_refresh _) =>
      apply (quiet_weaken is_probe); [intros; exact I | apply quiet_refresh]
  | |- quiet _ (for_each _ _) => apply quiet_for_each; intros ?
  | |- quiet _ (if ?b then _ else _) => destruct b
  | |- quiet _ (match ?x with _ => _ end) => destruct x
  end.

Lemma quiet_radiolist_entries proxies cur args :
  quiet any_event (radiolist_entries proxies cur args).
Proof.
  revert args. induction proxies as [|p rest IH]; intros args; simpl.
  - apply quiet_ret.
  - repeat quiet_step. apply IH.
Qed.

Lemma quiet_find_choice proxies choice : quiet any_event (find_choice proxies choice).
Proof.
  induction proxies as [|p rest IH]; simpl.
  - apply quiet_ret.
  - quiet_step; [quiet_step|]. cbv beta. destruct (String.eqb _ choice); [apply quiet_ret|apply IH].
Qed.

Lemma quiet_pick_proxy E title cur : quiet any_event (_pick_proxy E title cur).
Proof.
  unfold _pick_proxy. quiet_step; [quiet_step|]. quiet_step.
  - repeat quiet_step.
  - quiet_step; [apply quiet_radiolist_entries|].
    quiet_step; [|repeat quiet_step].
    quiet_step; [quiet_step|]. quiet_step; [quiet_step|].
    quiet_step; [|apply quiet_find_choice].
    repeat quiet_step.
Qed.

Lemma quiet_mutation E (it : menu_item) : is_mutation it = true → quiet any_event (callback E it).
Proof.
  intros Hit. destruct it; try done; simpl.
  - unfold _enable_proxy. repeat quiet_step.
  - unfold _disable_proxy. repeat quiet_step.
  - unfold _enable_redsocks. repeat quiet_step.
  - unfold _disable_redsocks. repeat quiet_step.
Qed.

Lemma quiet_quit E : quiet any_event (callback E Quit).
Proof. simpl. unfold _quit. quiet_step; by apply quiet_modify. Qed.

Lemma quiet_monitor E (fuel : nat) : quiet is_poll (_monitor E fuel).
Proof.
  induction fuel as [|fuel IH]; simpl.
  - apply quiet_ret.
  - apply quiet_bind; [apply quiet_get|]. intros [|]; [|apply quiet_ret].
    apply quiet_bind; [by apply quiet_record_event|]. intros _.
    apply quiet_bind; [|by intros _].
    apply quiet_try_except; [|intros; apply quiet_ret].
    apply (quiet_weaken is_probe); [|apply quiet_refresh]. by intros [].
Qed.

Lemma quiet_selections {P A} (m : M A) (s : state) :
  quiet P m → selections (exec m s) = selections s.
Proof. intros Hm. by destruct (Hm s) as (? & ? & _). Qed.

(** ** The picker *)

Lemma catalog_load E s proxies :
  catalog E s = Ok proxies → _load_proxies E s = (Ok proxies, s).
Proof. unfold catalog. rewrite load_proxies_eq. simpl. by intros [= <-]. Qed.

Lemma radiolist_entries_state proxies cur args s r s' :
  radiolist_entries proxies cur args s = (r, s') → s' = s.
Proof.
  revert args. induction proxies as [|p rest IH]; intros args; simpl.
  - by intros [= _ <-].
  - unfold bind at 1, getitem at 1. destruct (p !! "ip") as [tag|]; [|by intros [= _ <-]].
    unfold ret at 1. unfold bind at 1, getitem at 1.
    destruct (p !! "name") as [name|]; [|by intros [= _ <-]].
    unfold ret at 1. unfold bind at 1, getitem at 1.
    destruct (cur !! "ip") as [c|]; [|by intros [= _ <-]].
    unfold ret at 1. apply IH.
Qed.

Lemma radiolist_entries_ok proxies cur args s r s' :
  radiolist_entries proxies cur args s = (Ok r, s') →
  Forall (λ p, is_Some (p !! "ip") ∧ is_Some (p !! "name")) proxies.
Proof.
  revert args. induction proxies as [|p rest IH]; intros args; simpl; [done|].
  unfold bind at 1, getitem at 1. destruct (p !! "ip") as [tag|] eqn:Htag; [|done].
  unfold ret at 1. unfold bind at 1, getitem at 1.
  destruct (p !! "name") as [name|] eqn:Hname; [|done].
  unfold ret at 1. unfold bind at 1, getitem at 1.
  destruct (cur !! "ip") as [c|]; [|done].
  unfold ret at 1. intros H. constructor; [|by eapply IH].
  rewrite Htag, Hname. by split; eexists.
Qed.

Lemma radiolist_argv_entries title cur proxies s argv :
  radiolist_argv title cur proxies s = Ok argv →
  ∃ args, radiolist_entries proxies cur (radiolist_head title) s = (Ok args, s)
          ∧ argv = (args ++ radiolist_custom)%list.
Proof.
  unfold radiolist_argv.
  destruct (radiolist_entries proxies cur (radiolist_head title) s) as [[args|e] s'] eqn:Hent;
    [|done].
  intros [= <-]. apply radiolist_entries_state in Hent as Hs. subst s'. eauto.
Qed.

Lemma find_choice_none proxies choice s :
  Forall (λ p, is_Some (p !! "ip") ∧ is_Some (p !! "name")) proxies →
  (∀ p, p ∈ proxies → p !! "ip" ≠ Some choice) →
  find_choice proxies choice s = (Ok None, s).
Proof.
  induction 1 as [|p rest [[ip Hip] _] _ IH]; intros Hno; simpl; [done|].
  unfold bind, getitem. rewrite Hip. simpl.
  destruct (String.eqb_spec ip choice) as [->|Hne].
  - destruct (Hno p); [by left | done].
  - apply IH. intros q Hq. apply Hno. by right.
Qed.

Lemma find_choice_some proxies choice s p s' :
  find_choice proxies choice s = (Ok (Some p), s') →
  p ∈ proxies ∧ p !! "ip" = Some choice.
Proof.
  induction proxies as [|q rest IH]; simpl; [done|].
  unfold bind at 1, getitem at 1. destruct (q !! "ip") as [ip|] eqn:Hip; [|done].
  unfold ret at 1. destruct (String.eqb_spec ip choice) as [->|Hne].
  - intros [= <- _]. split; [by left | done].
  - intros H. destruct (IH H) as [Hin Hp]. split; [by right | done].
Qed.

(** Past the catalog and the command line, the picker is the guarded
    dialogue. *)
Lemma pick_proxy_dialogue E title cur s proxies argv :
  catalog E s = Ok proxies → proxies ≠ [] →
  radiolist_argv title cur proxies s = Ok argv →
  _pick_proxy E title cur s =
  try_except
    (let* r := subprocess_run E argv 120 false in
     if negb (fst r =? 0)%Z then ret None
     else
       let choice := Py.strip (snd r) in
       if String.eqb choice "__custom__" then
         let* ip := getitem cur "ip" in
         let* r2 := subprocess_run E (inputbox ip) 120 false in
         if negb (fst r2 =? 0)%Z || negb (Py.truthy (Py.strip (snd r2)))
         then ret None
         else ret (Some (make_record "Custom" (Py.strip (snd r2)) "edcguest" "edcguest"))
       else find_choice proxies choice)
    (λ exc, _notify "Error" (exn_str E exc) "critical" ;;; ret None) s.
Proof.
  intros Hcat Hne Hargv. apply catalog_load in Hcat.
  apply radiolist_argv_entries in Hargv as (args & Hent & ->).
  unfold _pick_proxy. rewrite (bind_ok _ _ _ _ _ Hcat).
  destruct proxies as [|p rest]; [done|].
  by rewrite (bind_ok _ _ _ _ _ Hent).
Qed.

Lemma pick_cancelled E title cur s :
  cancelled E title cur s →
  ∃ s1 pre, _pick_proxy E title cur s = (Ok None, s1)
            ∧ log s1 = (log s ++ pre)%list
            ∧ Forall is_spawn pre
            ∧ selections s1 = selections s.
Proof.
  intros [proxies argv rc out Hcat Hne Hargv Hrun Hrc
         |proxies argv out ip rc2 out2 Hcat Hne Hargv Hrun Hcustom Hip Hrun2 Hcancel];
    rewrite (pick_proxy_dialogue E title cur s proxies argv Hcat Hne Hargv);
    unfold try_except, bind; rewrite subprocess_run_eq, Hrun; simpl.
  - destruct (Z.eqb_spec rc 0) as [?|_]; [done|]. simpl.
    eexists _, [_]. split_and!; [done|done|by repeat constructor|done].
  - rewrite Hcustom. simpl. unfold getitem. rewrite Hip. simpl.
    rewrite subprocess_run_eq. simpl. rewrite Hrun2. simpl.
    assert (negb (rc2 =? 0)%Z || negb (Py.truthy (Py.strip out2)) = true) as ->.
    { destruct Hcancel as [Hrc2| ->]; [|by rewrite orb_true_r].
      by destruct (Z.eqb_spec rc2 0). }
    simpl. eexists _, _.
    split_and!; [done | simpl; by rewrite <- app_assoc | simpl; by repeat constructor | done].
Qed.

Lemma pick_unmatched E title cur s :
  unmatched_tag E title cur s →
  ∃ s1 pre, _pick_proxy E title cur s = (Ok None, s1)
            ∧ log s1 = (log s ++ pre)%list
            ∧ Forall is_spawn pre
            ∧ selections s1 = selections s.
Proof.
  intros [proxies argv out Hcat Hne Hargv Hrun Hcustom Hnomatch].
  rewrite (pick_proxy_dialogue E title cur s proxies argv Hcat Hne Hargv).
  apply radiolist_argv_entries in Hargv as (args & Hent & _).
  apply radiolist_entries_ok in Hent.
  unfold try_except, bind. rewrite subprocess_run_eq, Hrun. simpl.
  apply String.eqb_neq in Hcustom. rewrite Hcustom.
  rewrite (find_choice_none _ _ _ Hent Hnomatch).
  eexists _, [_]. split_and!; [done|done|by repeat constructor|done].
Qed.

(** A picker that returns nothing leaves the change action with its
    refresh only. *)
Lemma change_without_pick E (sub : subsystem) (s s1 : state) (pre : list event) :
  _pick_proxy E (picker_title sub) (selection_of sub s) s = (Ok None, s1) →
  log s1 = (log s ++ pre)%list →
  Forall is_spawn pre →
  selections s1 = selections s →
  selections (exec (change E sub) s) = selections s
  ∧ notifications (new_events s (exec (change E sub) s)) = [].
Proof.
  intros Hpick Hlog Hpre Hsel.
  assert (change E sub s = _refresh E s1) as Hrun.
  { destruct sub; simpl in *.
    - unfold _change_proxy. unfold bind at 1, get at 1. by rewrite (bind_ok _ _ _ _ _ Hpick).
    - unfold _change_redsocks_proxy. unfold bind at 1, get at 1.
      by rewrite (bind_ok _ _ _ _ _ Hpick). }
  destruct (after_refresh E s s1 pre Hlog Hsel) as (probes & Hprobes & Htr & Hsel').
  unfold exec. rewrite Hrun. fold (exec (_refresh E) s1). split; [done|].
  rewrite Htr, notifications_app, (probes_no_notification _ Hprobes), app_nil_r.
  apply (filter_none _ is_spawn); [apply spawn_not_notification | done].
Qed.

Lemma make_record_ip (name ip user password : string) :
  make_record name ip user password !! "ip" = Some ip.
Proof. unfold make_record. rewrite lookup_insert_ne by done. apply lookup_insert_eq. Qed.

(** A record the picker returns has an address, hence is not empty. *)
Lemma pick_proxy_some E title cur s res s1 :
  _pick_proxy E title cur s = (Ok (Some res), s1) → is_Some (res !! "ip").
Proof.
  unfold _pick_proxy. unfold bind at 1. rewrite load_proxies_eq.
  destruct (match read_json E (log s) with
            | inr (JsonList (first :: others)) => first :: others
            | _ => txt_loop 1 (fst (read_txt E (log s))) []
            end) as [|p rest]; [done|].
  unfold bind at 1.
  destruct (radiolist_entries (p :: rest) cur (radiolist_head title) s) as [[args|e] s'];
    [|done].
  unfold try_except, bind at 1. rewrite subprocess_run_eq.
  destruct (spawn E (log s') (args ++ radiolist_custom)) as [rc out|d]; [|done].
  cbn -[find_choice Py.strip]. destruct (rc =? 0)%Z; [|done].
  cbn -[find_choice Py.strip].
  destruct (String.eqb (Py.strip out) "__custom__").
  - unfold bind at 1, getitem. destruct (cur !! "ip") as [ip|]; [|done].
    unfold ret at 1, bind at 1. rewrite subprocess_run_eq.
    destruct (spawn E _ (inputbox ip)) as [rc2 out2|d2]; [|done].
    simpl. destruct (negb (rc2 =? 0)%Z || negb (Py.truthy (Py.strip out2))); [done|].
    intros [= <- _]. rewrite make_record_ip. by eexists.
  - match goal with |- context [find_choice ?l ?c ?s0] =>
      destruct (find_choice l c s0) as [[[q|]|e] s2] eqn:Hfind end; [|done..].
    intros [= <- _]. apply find_choice_some in Hfind as [_ ->]. by eexists.
Qed.

Lemma truthy_record_with_ip (res : record) : is_Some (res !! "ip") → truthy_record res = true.
Proof.
  intros [ip Hip]. unfold truthy_record. rewrite bool_decide_false; [done|].
  intros ->. by rewrite lookup_empty in Hip.
Qed.

(** A picker that returns a record makes the change action install it for
    its own subsystem, and for that one only. *)
Lemma change_with_pick E (sub : subsystem) (s s1 : state) (res : record) :
  _pick_proxy E (picker_title sub) (selection_of sub s) s = (Ok (Some res), s1) →
  selection_of sub (exec (change E sub) s) = res
  ∧ selection_of (other sub) (exec (change E sub) s) = selection_of (other sub) s.
Proof.
  intros Hpick.
  pose proof (quiet_selections _ s (quiet_pick_proxy E (picker_title sub) (selection_of sub s)))
    as Hsel.
  unfold exec in Hsel. rewrite Hpick in Hsel. simpl in Hsel.
  pose proof (truthy_record_with_ip _ (pick_proxy_some _ _ _ _ _ _ Hpick)) as Htruthy.
  destruct sub; simpl in *.
  - assert (∃ rest : M unit, quiet any_event rest
                             ∧ _change_proxy E s = rest (set_proxy_selection res s1))
      as (rest & Hq & Hrun).
    { eexists. split; [|unfold _change_proxy; unfold bind at 1, get at 1;
                        rewrite (bind_ok _ _ _ _ _ Hpick), Htruthy; reflexivity].
      repeat quiet_step. }
    pose proof (quiet_selections _ (set_proxy_selection res s1) Hq) as Hrest.
    unfold exec in *. rewrite Hrun. unfold selections in *. simpl in *.
    split; congruence.
  - assert (∃ rest : M unit, quiet any_event rest
                             ∧ _change_redsocks_proxy E s = rest (set_redsocks_selection res s1))
      as (rest & Hq & Hrun).
    { eexists. split; [|unfold _change_redsocks_proxy; unfold bind at 1, get at 1;
                        rewrite (bind_ok _ _ _ _ _ Hpick), Htruthy; reflexivity].
      repeat quiet_step. }
    pose proof (quiet_selections _ (set_redsocks_selection res s1) Hq) as Hrest.
    unfold exec in *. rewrite Hrun. unfold selections in *. simpl in *.
    split; congruence.
Qed.

(** A picker that returns no record, or raises, leaves both selections. *)
Lemma change_without_record E (sub : subsystem) (s s1 : state) (r : result (option record)) :
  _pick_proxy E (picker_title sub) (selection_of sub s) s = (r, s1) →
  (∀ res, r ≠ Ok (Some res)) →
  selections (exec (change E sub) s) = selections s.
Proof.
  intros Hpick Hnone.
  pose proof (quiet_selections _ s (quiet_pick_proxy E (picker_title sub) (selection_of sub s)))
    as Hsel.
  unfold exec in Hsel. rewrite Hpick in Hsel. simpl in Hsel.
  pose proof (quiet_selections _ s1 (quiet_refresh E)) as Href. unfold exec in Href.
  destruct r as [[res|]|e]; [by destruct (Hnone res)|..].
  - destruct sub; simpl in *; unfold exec.
    + unfold _change_proxy. unfold bind at 1, get at 1.
      rewrite (bind_ok _ _ _ _ _ Hpick). congruence.
    + unfold _change_redsocks_proxy. unfold bind at 1, get at 1.
      rewrite (bind_ok _ _ _ _ _ Hpick). congruence.
  - destruct sub; simpl in *; unfold exec.
    + unfold _change_proxy. unfold bind at 1, get at 1.
      by rewrite (bind_raise _ _ _ _ _ Hpick).
    + unfold _change_redsocks_proxy. unfold bind at 1, get at 1.
      by rewrite (bind_raise _ _ _ _ _ Hpick).
Qed.

Lemma quiet_activity E (a : activity) : not_a_picker a → quiet any_event (perform E a).
Proof.
  intros [Hp Hr]. destruct a as [|it|]; simpl.
  - unfold proxy_label, redsocks_label.
    assert (quiet any_event (is_proxy_on E)) as Hpo
      by (apply (quiet_weaken is_probe); [done | apply quiet_is_proxy_on]).
    assert (quiet any_event (is_redsocks_on E)) as Hro
      by (apply (quiet_weaken is_probe); [done | apply quiet_is_redsocks_on]).
    apply quiet_bind; [|intros _; apply quiet_bind; [|intros; apply quiet_ret]].
    + apply quiet_bind; [done|]. intros on. repeat quiet_step.
    + apply quiet_bind; [done|]. intros on. repeat quiet_step.
  - destruct it; try done; try (by apply quiet_mutation). apply quiet_quit.
  - apply (quiet_weaken is_poll); [done|]. apply (quiet_monitor E 1).
Qed.

Lemma quiet_run E : quiet any_event (run E).
Proof.
  assert (quiet any_event (is_proxy_on E)) as Hpo
    by (apply (quiet_weaken is_probe); [done | apply quiet_is_proxy_on]).
  assert (quiet any_event (is_redsocks_on E)) as Hro
    by (apply (quiet_weaken is_probe); [done | apply quiet_is_redsocks_on]).
  unfold run.
  apply quiet_bind; [apply (quiet_weaken is_probe); [done | apply quiet_render_icon]|].
  intros img.
  apply quiet_bind; [apply (quiet_weaken is_probe); [done | apply quiet_tooltip]|].
  intros tip.
  apply quiet_bind; [by apply quiet_modify|]. intros _.
  apply quiet_bind; [by apply quiet_modify|]. intros _.
  unfold on_setup.
  apply quiet_bind; [by apply quiet_modify|]. intros _.
  apply quiet_bind; [done|]. intros p.
  apply quiet_bind; [done|]. intros r.
  repeat quiet_step.
Qed.

(** ** Calls as the environment answers them *)

Lemma answers_length E (tr : list event) (t : nat) (plan : list (list string)) :
  length (answers E tr t plan) = length plan.
Proof. revert tr. induction plan as [|argv rest IH]; intros tr; simpl; [done|]. by rewrite IH. Qed.

Lemma answers_mutation E (tr : list event) (t : nat) (plan : list (list string)) :
  (∀ argv o, argv ∈ plan → is_mutation_call (Spawn argv t o) = true) →
  Forall (λ e, is_mutation_call e = true) (answers E tr t plan).
Proof.
  revert tr. induction plan as [|argv rest IH]; intros tr Hplan; simpl; [done|].
  constructor.
  - apply Hplan. by left.
  - apply IH. intros a o Ha. apply Hplan. by right.
Qed.

Lemma for_each_answered E (settings : list (string * string)) (s : state) :
  answered_calls E
    (for_each settings
       (λ kv, subprocess_run E (kwriteconfig6 (fst kv) (snd kv)) 5 true ;;; ret tt))
    5 (map (λ kv, kwriteconfig6 (fst kv) (snd kv)) settings) s.
Proof.
  unfold answered_calls. revert s. induction settings as [|[key val] rest IH]; intros s.
  - exists []. simpl. by rewrite app_nil_r.
  - cbn [for_each fst snd map answers].
    pose (o := spawn E (log s) (kwriteconfig6 key val)).
    pose (w := Spawn (kwriteconfig6 key val) 5 o).
    destruct (subprocess_run_checked E (kwriteconfig6 key val) 5 s)
      as [[Hok [v Hrun]]|[Hfail [e Hrun]]]; fold o in Hok || fold o in Hfail;
      fold o in Hrun; fold w in Hrun.
    + assert (bind (subprocess_run E (kwriteconfig6 key val) 5 true) (λ _, ret tt) s
              = (Ok tt, record_event w s)) as Hstep
        by (by rewrite (bind_ok _ _ _ _ _ Hrun)).
      unfold exec. rewrite (bind_ok _ _ _ _ _ Hstep).
      destruct (IH (record_event w s)) as (writes & Hlog & Hsel & Hans & Hres).
      unfold exec in *. exists (w :: writes). split_and!.
      * rewrite Hlog. simpl. by rewrite <- app_assoc.
      * rewrite Hsel. done.
      * simpl in Hans. simpl. fold o. fold w. by f_equal.
      * destruct (fst _) as [[]|exc].
        -- destruct Hres as [Hlen Hall]. split; [simpl; by rewrite Hlen|].
           by constructor.
        -- destruct Hres as (ws & wl & -> & Hall & Hwl).
           exists (w :: ws), wl. split_and!; [done| |done]. by constructor.
    + assert (bind (subprocess_run E (kwriteconfig6 key val) 5 true) (λ _, ret tt) s
              = (Raise e, record_event w s)) as Hstep
        by (by rewrite (bind_raise _ _ _ _ _ Hrun)).
      unfold exec. rewrite (bind_raise _ _ _ _ _ Hstep).
      exists [w]. split_and!; [done|done|done|].
      exists [], w. by split_and!.
Qed.

Lemma single_call_answered E (argv : list string) (t : nat) (s : state) :
  answered_calls E (subprocess_run E argv t true) t [argv] s.
Proof.
  pose (o := spawn E (log s) argv).
  exists [Spawn argv t o]. unfold exec.
  destruct (subprocess_run_checked E argv t s) as [[Hok [v Hrun]]|[Hfail [e Hrun]]];
    fold o in Hok || fold o in Hfail; fold o in Hrun; rewrite Hrun; simpl.
  - split_and!; [done|done|done|done|]. by repeat constructor.
  - split_and!; [done|done|done|]. by exists [], (Spawn argv t o).
Qed.

Lemma guarded_action_answered E {A} (calls : M A) (after : M unit)
    (err_title : string) (t : nat) (plan : list (list string)) (s : state) :
  answered_calls E calls t plan s →
  reports_or_raises after →
  action_answered E
    (try_except (calls ;;; after) (λ exc, _notify err_title (exn_str E exc) "critical") ;;;
     _refresh E)
    s t plan err_title.
Proof.
  intros (writes & Hlog & Hsel & Hans & Hres) Hafter.
  unfold exec in *. destruct (calls s) as [[a|e] s1] eqn:Hcalls; simpl in *.
  - destruct Hres as [Hlen Hall].
    destruct (Hafter s1) as [(title & body & Hrep)|[e Hraise]].
    + exists (record_event (Notify title body "normal") s1), writes, [Notify title body "normal"].
      split_and!; [|simpl; by rewrite Hlog, <- app_assoc|done|done|left; eauto 10].
      erewrite bind_ok; [done|]. apply try_ok. by rewrite (bind_ok _ _ _ _ _ Hcalls).
    + exists (record_event (Notify err_title (exn_str E e) "critical") s1), writes,
             [Notify err_title (exn_str E e) "critical"].
      split_and!; [|simpl; by rewrite Hlog, <- app_assoc|done|done|left; eauto 10].
      erewrite bind_ok; [done|]. erewrite try_raise; [done|].
      by rewrite (bind_ok _ _ _ _ _ Hcalls).
  - exists (record_event (Notify err_title (exn_str E e) "critical") s1), writes,
           [Notify err_title (exn_str E e) "critical"].
    split_and!; [|simpl; by rewrite Hlog, <- app_assoc|done|done|].
    + erewrite bind_ok; [done|]. erewrite try_raise; [done|].
      by rewrite (bind_raise _ _ _ _ _ Hcalls).
    + right. destruct Hres as (ws & w & -> & Hall & Hw). eauto 10.
Qed.

(** A mutation that finds its address makes the calls of its plan as the
    environment answers them. *)
Lemma mutation_answered E (it : menu_item) (s : state) :
  is_mutation it = true →
  (∀ sel, enabled_selection it s = Some sel → is_Some (sel !! "ip")) →
  action_answered E (callback E it) s (call_timeout it) (planned_calls it s)
    (error_title it).
Proof.
  intros Hit Hip. destruct it; try done; simpl.
  - destruct (Hip _ eq_refl) as [ip Hsel]. clear Hip.
    unfold action_answered, planned_writes. rewrite Hsel.
    assert (_enable_proxy E s =
            (try_except
               (for_each
                  (proxy_settings (proxy_url ip (dict_get (proxy_selection s) "user" "")
                                     (dict_get (proxy_selection s) "password" "")))
                  (λ kv, subprocess_run E (kwriteconfig6 (fst kv) (snd kv)) 5 true ;;; ret tt) ;;;
                (let* sel' := get proxy_selection in
                 let* name := getitem sel' "name" in
                 _notify "Proxy ON"
                   ("System proxy → " +:+ name +:+ " (" +:+ ip +:+ ":" +:+ PROXY_PORT +:+ ")")
                   "normal"))
               (λ exc, _notify "Proxy Error" (exn_str E exc) "critical") ;;;
             _refresh E) s) as ->.
    { unfold _enable_proxy. unfold bind at 1, get at 1. unfold bind at 1, getitem at 1.
      by rewrite Hsel. }
    apply (guarded_action_answered E _ _ "Proxy Error" 5 _ s); [apply for_each_answered|].
    intros s0. unfold bind, get, getitem. simpl.
    destruct (proxy_selection s0 !! "name"); simpl; eauto.
  - apply (guarded_action_answered E _ _ "Proxy Error" 5 _ s).
    + apply single_call_answered.
    + intros s0. left. by eexists _, _.
  - destruct (Hip _ eq_refl) as [ip Hsel]. clear Hip.
    unfold action_answered. rewrite Hsel.
    assert (_enable_redsocks E s =
            (try_except
               (subprocess_run E (pkexec_enable ip) 30 true ;;;
                (let* sel' := get redsocks_selection in
                 let* name := getitem sel' "name" in
                 _notify "Redsocks ON"
                   ("Transparent proxy via " +:+ name +:+ " (" +:+ ip +:+ ")") "normal"))
               (λ exc, _notify "Redsocks Error" (exn_str E exc) "critical") ;;;
             _refresh E) s) as ->.
    { unfold _enable_redsocks. unfold bind at 1, get at 1. unfold bind at 1, getitem at 1.
      by rewrite Hsel. }
    apply (guarded_action_answered E _ _ "Redsocks Error" 30 _ s).
    + apply single_call_answered.
    + intros s0. unfold bind, get, getitem. simpl.
      destruct (redsocks_selection s0 !! "name"); simpl; eauto.
  - apply (guarded_action_answered E _ _ "Redsocks Error" 30 _ s).
    + apply single_call_answered.
    + intros s0. left. by eexists _, _.
Qed.

Lemma planned_calls_mutation (it : menu_item) (s : state) (argv : list string)
    (t : nat) (o : proc_outcome) :
  argv ∈ planned_calls it s → is_mutation_call (Spawn argv t o) = true.
Proof.
  destruct it; simpl; intros Hin.
  all: repeat (apply elem_of_cons in Hin as [->|Hin]; [done|]).
  all: by apply elem_of_nil in Hin.
Qed.

Lemma none_failed (tr : list event) :
  Forall (λ e, call_failed e = false) tr → ¬ Exists call_failed tr.
Proof.
  intros Hall Hex. apply Exists_exists in Hex as (e & Hin & Hfail).
  rewrite Forall_forall in Hall. by rewrite (Hall e Hin) in Hfail.
Qed.

(** What an action that follows its plan leaves in the log. *)
Lemma action_answered_observed E (m : M unit) (s : state) (t : nat)
    (plan : list (list string)) (err_title : string) :
  (∀ argv o, argv ∈ plan → is_mutation_call (Spawn argv t o) = true) →
  action_answered E m s t plan err_title →
  ∃ s1 writes tail,
    m s = _refresh E s1
    ∧ log s1 = (log s ++ writes ++ tail)%list
    ∧ mutation_calls (new_events s (exec m s)) = writes
    ∧ criticals (new_events s (exec m s)) = criticals tail
    ∧ selections (exec m s) = selections s
    ∧ writes = take (length writes) (answers E (log s) t plan)
    ∧ ((length writes = length plan
        ∧ Forall (λ e, call_failed e = false) writes
        ∧ ∃ title body urgency, tail = [Notify title body urgency])
       ∨ (∃ ws w body,
            writes = (ws ++ [w])%list
            ∧ Forall (λ e, call_failed e = false) ws
            ∧ call_failed w = true
            ∧ tail = [Notify err_title body "critical"])).
Proof.
  intros Hplan (s1 & writes & tail & Hrun & Hlog & Hsel & Hans & Hcases).
  destruct (after_refresh E s s1 (writes ++ tail) Hlog Hsel) as (probes & Hprobes & Htr & Hsel').
  exists s1, writes, tail. unfold exec. rewrite Hrun. fold (exec (_refresh E) s1).
  rewrite Htr.
  assert (∃ title body urgency, tail = [Notify title body urgency])
    as (title & body & urgency & ->).
  { destruct Hcases as [(_ & _ & ?)|(? & ? & ? & _ & _ & _ & ->)]; eauto. }
  assert (Forall (λ e, is_mutation_call e = true) writes) as Hmut.
  { rewrite Hans. apply Forall_take. by apply answers_mutation. }
  assert (filter is_mutation_call writes = writes) as Hfw.
  { by apply (filter_all _ (λ e, is_mutation_call e = true)). }
  split_and!; try done.
  - unfold mutation_calls. rewrite !filter_app, Hfw.
    fold (mutation_calls probes). rewrite (probes_no_mutation _ Hprobes).
    simpl. by rewrite !app_nil_r.
  - assert (criticals writes = []) as Hcw.
    { apply (filter_none _ (λ e, is_mutation_call e = true)); [|done].
      intros [] ?; done. }
    rewrite !criticals_app, Hcw, (probes_no_critical _ Hprobes).
    by rewrite app_nil_r.
Qed.
(** * Text *)

(** [Py.strip], which works on the bytes of a text, is [str.strip] on its
    characters: stripping the encoding of a list of code points gives the
    encoding of the list without the white space at its two ends. *)
Theorem strip_encode (l : list N) :
  Forall Py.code_point l → Py.strip (Py.encode l) = Py.encode (Py.strip_chars l).
Proof.
  intros Hl. unfold Py.strip, Py.rstrip, Py.strip_chars.
  rewrite lstrip_encode by done.
  rewrite <- (reverse_involutive (Py.lstrip_chars l)) at 1.
  rewrite strip_back_encode by (by apply Forall_reverse, lstrip_chars_valid).
  by rewrite rev_rev.
Qed.

(** A no-break space, an em space and an ideographic space are stripped
    like a blank; an accented letter and a zero-width space, which is no
    white space, are kept. *)
Example strip_unicode_spaces :
  Py.strip (Py.encode [49; 160]%N) = "1"
  ∧ Py.strip (Py.encode [160]%N) = ""
  ∧ Py.strip (Py.encode [8195; 49; 48; 12288; 10]%N) = "10"
  ∧ Py.strip (Py.encode [32; 233; 32]%N) = Py.encode [233]%N
  ∧ Py.strip (Py.encode [8203; 49; 133]%N) = Py.encode [8203; 49]%N.
Proof. vm_compute. done. Qed.

(** In a world with no-break spaces: the configuration read that prints 1
    and a no-break space reads as on; the line of [proxy.txt] that holds
    only a no-break space gives no record and the address followed by one
    is taken without it; a custom address made of a no-break space is no
    address, and the picker returns nothing. *)
Example no_break_spaces_are_stripped :
  fst (is_proxy_on nbsp_world sample_state) = Ok true
  ∧ fst (_load_proxies nbsp_world sample_state)
    = Ok [make_record "Proxy 2" "10.1.1.2" "edcguest" "edcguest"]
  ∧ fst (_pick_proxy nbsp_world "Select System Proxy" record_A sample_state) = Ok None.
Proof. vm_compute. done. Qed.


(** * The catalog and the initial selection *)

(** C6. The loader never raises and leaves the state alone.  A non-empty
    list in the structured source is returned as it is; when that source is
    absent, unreadable, not a list or empty, the result is built from the
    line-oriented source, one record per non-blank line, named "Proxy n"
    after the line number and carrying the fixed credentials.  The result is
    empty exactly when the structured source gives nothing and the
    line-oriented source has no non-blank line to offer (it could not be
    read, is empty, or holds blank lines only). *)
Theorem load_proxies_sources (E : env) (s : state) :
  ∃ proxies,
    _load_proxies E s = (Ok proxies, s)
    ∧ (∀ data, read_json E (log s) = inr (JsonList data) → data ≠ [] → proxies = data)
    ∧ (json_unusable (read_json E (log s)) →
       proxies = spec_text_catalog (fst (read_txt E (log s))))
    ∧ (proxies = [] ↔
       json_unusable (read_json E (log s))
       ∧ ∀ line, line ∈ fst (read_txt E (log s)) → Py.strip line = "").
Proof.
  eexists. split; [apply load_proxies_eq|].
  destruct (read_json E (log s)) as [exc|[[|first others]|]]; simpl.
  - rewrite txt_loop_spec, spec_text_catalog_nil. split_and!; [done|done|tauto].
  - rewrite txt_loop_spec, spec_text_catalog_nil.
    split_and!; [by intros data [= <-] | done | tauto].
  - split_and!.
    + by intros data [= <-] _.
    + done.
    + split; [done|]. by intros [? _].
  - rewrite txt_loop_spec, spec_text_catalog_nil. split_and!; [done|done|tauto].
Qed.

(** The loader on a world whose structured source is missing and whose text
    source breaks after three lines, the second of them blank. *)
Example load_proxies_text_world :
  catalog text_world sample_state
  = Ok [make_record "Proxy 1" "10.1.1.1" "edcguest" "edcguest";
        make_record "Proxy 3" "10.1.1.3" "edcguest" "edcguest"].
Proof. reflexivity. Qed.

(** C5. Construction succeeds, and both selections equal the first record
    of the catalog when it has one, and the fallback record (name "Default",
    address "172.16.x.x", user and password "edcguest") when it is empty. *)
Theorem initial_selection (E : env) (s0 : state) :
  ∃ proxies s,
    catalog E s0 = Ok proxies
    ∧ __init__ E s0 = (Ok tt, s)
    ∧ match proxies with
      | first :: _ => proxy_selection s = first ∧ redsocks_selection s = first
      | [] =>
          proxy_selection s = make_record "Default" "172.16.x.x" "edcguest" "edcguest"
          ∧ redsocks_selection s = make_record "Default" "172.16.x.x" "edcguest" "edcguest"
      end.
Proof.
  unfold catalog, __init__, _initial_proxy, bind, modify.
  rewrite !load_proxies_eq. simpl.
  destruct (match read_json E (log s0) with
            | inr (JsonList (first :: others)) => first :: others
            | _ => txt_loop 1 (fst (read_txt E (log s0))) []
            end) as [|first others]; simpl.
  - by eexists [], _.
  - by eexists (first :: others), _.
Qed.

Example initial_selection_sample :
  selections (exec (__init__ (sample_world all_succeed)) sample_state) = (record_A, record_A)
  ∧ selections (exec (__init__ bare_world) sample_state) = (default_record, default_record).
Proof. split; reflexivity. Qed.

(** * Probes and rendering *)

(** C3, amended.  Both probes always return a boolean.  The system-proxy
    probe answers true exactly when the read completes, whatever its exit
    status, with an output that is "1" once stripped; the redsocks probe
    answers true exactly when the query completes with exit status 0.  A
    call that does not complete (tool missing, timeout) makes either probe
    answer false, and so does a non-zero exit status for the redsocks
    probe. *)
Theorem probes_total (E : env) (s : state) :
  (∃ b s', is_proxy_on E s = (Ok b, s')
           ∧ (b = true ↔ ∃ rc out, spawn E (log s) kreadconfig6_proxy_type = Completed rc out
                                  ∧ Py.strip out = "1"))
  ∧ (∃ b s', is_redsocks_on E s = (Ok b, s')
             ∧ (b = true ↔ ∃ out, spawn E (log s) systemctl_is_active = Completed 0 out))
  ∧ ((∃ d, spawn E (log s) kreadconfig6_proxy_type = Aborted d) →
     fst (is_proxy_on E s) = Ok false)
  ∧ (check_failed (spawn E (log s) systemctl_is_active) = true →
     fst (is_redsocks_on E s) = Ok false).
Proof.
  rewrite is_proxy_on_eq, is_redsocks_on_eq. split_and!.
  - eexists _, _. split; [done|].
    destruct (spawn E (log s) kreadconfig6_proxy_type) as [rc out|d].
    + rewrite String.eqb_eq. split; [eauto|]. by intros (? & ? & [= <- <-] & ?).
    + split; [done|]. by intros (? & ? & ? & _).
  - eexists _, _. split; [done|].
    destruct (spawn E (log s) systemctl_is_active) as [rc out|d]; simpl.
    + destruct (Z.eqb_spec rc 0) as [->|Hrc]; simpl.
      * split; eauto.
      * split; [done|]. intros (? & [= ? ?]). done.
    + split; [done|]. by intros (? & ?).
  - by intros [d ->].
  - simpl. by intros ->.
Qed.

(** C3, counterexample.  A read that exits with status 1 after printing "1"
    is a failure, and still the system-proxy probe answers true. *)
Lemma proxy_probe_ignores_exit_status :
  ¬ spec_proxy_probe (sample_world exit_1_print_1) sample_state.
Proof.
  intros [_ Hfail]. specialize (Hfail eq_refl).
  vm_compute in Hfail. discriminate Hfail.
Qed.

(** C2. The colour and label are a function of the two probes of the render
    pass, defined on all four pairs: off is gray with "–", proxy only is
    blue with "P", redsocks only is green with "R", both is purple with
    "PR". *)
Theorem render_icon_display (E : env) (s : state) :
  (∀ p r, icon_style p r = spec_display p r)
  ∧ ∃ p r s1 s2 img,
      is_proxy_on E s = (Ok p, s1)
      ∧ is_redsocks_on E s1 = (Ok r, s2)
      ∧ _render_icon E s = (Ok img, s2)
      ∧ (fill img, glyph img) = spec_display p r.
Proof.
  split; [by intros [] []|].
  destruct (is_proxy_on E s) as [rp s1] eqn:Hp.
  destruct (is_redsocks_on E s1) as [rr s2] eqn:Hr.
  pose proof Hp as Hp'. rewrite is_proxy_on_eq in Hp'.
  pose proof Hr as Hr'. rewrite is_redsocks_on_eq in Hr'.
  destruct rp as [p|]; [|done]. destruct rr as [r|]; [|done].
  exists p, r, s1, s2. rewrite (render_icon_eq E s p r s1 s2 Hp Hr).
  eexists. split_and!; [done..|]. by destruct p, r.
Qed.

(** The four displays, each reached by a refresh. *)
Example refresh_four_displays (proxy redsocks : bool) :
  let img := icon_icon (exec (_refresh (probe_world proxy redsocks)) sample_state) in
  (fill img, glyph img) = spec_display proxy redsocks.
Proof. by destruct proxy, redsocks. Qed.

(** C8, amended.  Whatever the two probes answer, the tooltip is
    "Proxy: <ON|OFF> (<system-proxy address>)  |  Redsocks: <ON|OFF>
    (<redsocks address>)", with two spaces on each side of the bar, and the
    two addresses are those of the current selections. *)
Theorem tooltip_text (E : env) (s : state) (p r : bool) (s1 s2 : state) (pip rip : string) :
  is_proxy_on E s = (Ok p, s1) →
  is_redsocks_on E s1 = (Ok r, s2) →
  proxy_selection s !! "ip" = Some pip →
  redsocks_selection s !! "ip" = Some rip →
  _tooltip E s = (Ok (wide_tooltip p pip r rip), s2).
Proof.
  intros Hp Hr Hpip Hrip. unfold _tooltip, bind. rewrite Hp, Hr.
  rewrite is_proxy_on_eq in Hp. injection Hp as _ <-.
  rewrite is_redsocks_on_eq in Hr. injection Hr as _ <-.
  unfold get, getitem. simpl. rewrite Hpip. simpl. rewrite Hrip.
  by destruct p, r.
Qed.

Lemma tooltip_text_witness :
  let E := sample_world all_succeed in
  let s1 := exec (is_proxy_on E) sample_state in
  let s2 := exec (is_redsocks_on E) s1 in
  _tooltip E sample_state = (Ok "Proxy: OFF (10.0.0.1)  |  Redsocks: ON (10.0.0.1)", s2).
Proof.
  intros E s1 s2.
  apply (tooltip_text E sample_state false true s1 s2 "10.0.0.1" "10.0.0.1");
    reflexivity.
Defined.

(** C8, counterexample.  With both subsystems off the program writes the bar
    between two pairs of spaces, which is not the text of the
    specification. *)
Lemma tooltip_separator_differs :
  ¬ spec_tooltip_text (sample_world all_succeed) sample_state.
Proof.
  intros H.
  specialize (H false true _ _ "10.0.0.1" "10.0.0.1" eq_refl eq_refl eq_refl eq_refl).
  vm_compute in H. discriminate H.
Qed.

(** * Mutations *)

(** C1, amended.  Enable-system-proxy attempts the five key-writes
    (ProxyType, httpProxy, httpsProxy, ftpProxy, NoProxyFor) in that order
    and only until the first one that fails: the writes attempted are an
    initial segment of the five, every one of them but the last succeeded,
    and all five are attempted when none fails.  When a write fails the
    operation emits exactly one notification, the critical "Proxy Error",
    and nothing but the planned writes is ever sent to the configuration
    writer, so no applied write is undone. *)
Theorem enable_proxy_writes_until_failure (E : env) (s : state) (ip : string) :
  proxy_selection s !! "ip" = Some ip →
  let tr := new_events s (exec (_enable_proxy E) s) in
  let writes := mutation_calls tr in
  map event_argv writes = take (length writes) (planned_writes (proxy_selection s))
  ∧ (∀ i e, writes !! i = Some e → S i < length writes → is_failed_mutation e = false)
  ∧ (Forall (λ e, is_failed_mutation e = false) writes → length writes = 5)
  ∧ (Exists is_failed_mutation writes →
     ∃ body, notifications tr = [Notify "Proxy Error" body "critical"]).
Proof.
  intros Hip tr writes.
  destruct (action_observed E _ s _ _ (enable_proxy_shape E s ip Hip))
    as (s1 & ws & tail & _ & _ & Hws & Hnot & _ & _ & _ & Hargv & Hcases).
  subst tr writes. rewrite Hws, Hnot. clear Hws Hnot. split_and!; [done|..].
  - intros i e Hi Hlt.
    destruct Hcases as [(_ & Hall & _)|(ws0 & w & body & -> & Hall & _ & _)].
    + rewrite Forall_forall in Hall. apply Hall. by eapply list_elem_of_lookup_2.
    + rewrite length_app in Hlt. simpl in Hlt.
      rewrite lookup_app_l in Hi by lia.
      rewrite Forall_forall in Hall. apply Hall. by eapply list_elem_of_lookup_2.
  - intros Hall. destruct Hcases as [(Hlen & _ & _)|(ws0 & w & body & -> & _ & Hw & _)].
    + by rewrite Hlen.
    + apply Forall_app in Hall as [_ Hall]. apply Forall_cons in Hall as [Hw' _]. congruence.
  - intros Hex. destruct Hcases as [(_ & Hall & _)|(ws0 & w & body & _ & _ & _ & ->)].
    + by apply not_failed_anywhere in Hall.
    + eauto.
Qed.

Lemma enable_proxy_writes_until_failure_witness :
  let E := sample_world third_call_fails in
  let tr := new_events sample_state (exec (_enable_proxy E) sample_state) in
  proxy_selection sample_state !! "ip" = Some "10.0.0.1"
  ∧ map event_argv (mutation_calls tr)
    = take 3 (planned_writes (proxy_selection sample_state))
  ∧ ∃ body, notifications tr = [Notify "Proxy Error" body "critical"].
Proof.
  intros E tr.
  destruct (enable_proxy_writes_until_failure E sample_state "10.0.0.1" eq_refl)
    as (Hprefix & _ & _ & Hfailed).
  split_and!; [reflexivity | exact Hprefix |].
  apply Hfailed. vm_compute.
  do 2 apply Exists_cons_tl. apply Exists_cons_hd. exact I.
Defined.

(** C1, counterexample.  When the first write exits with status 1 the four
    remaining writes are never attempted. *)
Lemma enable_proxy_stops_at_failed_write :
  ¬ spec_all_writes_attempted (sample_world first_call_fails) sample_state.
Proof. intros [Hall _]. vm_compute in Hall. discriminate Hall. Qed.

(** C4. When the environment fails one of the external calls a mutation
    operation (enable or disable, either subsystem) means to make, the
    operation makes its calls up to the first that fails and no further,
    emits exactly one critical notification, then runs the refresh, and both
    selections are what they were.  The failure is the environment's: the
    answers it gives to the planned calls, made in order from the log of the
    state on.  An enable operation reaches its calls when its selection has
    an address. *)
Theorem failed_mutation_reported_once (E : env) (it : menu_item) (s : state) :
  is_mutation it = true →
  (∀ sel, enabled_selection it s = Some sel → is_Some (sel !! "ip")) →
  Exists call_failed (answers E (log s) (call_timeout it) (planned_calls it s)) →
  (∃ ws w,
     mutation_calls (new_events s (exec (callback E it) s)) = (ws ++ [w])%list
     ∧ (ws ++ [w])%list `prefix_of` answers E (log s) (call_timeout it) (planned_calls it s)
     ∧ Forall (λ e, call_failed e = false) ws
     ∧ call_failed w = true)
  ∧ (∃ body,
       criticals (new_events s (exec (callback E it) s))
       = [Notify (error_title it) body "critical"])
  ∧ (∃ s1 body,
       log s1 = (log s ++ mutation_calls (new_events s (exec (callback E it) s))
                       ++ [Notify (error_title it) body "critical"])%list
       ∧ callback E it s = _refresh E s1)
  ∧ selections (exec (callback E it) s) = selections s.
Proof.
  intros Hit Hip Hex.
  destruct (action_answered_observed E _ s _ _ _
              (λ argv o, planned_calls_mutation it s argv _ o)
              (mutation_answered E it s Hit Hip))
    as (s1 & writes & tail & Hrun & Hlog & Hws & Hcrit & Hsel & Hans & Hcases).
  destruct Hcases as [(Hlen & Hall & _)|(ws & w & body & Hwrites & Hall & Hw & ->)].
  - rewrite Hlen, <- (answers_length E (log s) (call_timeout it)), firstn_all in Hans.
    rewrite <- Hans in Hex. by apply none_failed in Hall.
  - rewrite Hcrit, Hws. split_and!; [|by exists body|by exists s1, body|done].
    exists ws, w. split_and!; [done| |done|done].
    rewrite <- Hwrites, Hans. apply prefix_take.
Qed.

Lemma failed_mutation_reported_once_witness :
  failure_reported_once (sample_world third_call_fails) EnableProxy sample_state
  ∧ failure_reported_once (sample_world first_call_fails) DisableProxy sample_state
  ∧ failure_reported_once (sample_world first_call_fails) EnableRedsocks sample_state
  ∧ failure_reported_once (sample_world first_call_fails) DisableRedsocks sample_state.
Proof.
  assert (∀ E it,
            is_mutation it = true →
            (∀ sel, enabled_selection it sample_state = Some sel → is_Some (sel !! "ip")) →
            Exists call_failed
              (answers E (log sample_state) (call_timeout it)
                 (planned_calls it sample_state)) →
            failure_reported_once E it sample_state) as Hreport.
  { intros E it Hit Hip Hex.
    destruct (failed_mutation_reported_once E it sample_state Hit Hip Hex)
      as (_ & (body & Hcrit) & _ & Hsel).
    split_and!; [exact Hex | | exact Hsel].
    rewrite Hcrit. reflexivity. }
  split_and!; apply Hreport; try reflexivity.
  - intros sel [= <-]. by eexists.
  - do 2 apply Exists_cons_tl. apply Exists_cons_hd. reflexivity.
  - intros sel [=].
  - apply Exists_cons_hd. reflexivity.
  - intros sel [= <-]. by eexists.
  - apply Exists_cons_hd. reflexivity.
  - intros sel [=].
  - apply Exists_cons_hd. reflexivity.
Defined.

(** * The selection picker *)

(** C7. When the picker is cancelled, at the radiolist or at the custom
    entry (blank input included), it returns no record; the change action
    that called it leaves both selections as they were and emits no
    notification. *)
Theorem picker_cancellation (E : env) (sub : subsystem) (s : state) :
  cancelled E (picker_title sub) (selection_of sub s) s →
  (∃ s1, _pick_proxy E (picker_title sub) (selection_of sub s) s = (Ok None, s1))
  ∧ selections (exec (change E sub) s) = selections s
  ∧ notifications (new_events s (exec (change E sub) s)) = [].
Proof.
  intros Hcancel.
  destruct (pick_cancelled E _ _ s Hcancel) as (s1 & pre & Hpick & Hlog & Hpre & Hsel).
  split; [by exists s1|].
  by apply (change_without_pick E sub s s1 pre).
Qed.

Lemma picker_cancellation_witness :
  (let E := sample_world exit_1_print_1 in
   cancelled E (picker_title SystemProxy) (selection_of SystemProxy sample_state) sample_state
   ∧ selections (exec (change E SystemProxy) sample_state) = selections sample_state
   ∧ notifications (new_events sample_state (exec (change E SystemProxy) sample_state)) = [])
  ∧ (let E := sample_world custom_then_blank in
     cancelled E (picker_title Redsocks) (selection_of Redsocks sample_state) sample_state
     ∧ selections (exec (change E Redsocks) sample_state) = selections sample_state
     ∧ notifications (new_events sample_state (exec (change E Redsocks) sample_state)) = []).
Proof.
  split; intros E.
  - assert (cancelled E (picker_title SystemProxy) (selection_of SystemProxy sample_state)
              sample_state) as Hcancel.
    { eapply (cancelled_at_list E _ _ _ [record_A; record_B]);
        [reflexivity | discriminate | reflexivity | reflexivity | discriminate]. }
    split; [exact Hcancel|].
    apply (picker_cancellation E SystemProxy sample_state Hcancel).
  - assert (cancelled E (picker_title Redsocks) (selection_of Redsocks sample_state)
              sample_state) as Hcancel.
    { eapply (cancelled_at_custom E _ _ _ [record_A; record_B] _ _ "10.0.0.1");
        [reflexivity | discriminate | reflexivity | reflexivity | reflexivity
        | reflexivity | reflexivity | right; reflexivity]. }
    split; [exact Hcancel|].
    apply (picker_cancellation E Redsocks sample_state Hcancel).
Defined.

(** C10. When the radiolist returns a tag that is neither the custom-entry
    sentinel nor the address of a catalog record, the picker returns no
    record; the change action installs nothing and emits no notification. *)
Theorem unmatched_tag_no_change (E : env) (sub : subsystem) (s : state) :
  unmatched_tag E (picker_title sub) (selection_of sub s) s →
  (∃ s1, _pick_proxy E (picker_title sub) (selection_of sub s) s = (Ok None, s1))
  ∧ selections (exec (change E sub) s) = selections s
  ∧ notifications (new_events s (exec (change E sub) s)) = [].
Proof.
  intros Hstray.
  destruct (pick_unmatched E _ _ s Hstray) as (s1 & pre & Hpick & Hlog & Hpre & Hsel).
  split; [by exists s1|].
  by apply (change_without_pick E sub s s1 pre).
Qed.

Lemma unmatched_tag_no_change_witness :
  let E := sample_world stray_tag in
  unmatched_tag E (picker_title SystemProxy) (selection_of SystemProxy sample_state) sample_state
  ∧ selections (exec (change E SystemProxy) sample_state) = selections sample_state
  ∧ notifications (new_events sample_state (exec (change E SystemProxy) sample_state)) = [].
Proof.
  intros E.
  assert (unmatched_tag E (picker_title SystemProxy) (selection_of SystemProxy sample_state)
            sample_state) as Hstray.
  { eapply (unmatched E _ _ _ [record_A; record_B]);
      [reflexivity | discriminate | reflexivity | reflexivity | discriminate |].
    intros p Hp. apply elem_of_cons in Hp as [->|Hp]; [discriminate|].
    apply elem_of_cons in Hp as [->|Hp]; [discriminate|]. by apply elem_of_nil in Hp. }
  split; [exact Hstray|].
  apply (unmatched_tag_no_change E SystemProxy sample_state Hstray).
Defined.

(** * The frame of the selections *)

(** C9. The background loop, however long it runs, and every refresh leave
    both selections as they are; so do the start of the icon and any
    interleaving of loop passes, menu openings and menu actions other than
    the two pickers.  A picker action changes the selection of its own
    subsystem only, and only to the record the picker returned; when the
    picker returns none, nothing changes. *)
Theorem selections_written_only_by_picker (E : env) :
  (∀ fuel s, selections (exec (_monitor E fuel) s) = selections s)
  ∧ (∀ s, selections (exec (_refresh E) s) = selections s)
  ∧ (∀ s, selections (exec (run E) s) = selections s)
  ∧ (∀ sched s, Forall not_a_picker sched →
       selections (run_schedule E sched s) = selections s)
  ∧ (∀ sub s, ∃ r s1,
       _pick_proxy E (picker_title sub) (selection_of sub s) s = (r, s1)
       ∧ match r with
         | Ok (Some res) =>
             selection_of sub (exec (change E sub) s) = res
             ∧ selection_of (other sub) (exec (change E sub) s) = selection_of (other sub) s
         | _ => selections (exec (change E sub) s) = selections s
         end).
Proof.
  split_and!.
  - intros fuel s. apply (quiet_selections _ s (quiet_monitor E fuel)).
  - intros s. apply (quiet_selections _ s (quiet_refresh E)).
  - intros s. apply (quiet_selections _ s (quiet_run E)).
  - intros sched s Hsched. revert s.
    induction Hsched as [|a rest Ha _ IH]; intros s; simpl; [done|].
    rewrite IH. apply (quiet_selections _ s (quiet_activity E a Ha)).
  - intros sub s.
    destruct (_pick_proxy E (picker_title sub) (selection_of sub s) s) as [r s1] eqn:Hpick.
    exists r, s1. split; [done|].
    destruct r as [[res|]|e].
    + by apply (change_with_pick E sub s s1).
    + by apply (change_without_record E sub s s1 (Ok None)).
    + by apply (change_without_record E sub s s1 (Raise e)).
Qed.

(** The scenario of the specification: with catalog [A, B], picking "B" for
    redsocks installs B there and leaves the system proxy on A. *)
Example pick_B_for_redsocks :
  let E := sample_world (λ _ _, Completed 0 "10.0.0.2
") in
  selections (exec (change E Redsocks) sample_state) = (record_A, record_B).
Proof. reflexivity. Qed.

(** * Further properties of the program *)

(** ** Fonts *)

(** X1. The font is that of the first candidate, in search order, that is a
    file on disk and loads at the requested size: every candidate before it
    is missing or fails to load.  When no candidate is usable the built-in
    default font is returned. *)
Theorem load_font_first_hit (F : font_files) (size : nat) :
  match _load_font F size with
  | TrueType path sz =>
      sz = size
      ∧ ∃ i, FONT_CANDIDATES !! i = Some path
             ∧ usable F size path
             ∧ ∀ j earlier, j < i → FONT_CANDIDATES !! j = Some earlier →
                 ¬ usable F size earlier
  | DefaultFont => ∀ path, path ∈ FONT_CANDIDATES → ¬ usable F size path
  end.
Proof.
  unfold _load_font. generalize FONT_CANDIDATES as paths.
  induction paths as [|p rest IH]; simpl.
  - intros path Hin. by apply elem_of_nil in Hin.
  - destruct (isfile F p) eqn:Hfile; [destruct (loads F p size) eqn:Hload|].
    + split; [done|]. exists 0. split_and!; [done|done|]. intros j earlier Hj. lia.
    + destruct (try_fonts F rest size) as [path sz|].
      * destruct IH as (-> & i & Hi & Huse & Hearlier). split; [done|].
        exists (S i). split_and!; [done|done|].
        intros [|j] earlier Hj Hlook; simpl in Hlook.
        -- injection Hlook as <-. intros [_ Hl]. congruence.
        -- apply (Hearlier j); [lia|done].
      * intros path Hin. apply elem_of_cons in Hin as [->|Hin]; [|by apply IH].
        intros [_ Hl]. congruence.
    + destruct (try_fonts F rest size) as [path sz|].
      * destruct IH as (-> & i & Hi & Huse & Hearlier). split; [done|].
        exists (S i). split_and!; [done|done|].
        intros [|j] earlier Hj Hlook; simpl in Hlook.
        -- injection Hlook as <-. intros [Hf _]. congruence.
        -- apply (Hearlier j); [lia|done].
      * intros path Hin. apply elem_of_cons in Hin as [->|Hin]; [|by apply IH].
        intros [Hf _]. congruence.
Qed.

(** ** Refresh *)

Lemma tooltip_run E (s : state) (p r : bool) (s1 s2 : state) (pip rip : string) :
  is_proxy_on E s = (Ok p, s1) →
  is_redsocks_on E s1 = (Ok r, s2) →
  proxy_selection s !! "ip" = Some pip →
  redsocks_selection s !! "ip" = Some rip →
  _tooltip E s = (Ok (wide_tooltip p pip r rip), s2).
Proof.
  intros Hp Hr Hpip Hrip. unfold _tooltip. rewrite (bind_ok _ _ _ _ _ Hp), (bind_ok _ _ _ _ _ Hr).
  rewrite is_proxy_on_eq in Hp. injection Hp as _ <-.
  rewrite is_redsocks_on_eq in Hr. injection Hr as _ <-.
  unfold bind, get, getitem. simpl. rewrite Hpip. simpl. rewrite Hrip.
  by destruct p, r.
Qed.

(** One refresh, step by step: probe, probe, set the icon, probe, probe, set
    the title if both addresses are there. *)
Lemma refresh_run E (s : state) :
  let o1 := spawn E (log s) kreadconfig6_proxy_type in
  let s1 := record_event (Spawn kreadconfig6_proxy_type 3 o1) s in
  let o2 := spawn E (log s1) systemctl_is_active in
  let s2 := record_event (Spawn systemctl_is_active 3 o2) s1 in
  let style := icon_style (proxy_answer o1) (redsocks_answer o2) in
  let img := mkImage (fst style) (snd style)
               (if (1 <? Py.len (snd style))%nat then 20 else 30) in
  let s3 := set_icon_icon img s2 in
  let o3 := spawn E (log s3) kreadconfig6_proxy_type in
  let s4 := record_event (Spawn kreadconfig6_proxy_type 3 o3) s3 in
  let o4 := spawn E (log s4) systemctl_is_active in
  let s5 := record_event (Spawn systemctl_is_active 3 o4) s4 in
  _refresh E s =
  match proxy_selection s !! "ip", redsocks_selection s !! "ip" with
  | Some pip, Some rip =>
      (Ok tt,
       set_icon_title (wide_tooltip (proxy_answer o3) pip (redsocks_answer o4) rip) s5)
  | _, _ => (Raise (KeyError "ip"), s5)
  end.
Proof.
  intros o1 s1 o2 s2 style img s3 o3 s4 o4 s5.
  assert (_render_icon E s = (Ok img, s2)) as Hrender.
  { apply (render_icon_eq E s _ _ s1 s2).
    - by rewrite is_proxy_on_eq.
    - by rewrite is_redsocks_on_eq. }
  unfold _refresh. rewrite (bind_ok _ _ _ _ _ Hrender).
  unfold bind at 1, modify at 1. fold s3.
  assert (is_proxy_on E s3 = (Ok (proxy_answer o3), s4)) as Hp by apply is_proxy_on_eq.
  assert (is_redsocks_on E s4 = (Ok (redsocks_answer o4), s5)) as Hr by apply is_redsocks_on_eq.
  destruct (proxy_selection s !! "ip") as [pip|] eqn:Hpip;
    [destruct (redsocks_selection s !! "ip") as [rip|] eqn:Hrip|].
  - rewrite (bind_ok _ _ s3 _ _ (tooltip_run E s3 _ _ s4 s5 pip rip Hp Hr Hpip Hrip)).
    done.
  - erewrite bind_raise; [done|].
    unfold _tooltip. rewrite (bind_ok _ _ _ _ _ Hp), (bind_ok _ _ _ _ _ Hr).
    unfold bind, get, getitem. simpl. rewrite Hpip. simpl. by rewrite Hrip.
  - erewrite bind_raise; [done|].
    unfold _tooltip. rewrite (bind_ok _ _ _ _ _ Hp), (bind_ok _ _ _ _ _ Hr).
    unfold bind, get, getitem. simpl. by rewrite Hpip.
Qed.

Lemma refresh_log_icon E (s : state) :
  let s' := exec (_refresh E) s in
  ∃ o1 o2 o3 o4,
    log s' = (log s ++ [Spawn kreadconfig6_proxy_type 3 o1; Spawn systemctl_is_active 3 o2;
                        Spawn kreadconfig6_proxy_type 3 o3;
                        Spawn systemctl_is_active 3 o4])%list
    ∧ (fill (icon_icon s'), glyph (icon_icon s'))
      = spec_display (proxy_answer o1) (redsocks_answer o2).
Proof.
  intros s'. subst s'. unfold exec. rewrite refresh_run.
  eexists (spawn E (log s) kreadconfig6_proxy_type), (spawn E _ systemctl_is_active),
          (spawn E _ kreadconfig6_proxy_type), (spawn E _ systemctl_is_active).
  split.
  - destruct (proxy_selection s !! "ip"); [destruct (redsocks_selection s !! "ip")|];
      simpl; by rewrite <- !app_assoc.
  - destruct (proxy_selection s !! "ip"); [destruct (redsocks_selection s !! "ip")|];
      simpl;
      match goal with |- context [icon_style ?p ?r] => by destruct p, r end.
Qed.

(** X2. A refresh spawns exactly four commands, the configuration read and
    the service query twice over, and nothing else.  The icon shows the
    answers of the first pair; the tooltip, written when both selections
    hold an address, shows the answers of the second pair. *)
Theorem refresh_probes_twice (E : env) (s : state) :
  let s' := exec (_refresh E) s in
  ∃ o1 o2 o3 o4,
    new_events s s' = [Spawn kreadconfig6_proxy_type 3 o1; Spawn systemctl_is_active 3 o2;
                       Spawn kreadconfig6_proxy_type 3 o3; Spawn systemctl_is_active 3 o4]
    ∧ (fill (icon_icon s'), glyph (icon_icon s'))
      = spec_display (proxy_answer o1) (redsocks_answer o2)
    ∧ ∀ pip rip,
        proxy_selection s !! "ip" = Some pip → redsocks_selection s !! "ip" = Some rip →
        fst (_refresh E s) = Ok tt
        ∧ icon_title s' = wide_tooltip (proxy_answer o3) pip (redsocks_answer o4) rip.
Proof.
  intros s'. subst s'. unfold exec. rewrite refresh_run.
  set (o1 := spawn E (log s) kreadconfig6_proxy_type).
  set (s1 := record_event (Spawn kreadconfig6_proxy_type 3 o1) s).
  set (o2 := spawn E (log s1) systemctl_is_active).
  set (s2 := record_event (Spawn systemctl_is_active 3 o2) s1).
  set (img := mkImage _ _ _).
  set (s3 := set_icon_icon img s2).
  set (o3 := spawn E (log s3) kreadconfig6_proxy_type).
  set (s4 := record_event (Spawn kreadconfig6_proxy_type 3 o3) s3).
  set (o4 := spawn E (log s4) systemctl_is_active).
  set (s5 := record_event (Spawn systemctl_is_active 3 o4) s4).
  exists o1, o2, o3, o4.
  assert (log s5 = (log s ++ [Spawn kreadconfig6_proxy_type 3 o1;
                              Spawn systemctl_is_active 3 o2;
                              Spawn kreadconfig6_proxy_type 3 o3;
                              Spawn systemctl_is_active 3 o4])%list) as Hlog.
  { simpl. by rewrite <- !app_assoc. }
  assert ((fill img, glyph img) = spec_display (proxy_answer o1) (redsocks_answer o2))
    as Himg.
  { subst img. simpl. by destruct (proxy_answer o1), (redsocks_answer o2). }
  split_and!.
  - apply new_events_app.
    by destruct (proxy_selection s !! "ip"); [destruct (redsocks_selection s !! "ip")|].
  - by destruct (proxy_selection s !! "ip"); [destruct (redsocks_selection s !! "ip")|].
  - intros pip rip -> ->. done.
Qed.

Lemma refresh_in_stable_world E (s : state) (pip rip : string) :
  stable E →
  proxy_selection s !! "ip" = Some pip → redsocks_selection s !! "ip" = Some rip →
  let style := icon_style (proxy_answer (spawn E [] kreadconfig6_proxy_type))
                 (redsocks_answer (spawn E [] systemctl_is_active)) in
  icon_icon (exec (_refresh E) s)
  = mkImage (fst style) (snd style) (if (1 <? Py.len (snd style))%nat then 20 else 30)
  ∧ icon_title (exec (_refresh E) s)
    = wide_tooltip (proxy_answer (spawn E [] kreadconfig6_proxy_type)) pip
        (redsocks_answer (spawn E [] systemctl_is_active)) rip
  ∧ selections (exec (_refresh E) s) = selections s.
Proof.
  intros Hstable Hpip Hrip.
  remember (spawn E [] kreadconfig6_proxy_type) as ok eqn:Hok.
  remember (spawn E [] systemctl_is_active) as os eqn:Hos.
  assert (∀ tr, spawn E tr kreadconfig6_proxy_type = ok) as Hk
    by (intros; subst; apply Hstable).
  assert (∀ tr, spawn E tr systemctl_is_active = os) as Hs
    by (intros; subst; apply Hstable).
  unfold exec. rewrite refresh_run, Hpip, Hrip. cbn [snd].
  rewrite !Hk, !Hs. done.
Qed.

(** X3. In a world whose commands answer the same whatever happened before,
    a second refresh changes neither the icon nor the tooltip. *)
Theorem refresh_idempotent_when_stable (E : env) (s : state) :
  stable E → has_addresses s →
  let s1 := exec (_refresh E) s in
  let s2 := exec (_refresh E) s1 in
  icon_icon s2 = icon_icon s1 ∧ icon_title s2 = icon_title s1.
Proof.
  intros Hstable [[pip Hpip] [rip Hrip]] s1 s2. subst s2 s1.
  destruct (refresh_in_stable_world E s pip rip Hstable Hpip Hrip) as (Hi1 & Ht1 & Hsel).
  injection Hsel as Hp Hr.
  destruct (refresh_in_stable_world E (exec (_refresh E) s) pip rip Hstable)
    as (Hi2 & Ht2 & _); [congruence..|].
  split; congruence.
Qed.

Lemma refresh_idempotent_when_stable_witness :
  let E := probe_world true false in
  let s1 := exec (_refresh E) sample_state in
  stable E ∧ has_addresses sample_state
  ∧ icon_icon (exec (_refresh E) s1) = icon_icon s1
  ∧ icon_title (exec (_refresh E) s1) = icon_title s1.
Proof.
  intros E s1.
  assert (stable E) as Hstable by (intros tr tr' argv; reflexivity).
  assert (has_addresses sample_state) as Haddr by (split; eexists; reflexivity).
  split_and!; [exact Hstable | exact Haddr | |];
    apply (refresh_idempotent_when_stable E sample_state Hstable Haddr).
Defined.

(** X4. When a selection holds no address the refresh raises KeyError after
    its four probes: the icon has been redrawn by then from the answers the
    environment gave to the first pair, and the tooltip is left as it
    was. *)
Theorem refresh_without_address (E : env) (s : state) :
  ¬ has_addresses s →
  let s' := exec (_refresh E) s in
  fst (_refresh E s) = Raise (KeyError "ip")
  ∧ icon_title s' = icon_title s
  ∧ ∃ o1 o2 o3 o4,
      new_events s s' = [Spawn kreadconfig6_proxy_type 3 o1; Spawn systemctl_is_active 3 o2;
                         Spawn kreadconfig6_proxy_type 3 o3; Spawn systemctl_is_active 3 o4]
      ∧ o1 = spawn E (log s) kreadconfig6_proxy_type
      ∧ o2 = spawn E (log s ++ [Spawn kreadconfig6_proxy_type 3 o1])%list systemctl_is_active
      ∧ (fill (icon_icon s'), glyph (icon_icon s'))
        = spec_display (proxy_answer o1) (redsocks_answer o2).
Proof.
  intros Hno s'. subst s'. unfold exec. rewrite refresh_run.
  set (o1 := spawn E (log s) kreadconfig6_proxy_type).
  set (s1 := record_event (Spawn kreadconfig6_proxy_type 3 o1) s).
  set (o2 := spawn E (log s1) systemctl_is_active).
  set (s2 := record_event (Spawn systemctl_is_active 3 o2) s1).
  set (img := mkImage _ _ _).
  set (s3 := set_icon_icon img s2).
  set (o3 := spawn E (log s3) kreadconfig6_proxy_type).
  set (s4 := record_event (Spawn kreadconfig6_proxy_type 3 o3) s3).
  set (o4 := spawn E (log s4) systemctl_is_active).
  set (s5 := record_event (Spawn systemctl_is_active 3 o4) s4).
  assert (log s5 = (log s ++ [Spawn kreadconfig6_proxy_type 3 o1;
                              Spawn systemctl_is_active 3 o2;
                              Spawn kreadconfig6_proxy_type 3 o3;
                              Spawn systemctl_is_active 3 o4])%list) as Hlog.
  { simpl. by rewrite <- !app_assoc. }
  assert ((fill img, glyph img) = spec_display (proxy_answer o1) (redsocks_answer o2))
    as Himg.
  { subst img. simpl. by destruct (proxy_answer o1), (redsocks_answer o2). }
  assert (∀ r : result unit,
            fst (r, s5) = Raise (KeyError "ip") →
            fst (r, s5) = Raise (KeyError "ip")
            ∧ icon_title (snd (r, s5)) = icon_title s
            ∧ ∃ p1 p2 p3 p4,
                new_events s (snd (r, s5))
                = [Spawn kreadconfig6_proxy_type 3 p1; Spawn systemctl_is_active 3 p2;
                   Spawn kreadconfig6_proxy_type 3 p3; Spawn systemctl_is_active 3 p4]
                ∧ p1 = spawn E (log s) kreadconfig6_proxy_type
                ∧ p2 = spawn E (log s ++ [Spawn kreadconfig6_proxy_type 3 p1])%list
                         systemctl_is_active
                ∧ (fill (icon_icon (snd (r, s5))), glyph (icon_icon (snd (r, s5))))
                  = spec_display (proxy_answer p1) (redsocks_answer p2)) as Hraised.
  { intros r Hr. split_and!; [done|done|]. exists o1, o2, o3, o4.
    split_and!; [by apply new_events_app|done|done|done]. }
  destruct (proxy_selection s !! "ip") as [pip|] eqn:Hpip;
    [destruct (redsocks_selection s !! "ip") as [rip|] eqn:Hrip|].
  - destruct Hno. split; by eexists.
  - by apply Hraised.
  - by apply Hraised.
Qed.

Lemma refresh_without_address_witness :
  let E := probe_world true true in
  let s' := exec (_refresh E) addressless_state in
  ¬ has_addresses addressless_state
  ∧ fst (_refresh E addressless_state) = Raise (KeyError "ip")
  ∧ icon_title s' = "stale"
  ∧ length (new_events addressless_state s') = 4
  ∧ (fill (icon_icon s'), glyph (icon_icon s')) = spec_display true true.
Proof.
  intros E s'.
  assert (¬ has_addresses addressless_state) as Hno.
  { intros [[ip Hip] _]. discriminate Hip. }
  destruct (refresh_without_address E addressless_state Hno)
    as (Hraise & Htitle & o1 & o2 & o3 & o4 & Hlog & Ho1 & Ho2 & Hicon).
  split_and!; [exact Hno | exact Hraise | exact Htitle | |].
  - unfold s'. rewrite Hlog. reflexivity.
  - unfold s'. rewrite Hicon, Ho2, Ho1. reflexivity.
Defined.

(** ** The selections always hold an address *)

Lemma has_addresses_selections (s s' : state) :
  selections s' = selections s → has_addresses s → has_addresses s'.
Proof. unfold has_addresses. intros [= -> ->]. done. Qed.

Lemma change_keeps_addresses E (sub : subsystem) (s : state) :
  has_addresses s → has_addresses (exec (change E sub) s).
Proof.
  intros Haddr.
  destruct (_pick_proxy E (picker_title sub) (selection_of sub s) s) as [r s1] eqn:Hpick.
  destruct r as [[res|]|e].
  - destruct (change_with_pick E sub s s1 res Hpick) as [Hown Hother].
    pose proof (pick_proxy_some _ _ _ _ _ _ Hpick) as Hip.
    destruct Haddr as [Hp Hr]. destruct sub; simpl in *; split; congruence.
  - eapply has_addresses_selections; [|done].
    by apply (change_without_record E sub s s1 (Ok None)).
  - eapply has_addresses_selections; [|done].
    by apply (change_without_record E sub s s1 (Raise e)).
Qed.

Lemma activity_keeps_addresses E (a : activity) (s : state) :
  has_addresses s → has_addresses (exec (perform E a) s).
Proof.
  intros Haddr.
  assert (not_a_picker a → has_addresses (exec (perform E a) s)) as Hquiet.
  { intros Ha. eapply has_addresses_selections; [|done].
    apply (quiet_selections _ s (quiet_activity E a Ha)). }
  destruct a as [|[]|]; try (apply Hquiet; by split).
  - apply (change_keeps_addresses E SystemProxy s Haddr).
  - apply (change_keeps_addresses E Redsocks s Haddr).
Qed.

(** X5. Once both selections hold an address they do so for ever: whatever
    the user clicks, pickers included, and however the loop passes are
    interleaved, no activity leaves a selection without an address. *)
Theorem selections_keep_addresses (E : env) (sched : list activity) (s : state) :
  has_addresses s → has_addresses (run_schedule E sched s).
Proof.
  revert s. induction sched as [|a rest IH]; intros s Haddr; simpl; [done|].
  apply IH. by apply activity_keeps_addresses.
Qed.

Lemma selections_keep_addresses_witness :
  let E := sample_world custom_then_blank in
  let sched := [Click ChangeProxy; Poll; Click EnableRedsocks; OpenMenu;
                Click ChangeRedsocksProxy] in
  has_addresses sample_state ∧ has_addresses (run_schedule E sched sample_state).
Proof.
  intros E sched.
  assert (has_addresses sample_state) as Haddr by (split; eexists; reflexivity).
  split; [exact Haddr|].
  apply (selections_keep_addresses E sched sample_state Haddr).
Defined.

(** ** Construction and start *)

(** The record construction starts from. *)
Lemma init_run E (s0 : state) :
  ∃ proxies,
    catalog E s0 = Ok proxies
    ∧ __init__ E s0
      = (Ok tt,
         set_redsocks_selection (default default_record (head proxies))
           (set_proxy_selection (default default_record (head proxies))
              (set_running true s0))).
Proof.
  unfold catalog, __init__, _initial_proxy, bind, modify.
  rewrite !load_proxies_eq. simpl.
  destruct (match read_json E (log s0) with
            | inr (JsonList (first :: others)) => first :: others
            | _ => txt_loop 1 (fst (read_txt E (log s0))) []
            end) as [|first others]; simpl.
  - by exists [].
  - by exists (first :: others).
Qed.

(** X6. Construction leaves both selections with an address exactly when
    the first record of the catalog, if there is one, has an address; an
    empty catalog is always fine, the fallback record has one. *)
Theorem construction_addresses (E : env) (s0 : state) :
  has_addresses (exec (__init__ E) s0)
  ↔ ∀ first rest, catalog E s0 = Ok (first :: rest) → is_Some (first !! "ip").
Proof.
  destruct (init_run E s0) as (proxies & Hcat & Hrun).
  unfold exec. rewrite Hrun, Hcat. unfold has_addresses. simpl.
  destruct proxies as [|p rest]; simpl.
  - split; [by intros _ first rest' [=]|]. intros _. split; by eexists.
  - split.
    + intros [Hp _] first rest' [= <- _]. done.
    + intros H. split; by eapply H.
Qed.

Lemma tooltip_without_address E (s : state) :
  ¬ has_addresses s → ∃ s', _tooltip E s = (Raise (KeyError "ip"), s').
Proof.
  intros Hno. unfold _tooltip, bind. rewrite is_proxy_on_eq, is_redsocks_on_eq.
  unfold get, getitem. simpl.
  destruct (proxy_selection s !! "ip") as [pip|] eqn:Hpip; simpl; [|by eexists].
  destruct (redsocks_selection s !! "ip") as [rip|] eqn:Hrip; simpl; [|by eexists].
  destruct Hno. split; by eexists.
Qed.

Lemma spawns_no_notification (tr : list event) :
  Forall is_spawn tr → notifications tr = [].
Proof. apply (filter_none _ is_spawn), spawn_not_notification. Qed.

Lemma quiet_probe_then {A} (E : env) (m : M A) :
  quiet is_probe m → quiet is_spawn m.
Proof. apply quiet_weaken. apply probe_is_spawn. Qed.

(** X7. With an address in both selections, starting the icon succeeds: the
    icon becomes visible and exactly one notification is sent, the normal
    "Proxy Manager" greeting with both states and both addresses. *)
Theorem run_greets_once (E : env) (s : state) :
  has_addresses s →
  ∃ s' body,
    run E s = (Ok tt, s')
    ∧ icon_visible s' = true
    ∧ notifications (new_events s s') = [Notify "Proxy Manager" body "normal"]
    ∧ selections s' = selections s.
Proof.
  intros [[pip Hpip] [rip Hrip]].
  destruct (quiet_probe_then E _ (quiet_render_icon E) s) as (tr1 & Hsel1 & Hlog1 & Htr1).
  unfold exec in *.
  destruct (_render_icon E s) as [rimg s1] eqn:Hrender. simpl in *.
  assert (∃ img, rimg = Ok img) as [img ->].
  { unfold _render_icon, bind in Hrender. rewrite is_proxy_on_eq, is_redsocks_on_eq in Hrender.
    destruct (icon_style _ _). injection Hrender as <- _. by eexists. }
  injection Hsel1 as Hp1 Hr1.
  pose proof (is_proxy_on_eq E s1) as Hpo. pose proof (is_redsocks_on_eq E (snd (is_proxy_on E s1))) as Hro.
  rewrite Hpo in Hro. cbn [snd] in Hro.
  assert (proxy_selection s1 !! "ip" = Some pip) as Hpip1 by congruence.
  assert (redsocks_selection s1 !! "ip" = Some rip) as Hrip1 by congruence.
  pose proof (tooltip_run E s1 _ _ _ _ pip rip Hpo Hro Hpip1 Hrip1) as Htip.
  unfold run. rewrite (bind_ok _ _ _ _ _ Hrender), (bind_ok _ _ _ _ _ Htip).
  unfold bind at 1, modify at 1. unfold bind at 1, modify at 1.
  unfold on_setup. unfold bind at 1, modify at 1.
  unfold bind at 1. rewrite is_proxy_on_eq. unfold bind at 1. rewrite is_redsocks_on_eq.
  unfold bind, get, getitem, _notify, modify. simpl.
  rewrite Hpip1. simpl. rewrite Hrip1. simpl.
  eexists _, _. split_and!; [done|done| |unfold selections; simpl; congruence].
  erewrite new_events_app; [|simpl; rewrite Hlog1, <- !app_assoc; simpl; done].
  by rewrite notifications_app, (spawns_no_notification _ Htr1).
Qed.

Lemma run_greets_once_witness :
  let E := probe_world true false in
  has_addresses sample_state
  ∧ ∃ s', run E sample_state = (Ok tt, s')
          ∧ notifications (new_events sample_state s')
            = [Notify "Proxy Manager" "Proxy: ON (10.0.0.1)
Redsocks: OFF (10.0.0.1)" "normal"].
Proof.
  intros E.
  assert (has_addresses sample_state) as Haddr by (split; eexists; reflexivity).
  split; [exact Haddr|].
  destruct (run_greets_once E sample_state Haddr) as (s' & body & Hrun & _ & _ & _).
  exists s'. split; [exact Hrun|].
  assert (s' = snd (run E sample_state)) as -> by (rewrite Hrun; reflexivity).
  reflexivity.
Defined.

(** X8. When the first record of the catalog has no address the program
    does not start: construction succeeds, but building the first tooltip
    raises KeyError before the icon exists, and nothing has been notified. *)
Theorem main_raises_without_address (E : env) (s0 : state) (first : record)
    (rest : list record) :
  catalog E s0 = Ok (first :: rest) →
  first !! "ip" = None →
  fst (main E s0) = Raise (KeyError "ip")
  ∧ notifications (new_events s0 (exec (main E) s0)) = []
  ∧ icon_visible (exec (main E) s0) = icon_visible s0.
Proof.
  intros Hcat Hip.
  destruct (init_run E s0) as (proxies & Hcat' & Hinit).
  rewrite Hcat in Hcat'. injection Hcat' as <-. simpl in Hinit.
  set (s1 := set_redsocks_selection first (set_proxy_selection first (set_running true s0)))
    in Hinit.
  assert (¬ has_addresses s1) as Hno.
  { intros [[ip Hp] _]. simpl in Hp. congruence. }
  destruct (quiet_probe_then E _ (quiet_render_icon E) s1) as (tr1 & _ & Hlog1 & Htr1).
  destruct (quiet_probe_then E _ (quiet_tooltip E) (exec (_render_icon E) s1))
    as (tr2 & _ & Hlog2 & Htr2).
  unfold exec in *.
  destruct (_render_icon E s1) as [rimg s2] eqn:Hrender. simpl in *.
  assert (∃ img, rimg = Ok img ∧ icon_visible s2 = icon_visible s0) as (img & -> & Hvis2).
  { unfold _render_icon, bind in Hrender. rewrite is_proxy_on_eq, is_redsocks_on_eq in Hrender.
    destruct (icon_style _ _). injection Hrender as <- <-. by eexists. }
  assert (¬ has_addresses s2) as Hno2.
  { intros Haddr. apply Hno. unfold _render_icon, bind in Hrender.
    rewrite is_proxy_on_eq, is_redsocks_on_eq in Hrender.
    destruct (icon_style _ _). injection Hrender as _ <-. exact Haddr. }
  destruct (tooltip_without_address E s2 Hno2) as [s3 Htip].
  rewrite Htip in Hlog2. simpl in Hlog2.
  assert (icon_visible s3 = icon_visible s2) as Hvis3.
  { unfold _tooltip, bind in Htip. rewrite is_proxy_on_eq, is_redsocks_on_eq in Htip.
    unfold get, getitem in Htip. simpl in Htip.
    destruct (proxy_selection s2 !! "ip"); simpl in Htip;
      [destruct (redsocks_selection s2 !! "ip"); simpl in Htip|];
      first [discriminate Htip | by injection Htip as <-]. }
  assert (main E s0 = (Raise (KeyError "ip"), s3)) as Hmain.
  { unfold main. rewrite (bind_ok _ _ _ _ _ Hinit). unfold run.
    rewrite (bind_ok _ _ _ _ _ Hrender). by rewrite (bind_raise _ _ _ _ _ Htip). }
  rewrite Hmain. simpl. split_and!; [done| |congruence].
  erewrite new_events_app; [|rewrite Hlog2, Hlog1; simpl; by rewrite <- app_assoc].
  by rewrite notifications_app, (spawns_no_notification _ Htr1),
    (spawns_no_notification _ Htr2).
Qed.

Lemma main_raises_without_address_witness :
  catalog addressless_world sample_state = Ok [<["name" := "A"]> ∅; record_B]
  ∧ fst (main addressless_world sample_state) = Raise (KeyError "ip").
Proof.
  split; [reflexivity|].
  apply (main_raises_without_address addressless_world sample_state
           (<["name" := "A"]> ∅) [record_B] eq_refl eq_refl).
Defined.

(** ** Mutations, beyond the failing call *)

Lemma guarded_action_report E {A} (calls : M A) (after : M unit)
    (err_title : string) (planned : list (list string)) (s : state)
    (Q : string → string → string → Prop) :
  checked_calls calls planned s →
  (∀ s0, selections s0 = selections s →
     ∃ title body urgency,
       try_except after (λ exc, _notify err_title (exn_str E exc) "critical") s0
       = (Ok tt, record_event (Notify title body urgency) s0)
       ∧ Q title body urgency) →
  action_report E
    (try_except (calls ;;; after) (λ exc, _notify err_title (exn_str E exc) "critical") ;;;
     _refresh E)
    s planned err_title Q.
Proof.
  intros (writes & Hlog & Hsel & Hargv & Hmut & Hres) Hafter.
  unfold exec in *. destruct (calls s) as [[a|e] s1] eqn:Hcalls; simpl in *.
  - destruct Hres as [Hlen Hall].
    destruct (Hafter s1 Hsel) as (title & body & urgency & Hrep & HQ).
    exists (record_event (Notify title body urgency) s1), writes, [Notify title body urgency].
    split_and!; [|simpl; by rewrite Hlog, <- app_assoc|done|done|done|left; eauto 10].
    erewrite bind_ok; [done|]. rewrite <- Hrep.
    unfold try_except. by rewrite (bind_ok _ _ _ _ _ Hcalls).
  - exists (record_event (Notify err_title (exn_str E e) "critical") s1), writes,
           [Notify err_title (exn_str E e) "critical"].
    split_and!; [|simpl; by rewrite Hlog, <- app_assoc|done|done|done|].
    + erewrite bind_ok; [done|]. erewrite try_raise; [done|].
      by rewrite (bind_raise _ _ _ _ _ Hcalls).
    + right. destruct Hres as (ws & w & -> & Hall & Hw). eauto 10.
Qed.

(** What an action with a report leaves in the log, refresh included. *)
Lemma action_report_observed E (m : M unit) (s : state) (planned : list (list string))
    (err_title : string) (Q : string → string → string → Prop) :
  action_report E m s planned err_title Q →
  let tr := new_events s (exec m s) in
  (¬ Exists is_failed_mutation tr →
   map event_argv (mutation_calls tr) = planned
   ∧ ∃ title body urgency, notifications tr = [Notify title body urgency]
                           ∧ Q title body urgency)
  ∧ map event_argv (mutation_calls tr) `prefix_of` planned
  ∧ Forall (λ e, is_probe e ∨ is_notification e = true ∨ event_argv e ∈ planned) tr.
Proof.
  intros (s1 & writes & tail & Hrun & Hlog & Hsel & Hargv & Hmut & Hcases) tr.
  destruct (after_refresh E s s1 (writes ++ tail) Hlog Hsel) as (probes & Hprobes & Htr & _).
  subst tr. unfold exec. rewrite Hrun. fold (exec (_refresh E) s1). rewrite Htr.
  assert (∃ title body urgency, tail = [Notify title body urgency])
    as (title & body & urgency & Htail).
  { destruct Hcases as [(_ & _ & ? & ? & ? & ? & _)|(? & ? & ? & _ & _ & _ & ->)]; eauto. }
  assert (mutation_calls ((writes ++ tail) ++ probes) = writes) as Hws.
  { unfold mutation_calls. rewrite !filter_app.
    rewrite (filter_all _ (λ e, is_mutation_call e = true) writes) by done.
    fold (mutation_calls probes). rewrite (probes_no_mutation _ Hprobes).
    subst tail. simpl. by rewrite ?app_nil_r. }
  assert (notifications ((writes ++ tail) ++ probes) = tail) as Hns.
  { rewrite !notifications_app, (probes_no_notification _ Hprobes).
    assert (notifications writes = []) as ->.
    { apply (filter_none _ (λ e, is_mutation_call e = true)); [|done]. by intros []. }
    subst tail. simpl. by rewrite ?app_nil_r. }
  rewrite Hws, Hns. split_and!.
  - intros Hnone.
    destruct Hcases as [(Hlen & _ & t & b & u & -> & HQ)|(ws & w & b & -> & _ & Hw & _)].
    + split; [|by eauto]. by rewrite Hargv, Hlen, firstn_all.
    + destruct Hnone. rewrite !Exists_app. left. left. right.
      apply Exists_cons_hd. by rewrite Hw.
  - rewrite Hargv. apply prefix_take.
  - rewrite !Forall_app. split_and!.
    + apply Forall_forall. intros e He. right. right.
      assert (event_argv e ∈ map event_argv writes) as Hin by (by apply list_elem_of_fmap_2).
      rewrite Hargv in Hin. by apply (subseteq_take (length writes) planned).
    + subst tail. constructor; [right; by left | constructor].
    + eapply Forall_impl; [done|]. by left.
Qed.

Lemma mutation_report E (it : menu_item) (s : state) :
  is_mutation it = true →
  (∀ sel, enabled_selection it s = Some sel → is_Some (sel !! "ip")) →
  action_report E (callback E it) s (planned_calls it s) (error_title it)
    (success_report E it s).
Proof.
  intros Hit Hip. destruct it; try done; simpl.
  - destruct (Hip _ eq_refl) as [ip Hsel]. clear Hip.
    unfold action_report, planned_writes. rewrite Hsel.
    assert (_enable_proxy E s =
            (try_except
               (for_each
                  (proxy_settings (proxy_url ip (dict_get (proxy_selection s) "user" "")
                                     (dict_get (proxy_selection s) "password" "")))
                  (λ kv, subprocess_run E (kwriteconfig6 (fst kv) (snd kv)) 5 true ;;; ret tt) ;;;
                (let* sel' := get proxy_selection in
                 let* name := getitem sel' "name" in
                 _notify "Proxy ON"
                   ("System proxy → " +:+ name +:+ " (" +:+ ip +:+ ":" +:+ PROXY_PORT +:+ ")")
                   "normal"))
               (λ exc, _notify "Proxy Error" (exn_str E exc) "critical") ;;;
             _refresh E) s) as ->.
    { unfold _enable_proxy. unfold bind at 1, get at 1. unfold bind at 1, getitem at 1.
      by rewrite Hsel. }
    apply (guarded_action_report E _ _ "Proxy Error" _ s); [apply for_each_writes|].
    intros s0 [= Hp _]. unfold success_report, try_except, bind, get, getitem. simpl.
    rewrite Hp. destruct (proxy_selection s !! "name"); simpl; eauto 10.
  - apply (guarded_action_report E _ _ "Proxy Error" _ s).
    + by apply single_checked_call.
    + intros s0 _. by eexists _, _, _.
  - destruct (Hip _ eq_refl) as [ip Hsel]. clear Hip.
    unfold action_report. rewrite Hsel.
    assert (_enable_redsocks E s =
            (try_except
               (subprocess_run E (pkexec_enable ip) 30 true ;;;
                (let* sel' := get redsocks_selection in
                 let* name := getitem sel' "name" in
                 _notify "Redsocks ON"
                   ("Transparent proxy via " +:+ name +:+ " (" +:+ ip +:+ ")") "normal"))
               (λ exc, _notify "Redsocks Error" (exn_str E exc) "critical") ;;;
             _refresh E) s) as ->.
    { unfold _enable_redsocks. unfold bind at 1, get at 1. unfold bind at 1, getitem at 1.
      by rewrite Hsel. }
    apply (guarded_action_report E _ _ "Redsocks Error" _ s).
    + by apply single_checked_call.
    + intros s0 [= _ Hr]. unfold success_report, try_except, bind, get, getitem. simpl.
      rewrite Hr. destruct (redsocks_selection s !! "name"); simpl; eauto 10.
  - apply (guarded_action_report E _ _ "Redsocks Error" _ s).
    + by apply single_checked_call.
    + intros s0 _. by eexists _, _, _.
Qed.

(** X9. A mutation none of whose external calls fails makes every call it
    planned, in order, and emits exactly one notification, of normal
    urgency, provided an enable action finds an address and a name in the
    selection it reads. *)
Theorem successful_mutation_reported_once (E : env) (it : menu_item) (s : state) :
  is_mutation it = true →
  (∀ sel, enabled_selection it s = Some sel →
          is_Some (sel !! "ip") ∧ is_Some (sel !! "name")) →
  ¬ Exists is_failed_mutation (new_events s (exec (callback E it) s)) →
  map event_argv (mutation_calls (new_events s (exec (callback E it) s)))
  = planned_calls it s
  ∧ ∃ title body,
      notifications (new_events s (exec (callback E it) s)) = [Notify title body "normal"].
Proof.
  intros Hit Hsel Hnone.
  assert (∀ sel, enabled_selection it s = Some sel → is_Some (sel !! "ip")) as Hip
    by (intros sel Hs; by apply Hsel).
  destruct (action_report_observed E _ s _ _ _ (mutation_report E it s Hit Hip))
    as (Hok & _ & _).
  destruct (Hok Hnone) as (Hcalls & title & body & urgency & Hnot & HQ).
  split; [done|]. exists title, body. rewrite Hnot.
  unfold success_report in HQ. destruct (enabled_selection it s) as [sel|] eqn:Hen.
  - destruct (Hsel sel eq_refl) as [_ [name Hname]]. rewrite Hname in HQ. by subst.
  - by subst.
Qed.

Lemma successful_mutation_reported_once_witness :
  let E := sample_world all_succeed in
  let tr := new_events sample_state (exec (callback E EnableProxy) sample_state) in
  ¬ Exists is_failed_mutation tr
  ∧ map event_argv (mutation_calls tr) = planned_writes record_A
  ∧ ∃ title body, notifications tr = [Notify title body "normal"].
Proof.
  intros E tr.
  assert (¬ Exists is_failed_mutation tr) as Hnone.
  { intros Hex. apply Exists_exists in Hex as (e & Hin & He).
    vm_compute in Hin. repeat (apply elem_of_cons in Hin as [->|Hin]; [exact He|]).
    by apply elem_of_nil in Hin. }
  split; [exact Hnone|].
  apply (successful_mutation_reported_once E EnableProxy sample_state eq_refl);
    [|exact Hnone].
  intros sel [= <-]. split; eexists; reflexivity.
Defined.

(** X10. An enable action whose selection has an address but no name still
    makes every planned call, and when none of them fails it reports an
    error all the same: its one notification is the critical one, carrying
    the KeyError for the missing name. *)
Theorem enable_with_unnamed_selection (E : env) (it : menu_item) (s : state)
    (sel : record) :
  enabled_selection it s = Some sel →
  is_Some (sel !! "ip") →
  sel !! "name" = None →
  ¬ Exists is_failed_mutation (new_events s (exec (callback E it) s)) →
  map event_argv (mutation_calls (new_events s (exec (callback E it) s)))
  = planned_calls it s
  ∧ notifications (new_events s (exec (callback E it) s))
    = [Notify (error_title it) (exn_str E (KeyError "name")) "critical"].
Proof.
  intros Hen Hip Hname Hnone.
  assert (is_mutation it = true) as Hit by (by destruct it).
  assert (∀ sel', enabled_selection it s = Some sel' → is_Some (sel' !! "ip")) as Hip'
    by (intros sel' Hs; congruence).
  destruct (action_report_observed E _ s _ _ _ (mutation_report E it s Hit Hip'))
    as (Hok & _ & _).
  destruct (Hok Hnone) as (Hcalls & title & body & urgency & Hnot & HQ).
  split; [done|]. rewrite Hnot.
  unfold success_report in HQ. rewrite Hen, Hname in HQ.
  by destruct HQ as (-> & -> & ->).
Qed.

Lemma enable_with_unnamed_selection_witness :
  let E := sample_world all_succeed in
  let tr := new_events unnamed_state (exec (callback E EnableProxy) unnamed_state) in
  length (mutation_calls tr) = 5
  ∧ notifications tr = [Notify "Proxy Error" "name" "critical"].
Proof.
  intros E tr.
  assert (¬ Exists is_failed_mutation tr) as Hnone.
  { intros Hex. apply Exists_exists in Hex as (e & Hin & He).
    vm_compute in Hin. repeat (apply elem_of_cons in Hin as [->|Hin]; [exact He|]).
    by apply elem_of_nil in Hin. }
  destruct (enable_with_unnamed_selection E EnableProxy unnamed_state record_unnamed
              eq_refl (ex_intro _ "10.0.0.3" eq_refl) eq_refl Hnone) as [Hcalls Hnot].
  split; [|exact Hnot].
  rewrite <- (length_map event_argv). unfold tr. rewrite Hcalls. reflexivity.
Defined.

(** X11. A mutation spawns nothing but the calls planned for it and the
    probes of its refresh: the mutating commands it sends are an initial
    segment of its plan, so the system-proxy actions never call the
    redsocks helper and the redsocks actions never write the proxy
    configuration. *)
Theorem mutation_spawns_only_planned (E : env) (it : menu_item) (s : state) :
  is_mutation it = true →
  map event_argv (mutation_calls (new_events s (exec (callback E it) s)))
    `prefix_of` planned_calls it s
  ∧ Forall (λ e, is_probe e ∨ is_notification e = true
                 ∨ event_argv e ∈ planned_calls it s)
      (new_events s (exec (callback E it) s)).
Proof.
  intros Hit.
  assert ((∀ sel, enabled_selection it s = Some sel → is_Some (sel !! "ip"))
          ∨ ∃ e, callback E it s = (Raise e, s)) as [Hip|[e Hraise]].
  { destruct it; try done; simpl.
    - destruct (proxy_selection s !! "ip") eqn:Hsel.
      + left. intros sel [= <-]. by rewrite Hsel.
      + right. eexists. by apply enable_proxy_without_ip.
    - left. by intros sel [=].
    - destruct (redsocks_selection s !! "ip") eqn:Hsel.
      + left. intros sel [= <-]. by rewrite Hsel.
      + right. eexists. by apply enable_redsocks_without_ip.
    - left. by intros sel [=]. }
  - destruct (action_report_observed E _ s _ _ _ (mutation_report E it s Hit Hip))
      as (_ & Hprefix & Hall). done.
  - unfold exec. rewrite Hraise. simpl. rewrite new_events_same. split; [|done].
    apply prefix_nil.
Qed.

Lemma mutation_spawns_only_planned_witness :
  let E := sample_world third_call_fails in
  map event_argv (mutation_calls (new_events sample_state
                                    (exec (callback E EnableProxy) sample_state)))
    `prefix_of` planned_writes record_A.
Proof.
  intros E. apply (mutation_spawns_only_planned E EnableProxy sample_state eq_refl).
Defined.

(** X12. An enable action whose selection has no address raises KeyError at
    once: nothing is spawned, nothing is notified, and the refresh that
    ends every other path does not run. *)
Theorem enable_without_address (E : env) (it : menu_item) (s : state) (sel : record) :
  enabled_selection it s = Some sel →
  sel !! "ip" = None →
  callback E it s = (Raise (KeyError "ip"), s).
Proof.
  intros Hen Hip. destruct it; try done; simpl in *; injection Hen as <-.
  - by apply enable_proxy_without_ip.
  - by apply enable_redsocks_without_ip.
Qed.

Lemma enable_without_address_witness :
  callback (sample_world all_succeed) EnableProxy addressless_state
  = (Raise (KeyError "ip"), addressless_state).
Proof.
  apply (enable_without_address (sample_world all_succeed) EnableProxy addressless_state ∅
           eq_refl eq_refl).
Defined.

(** ** Nothing raises while the selections hold an address *)

Lemma refresh_ok E (s : state) : has_addresses s → fst (_refresh E s) = Ok tt.
Proof.
  intros [[pip Hpip] [rip Hrip]]. rewrite refresh_run. by rewrite Hpip, Hrip.
Qed.

Lemma monitor_ok E (fuel : nat) (s : state) : fst (_monitor E fuel s) = Ok tt.
Proof.
  revert s. induction fuel as [|fuel IH]; intros s; simpl; [done|].
  unfold bind at 1, get at 1. destruct (_running s); [|done].
  unfold bind at 1, modify at 1. unfold bind at 1, try_except.
  destruct (_refresh E _) as [[[]|e] s1]; apply IH.
Qed.

(** X13. While both selections hold an address, no menu action other than
    the pickers raises, nor does opening the menu or a pass of the
    background loop: each returns normally whatever the external commands
    do. *)
Theorem no_exception_with_addresses (E : env) (a : activity) (s : state) :
  has_addresses s → not_a_picker a → fst (perform E a s) = Ok tt.
Proof.
  intros Haddr [Hp Hr]. destruct a as [|it|]; simpl.
  - destruct Haddr as [[pip Hpip] [rip Hrip]].
    unfold proxy_label, redsocks_label, bind. rewrite is_proxy_on_eq.
    unfold get, getitem. simpl. rewrite Hpip. simpl.
    rewrite is_redsocks_on_eq. simpl. by rewrite Hrip.
  - destruct it; try done.
    + destruct (mutation_report E EnableProxy s eq_refl)
        as (s1 & _ & _ & Hrun & _ & Hsel & _);
        [intros sel [= <-]; apply Haddr|].
      rewrite Hrun. apply refresh_ok.
      by apply (has_addresses_selections s).
    + destruct (mutation_report E DisableProxy s eq_refl)
        as (s1 & _ & _ & Hrun & _ & Hsel & _); [by intros sel [=]|].
      rewrite Hrun. apply refresh_ok.
      by apply (has_addresses_selections s).
    + destruct (mutation_report E EnableRedsocks s eq_refl)
        as (s1 & _ & _ & Hrun & _ & Hsel & _);
        [intros sel [= <-]; apply Haddr|].
      rewrite Hrun. apply refresh_ok.
      by apply (has_addresses_selections s).
    + destruct (mutation_report E DisableRedsocks s eq_refl)
        as (s1 & _ & _ & Hrun & _ & Hsel & _); [by intros sel [=]|].
      rewrite Hrun. apply refresh_ok.
      by apply (has_addresses_selections s).
  - apply (monitor_ok E 1 s).
Qed.

Lemma no_exception_with_addresses_witness :
  let E := sample_world third_call_fails in
  has_addresses sample_state ∧ not_a_picker (Click EnableProxy)
  ∧ fst (perform E (Click EnableProxy) sample_state) = Ok tt.
Proof.
  intros E.
  assert (has_addresses sample_state) as Haddr by (split; eexists; reflexivity).
  assert (not_a_picker (Click EnableProxy)) as Hnp by (split; discriminate).
  split_and!; [exact Haddr | exact Hnp |].
  apply (no_exception_with_addresses E (Click EnableProxy) sample_state Haddr Hnp).
Defined.

(** ** The picker, beyond cancellation *)

Lemma find_choice_first (proxies : list record) (choice : string) (s : state)
    (i : nat) (p : record) :
  Forall (λ q, is_Some (q !! "ip") ∧ is_Some (q !! "name")) proxies →
  list_find (λ q, q !! "ip" = Some choice) proxies = Some (i, p) →
  find_choice proxies choice s = (Ok (Some p), s).
Proof.
  intros Hall Hfind. apply list_find_Some in Hfind as (Hlook & Hp & Hfirst).
  revert i Hlook Hfirst.
  induction Hall as [|q rest [[ip Hip] _] _ IH]; intros i Hlook Hfirst; [done|].
  simpl. unfold bind, getitem. rewrite Hip. simpl.
  destruct (String.eqb_spec ip choice) as [->|Hne].
  - destruct i as [|i]; [by injection Hlook as <-|].
    destruct (Hfirst 0 q); [done | lia | done].
  - destruct i as [|i]; [simpl in Hlook; congruence|].
    apply (IH i); [done|]. intros j y Hj Hlt. apply (Hfirst (S j) y); [done | lia].
Qed.

(** The change action once the picker has returned a record. *)
Lemma change_installs E (sub : subsystem) (s s1 : state) (res : record) (name ip : string) :
  _pick_proxy E (picker_title sub) (selection_of sub s) s = (Ok (Some res), s1) →
  res !! "name" = Some name → res !! "ip" = Some ip →
  change E sub s
  = _refresh E (record_event (changed_notice sub name ip) (set_selection sub res s1)).
Proof.
  intros Hpick Hname Hip.
  assert (truthy_record res = true) as Htruthy by (apply truthy_record_with_ip; by eexists).
  destruct sub; simpl in *.
  - unfold _change_proxy. unfold bind at 1, get at 1.
    rewrite (bind_ok _ _ _ _ _ Hpick), Htruthy.
    unfold bind, modify, getitem, _notify. simpl. by rewrite Hname, Hip.
  - unfold _change_redsocks_proxy. unfold bind at 1, get at 1.
    rewrite (bind_ok _ _ _ _ _ Hpick), Htruthy.
    unfold bind, modify, getitem, _notify. simpl. by rewrite Hname, Hip.
Qed.

(** What a change action that installs a record leaves behind. *)
Lemma change_installed E (sub : subsystem) (s s1 : state) (res : record) (name ip : string)
    (pre : list event) :
  _pick_proxy E (picker_title sub) (selection_of sub s) s = (Ok (Some res), s1) →
  res !! "name" = Some name → res !! "ip" = Some ip →
  log s1 = (log s ++ pre)%list → Forall is_spawn pre →
  selection_of sub (exec (change E sub) s) = res
  ∧ selection_of (other sub) (exec (change E sub) s) = selection_of (other sub) s
  ∧ notifications (new_events s (exec (change E sub) s)) = [changed_notice sub name ip].
Proof.
  intros Hpick Hname Hip Hlog Hpre.
  destruct (change_with_pick E sub s s1 res Hpick) as [Hown Hother].
  split_and!; [done|done|].
  unfold exec. rewrite (change_installs E sub s s1 res name ip Hpick Hname Hip).
  set (s2 := record_event (changed_notice sub name ip) (set_selection sub res s1)).
  destruct (quiet_refresh E s2) as (probes & _ & Hlog2 & Hprobes).
  unfold exec in Hlog2.
  assert (log s2 = (log s1 ++ [changed_notice sub name ip])%list) as Hlog1
    by (subst s2; by destruct sub).
  rewrite (new_events_app s _ (pre ++ [changed_notice sub name ip] ++ probes))
    by (by rewrite Hlog2, Hlog1, Hlog, <- !app_assoc).
  rewrite !notifications_app, (spawns_no_notification _ Hpre),
    (probes_no_notification _ Hprobes).
  by destruct sub.
Qed.

(** X14. When the radiolist returns the address of a catalog record, the
    picker returns the first record of the catalog with that address; the
    change action installs it for its own subsystem, leaves the other
    selection alone, and emits exactly one notification, the normal one
    naming the record and its address. *)
Theorem pick_from_catalog (E : env) (sub : subsystem) (s : state) (p : record) :
  chosen E (picker_title sub) (selection_of sub s) s p →
  (∃ s1, _pick_proxy E (picker_title sub) (selection_of sub s) s = (Ok (Some p), s1))
  ∧ selection_of sub (exec (change E sub) s) = p
  ∧ selection_of (other sub) (exec (change E sub) s) = selection_of (other sub) s
  ∧ ∃ name ip, p !! "name" = Some name ∧ p !! "ip" = Some ip
               ∧ notifications (new_events s (exec (change E sub) s))
                 = [changed_notice sub name ip].
Proof.
  intros [proxies argv out i Hcat Hargv Hrun Hcustom Hfind].
  assert (proxies ≠ []) as Hne by (by intros ->).
  pose proof (pick_proxy_dialogue E _ _ s proxies argv Hcat Hne Hargv) as Hpick.
  apply radiolist_argv_entries in Hargv as (args & Hent & _).
  apply radiolist_entries_ok in Hent.
  apply list_find_Some in Hfind as Hp. destruct Hp as (Hlook & Hip & _).
  assert (is_Some (p !! "name")) as [name Hname].
  { rewrite Forall_forall in Hent. by apply (Hent p), list_elem_of_lookup_2 with i. }
  unfold try_except, bind in Hpick. rewrite subprocess_run_eq, Hrun in Hpick. simpl in Hpick.
  apply String.eqb_neq in Hcustom. rewrite Hcustom in Hpick.
  rewrite (find_choice_first _ _ _ i p Hent Hfind) in Hpick.
  destruct (change_installed E sub s _ p name (Py.strip out)
              [Spawn argv 120 (Completed 0 out)] Hpick Hname Hip)
    as (Hown & Hother & Hnot); [done | by repeat constructor |].
  split_and!; [by eexists | done | done | by exists name, (Py.strip out)].
Qed.

Lemma pick_from_catalog_witness :
  let E := sample_world picks_B in
  chosen E (picker_title Redsocks) (selection_of Redsocks sample_state) sample_state record_B
  ∧ selections (exec (change E Redsocks) sample_state) = (record_A, record_B)
  ∧ notifications (new_events sample_state (exec (change E Redsocks) sample_state))
    = [Notify "Redsocks Proxy Changed" "Redsocks proxy → B (10.0.0.2)" "normal"].
Proof.
  intros E.
  assert (chosen E (picker_title Redsocks) (selection_of Redsocks sample_state)
            sample_state record_B) as Hchosen.
  { eapply (chosen_from_catalog E _ _ _ _ [record_A; record_B] _ _ 1);
      [reflexivity | reflexivity | reflexivity | discriminate | reflexivity]. }
  split; [exact Hchosen|].
  destruct (pick_from_catalog E Redsocks sample_state record_B Hchosen)
    as (_ & Hown & Hother & name & ip & Hname & Hip & Hnot).
  injection Hname as <-. injection Hip as <-.
  split; [|exact Hnot].
  exact (f_equal2 pair Hother Hown).
Defined.

Lemma custom_pick E (title : string) (cur : record) (s : state) (addr : string) :
  custom_entered E title cur s addr →
  ∃ s1 pre,
    _pick_proxy E title cur s
    = (Ok (Some (make_record "Custom" addr "edcguest" "edcguest")), s1)
    ∧ log s1 = (log s ++ pre)%list
    ∧ Forall is_spawn pre.
Proof.
  intros [proxies argv out ip out2 Hcat Hne Hargv Hrun Hcustom Hip Hrun2 Haddr Hfull].
  pose proof (pick_proxy_dialogue E _ _ s proxies argv Hcat Hne Hargv) as Hpick.
  unfold try_except, bind in Hpick. rewrite subprocess_run_eq, Hrun in Hpick.
  simpl in Hpick. rewrite Hcustom in Hpick. simpl in Hpick.
  unfold getitem in Hpick. rewrite Hip in Hpick. simpl in Hpick.
  rewrite subprocess_run_eq in Hpick. simpl in Hpick. rewrite Hrun2 in Hpick.
  simpl in Hpick. rewrite Haddr in Hpick.
  assert (Py.truthy addr = true) as Htruthy by (by destruct addr).
  rewrite Htruthy in Hpick. simpl in Hpick.
  eexists _, [Spawn argv 120 (Completed 0 out); Spawn (inputbox ip) 120 (Completed 0 out2)].
  split_and!; [exact Hpick | | by repeat constructor].
  simpl. by rewrite <- app_assoc.
Qed.

(** X15. When the custom entry is chosen and the input box is confirmed
    with non-blank text, the picker returns a record named "Custom" whose
    address is that text stripped of surrounding blanks, with the fixed
    credentials; the change action installs it, whether or not the catalog
    knows the address, and emits the one normal notification. *)
Theorem pick_custom_address (E : env) (sub : subsystem) (s : state) (addr : string) :
  custom_entered E (picker_title sub) (selection_of sub s) s addr →
  selection_of sub (exec (change E sub) s)
  = make_record "Custom" addr "edcguest" "edcguest"
  ∧ selection_of (other sub) (exec (change E sub) s) = selection_of (other sub) s
  ∧ notifications (new_events s (exec (change E sub) s))
    = [changed_notice sub "Custom" addr].
Proof.
  intros Hcustom.
  destruct (custom_pick E _ _ s addr Hcustom) as (s1 & pre & Hpick & Hlog & Hpre).
  apply (change_installed E sub s s1 _ "Custom" addr pre Hpick); [|  |done|done].
  - apply lookup_insert_eq.
  - apply make_record_ip.
Qed.

Lemma pick_custom_address_witness :
  let E := sample_world custom_then_address in
  custom_entered E (picker_title SystemProxy) (selection_of SystemProxy sample_state)
    sample_state "192.168.1.9"
  ∧ proxy_selection (exec (change E SystemProxy) sample_state)
    = make_record "Custom" "192.168.1.9" "edcguest" "edcguest".
Proof.
  intros E.
  assert (custom_entered E (picker_title SystemProxy)
            (selection_of SystemProxy sample_state) sample_state "192.168.1.9") as Hcustom.
  { eapply (custom_confirmed E _ _ _ _ [record_A; record_B] _ _ "10.0.0.1");
      [reflexivity | discriminate | reflexivity | reflexivity | reflexivity
      | reflexivity | reflexivity | reflexivity | discriminate]. }
  split; [exact Hcustom|].
  apply (pick_custom_address E SystemProxy sample_state "192.168.1.9" Hcustom).
Defined.

(** X16. When a dialog of the picker does not complete (tool missing,
    timeout), at the radiolist or at the input box, the picker returns no
    record and the change action emits exactly one notification, the
    critical "Error" carrying the failure, and leaves both selections. *)
Theorem pick_dialog_failure (E : env) (sub : subsystem) (s : state) (detail : string) :
  dialog_failed E (picker_title sub) (selection_of sub s) s detail →
  (∃ s1, _pick_proxy E (picker_title sub) (selection_of sub s) s = (Ok None, s1))
  ∧ selections (exec (change E sub) s) = selections s
  ∧ notifications (new_events s (exec (change E sub) s))
    = [Notify "Error" (exn_str E (ExternalError detail)) "critical"].
Proof.
  intros Hfailed.
  assert (∃ s1 pre,
            _pick_proxy E (picker_title sub) (selection_of sub s) s = (Ok None, s1)
            ∧ log s1 = (log s ++ pre
                        ++ [Notify "Error" (exn_str E (ExternalError detail)) "critical"])%list
            ∧ Forall is_spawn pre
            ∧ selections s1 = selections s) as (s1 & pre & Hpick & Hlog & Hpre & Hsel).
  { destruct Hfailed as [proxies argv Hcat Hne Hargv Hrun
                        |proxies argv out ip Hcat Hne Hargv Hrun Hcustom Hip Hrun2];
      rewrite (pick_proxy_dialogue E _ _ s proxies argv Hcat Hne Hargv);
      unfold try_except, bind; rewrite subprocess_run_eq, Hrun; simpl.
    - eexists _, [Spawn argv 120 (Aborted detail)].
      split_and!; [done | | by repeat constructor | done].
      simpl. by rewrite <- app_assoc.
    - rewrite Hcustom. simpl. unfold getitem. rewrite Hip. simpl.
      rewrite subprocess_run_eq. simpl. rewrite Hrun2. simpl.
      eexists _, [Spawn argv 120 (Completed 0 out); Spawn (inputbox ip) 120 (Aborted detail)].
      split_and!; [done | | by repeat constructor | done].
      simpl. by rewrite <- !app_assoc. }
  split; [by exists s1|].
  assert (change E sub s = _refresh E s1) as Hrun.
  { destruct sub; simpl in *.
    - unfold _change_proxy. unfold bind at 1, get at 1. by rewrite (bind_ok _ _ _ _ _ Hpick).
    - unfold _change_redsocks_proxy. unfold bind at 1, get at 1.
      by rewrite (bind_ok _ _ _ _ _ Hpick). }
  destruct (after_refresh E s s1 _ Hlog Hsel) as (probes & Hprobes & Htr & Hsel').
  unfold exec. rewrite Hrun. fold (exec (_refresh E) s1). split; [done|].
  rewrite Htr, !notifications_app, (probes_no_notification _ Hprobes),
    (spawns_no_notification _ Hpre).
  done.
Qed.

Lemma pick_dialog_failure_witness :
  let E := sample_world no_display in
  dialog_failed E (picker_title SystemProxy) (selection_of SystemProxy sample_state)
    sample_state "cannot connect to display"
  ∧ selections (exec (change E SystemProxy) sample_state) = selections sample_state
  ∧ notifications (new_events sample_state (exec (change E SystemProxy) sample_state))
    = [Notify "Error" "cannot connect to display" "critical"].
Proof.
  intros E.
  assert (dialog_failed E (picker_title SystemProxy)
            (selection_of SystemProxy sample_state) sample_state
            "cannot connect to display") as Hfailed.
  { eapply (radiolist_failed E _ _ _ _ [record_A; record_B]);
      [reflexivity | discriminate | reflexivity | reflexivity]. }
  split; [exact Hfailed|].
  apply (pick_dialog_failure E SystemProxy sample_state _ Hfailed).
Defined.

(** X17. With an empty catalog the picker shows no dialog: it emits the
    critical "No Proxies" notification and returns no record; the change
    action spawns nothing but the probes of its refresh and leaves both
    selections. *)
Theorem pick_with_empty_catalog (E : env) (sub : subsystem) (s : state) :
  catalog E s = Ok [] →
  _pick_proxy E (picker_title sub) (selection_of sub s) s
  = (Ok None,
     record_event (Notify "No Proxies" "proxies.json is empty or missing" "critical") s)
  ∧ selections (exec (change E sub) s) = selections s
  ∧ notifications (new_events s (exec (change E sub) s))
    = [Notify "No Proxies" "proxies.json is empty or missing" "critical"]
  ∧ Forall (λ e, is_probe e ∨ is_notification e = true)
      (new_events s (exec (change E sub) s)).
Proof.
  intros Hcat. apply catalog_load in Hcat.
  assert (_pick_proxy E (picker_title sub) (selection_of sub s) s
          = (Ok None,
             record_event (Notify "No Proxies" "proxies.json is empty or missing" "critical") s))
    as Hpick.
  { unfold _pick_proxy. by rewrite (bind_ok _ _ _ _ _ Hcat). }
  split; [done|].
  set (s1 := record_event _ s) in Hpick.
  assert (change E sub s = _refresh E s1) as Hrun.
  { destruct sub; simpl in *.
    - unfold _change_proxy. unfold bind at 1, get at 1. by rewrite (bind_ok _ _ _ _ _ Hpick).
    - unfold _change_redsocks_proxy. unfold bind at 1, get at 1.
      by rewrite (bind_ok _ _ _ _ _ Hpick). }
  destruct (after_refresh E s s1
              [Notify "No Proxies" "proxies.json is empty or missing" "critical"])
    as (probes & Hprobes & Htr & Hsel); [done..|].
  unfold exec. rewrite Hrun. fold (exec (_refresh E) s1). rewrite Htr.
  split_and!; [done | |].
  - by rewrite notifications_app, (probes_no_notification _ Hprobes).
  - apply Forall_app. split; [by repeat constructor; right|].
    eapply Forall_impl; [done|]. by left.
Qed.

Lemma pick_with_empty_catalog_witness :
  catalog bare_world sample_state = Ok []
  ∧ notifications (new_events sample_state
                     (exec (change bare_world Redsocks) sample_state))
    = [Notify "No Proxies" "proxies.json is empty or missing" "critical"].
Proof.
  split; [reflexivity|].
  apply (pick_with_empty_catalog bare_world Redsocks sample_state eq_refl).
Defined.

(** ** The command line of the radiolist *)

Lemma radiolist_entries_listable (proxies : list record) (cur : record) (c : string)
    (args : list string) (s : state) :
  Forall listable proxies → cur !! "ip" = Some c →
  radiolist_entries proxies cur args s
  = (Ok (args ++ concat (radiolist_triple c <$> proxies))%list, s).
Proof.
  intros Hall Hcur. revert args.
  induction Hall as [|p rest [[ip Hip] [name Hname]] _ IH]; intros args; simpl.
  - by rewrite app_nil_r.
  - unfold bind at 1, getitem at 1. rewrite Hip. unfold ret at 1.
    unfold bind at 1, getitem at 1. rewrite Hname. unfold ret at 1.
    unfold bind at 1, getitem at 1. rewrite Hcur. unfold ret at 1.
    rewrite IH. simpl. by rewrite <- app_assoc.
Qed.

Lemma radiolist_entries_unlistable (proxies : list record) (cur : record)
    (args : list string) (s : state) :
  Exists (λ p, ¬ listable p) proxies ∨ (proxies ≠ [] ∧ cur !! "ip" = None) →
  ∃ key, radiolist_entries proxies cur args s = (Raise (KeyError key), s).
Proof.
  revert args. induction proxies as [|p rest IH]; intros args Hbad.
  - destruct Hbad as [Hex|[? _]]; [by apply Exists_nil in Hex | done].
  - simpl. unfold bind at 1, getitem at 1.
    destruct (p !! "ip") as [ip|] eqn:Hip; [|by eexists].
    unfold ret at 1. unfold bind at 1, getitem at 1.
    destruct (p !! "name") as [name|] eqn:Hname; [|by eexists].
    unfold ret at 1. unfold bind at 1, getitem at 1.
    destruct (cur !! "ip") as [c|] eqn:Hcur; [|by eexists].
    unfold ret at 1. apply IH.
    destruct Hbad as [Hex|[_ ?]]; [|done].
    apply Exists_cons in Hex as [Hp|Hrest]; [|by left].
    destruct Hp. unfold listable. rewrite Hip, Hname. by split; eexists.
Qed.

(** A guarded computation that begins with a command logs that command
    first. *)
Lemma starts_with_spawn {B} E (argv : list string) (t : nat) (chk : bool)
    (k : Z * string → M B) (h : exn → M B) (s : state) :
  (∀ r, quiet any_event (k r)) → (∀ e, quiet any_event (h e)) →
  ∃ tr, log (exec (try_except (bind (subprocess_run E argv t chk) k) h) s)
        = (log s ++ Spawn argv t (spawn E (log s) argv) :: tr)%list.
Proof.
  intros Hk Hh. unfold exec, try_except, bind. rewrite subprocess_run_eq.
  set (s1 := record_event _ s).
  assert (∀ s2 tr, log s2 = (log s1 ++ tr)%list →
            log s2 = (log s ++ Spawn argv t (spawn E (log s) argv) :: tr)%list) as Hext.
  { intros s2 tr ->. subst s1. simpl. by rewrite <- app_assoc. }
  destruct (match spawn E (log s) argv with
            | Completed rc out =>
                if chk && negb (rc =? 0)%Z then Raise (CalledProcessError argv rc)
                else Ok (rc, out)
            | Aborted d => Raise (ExternalError d)
            end) as [r|e].
  - destruct (Hk r s1) as (tr & _ & Hlog & _). unfold exec in Hlog.
    destruct (k r s1) as [[b|e] s2]; simpl in *.
    + exists tr. by apply Hext.
    + destruct (Hh e s2) as (tr' & _ & Hlog' & _). unfold exec in Hlog'.
      exists (tr ++ tr')%list. apply Hext. by rewrite Hlog', Hlog, app_assoc.
  - destruct (Hh e s1) as (tr & _ & Hlog & _). unfold exec in Hlog.
    exists tr. by apply Hext.
Qed.

(** X18. The command line of the radiolist is the dialog header, then for
    each catalog record in order its address, its label "name  (address)"
    and "on" or "off" according to whether its address is that of the
    current selection, then the custom entry, never preselected; it is the
    first thing the picker spawns, with a timeout of 120 seconds. *)
Theorem radiolist_command_line (E : env) (title : string) (cur : record) (s : state)
    (proxies : list record) (c : string) :
  catalog E s = Ok proxies → proxies ≠ [] →
  Forall listable proxies → cur !! "ip" = Some c →
  let argv := (radiolist_head title ++ concat (radiolist_triple c <$> proxies)
               ++ ["__custom__"; "Enter custom IP…"; "off"])%list in
  radiolist_argv title cur proxies s = Ok argv
  ∧ ∃ o rest, new_events s (exec (_pick_proxy E title cur) s) = Spawn argv 120 o :: rest.
Proof.
  intros Hcat Hne Hall Hcur argv.
  assert (radiolist_argv title cur proxies s = Ok argv) as Hargv.
  { unfold radiolist_argv.
    rewrite (radiolist_entries_listable proxies cur c _ s Hall Hcur).
    subst argv. by rewrite <- app_assoc. }
  split; [done|].
  unfold exec. rewrite (pick_proxy_dialogue E title cur s proxies argv Hcat Hne Hargv).
  match goal with |- context [try_except (bind _ ?k) ?h s] =>
    destruct (starts_with_spawn E argv 120 false k h s) as [tr Hlog] end.
  - intros r. cbv beta zeta. destruct (negb _); [apply quiet_ret|].
    destruct (String.eqb _ _); [repeat quiet_step | apply quiet_find_choice].
  - intros e. repeat quiet_step.
  - unfold exec in Hlog. eexists _, tr. by apply new_events_app.
Qed.

Lemma radiolist_command_line_witness :
  let E := sample_world exit_1_print_1 in
  radiolist_argv "Change Redsocks Proxy" record_B [record_A; record_B] sample_state
  = Ok ["kdialog"; "--title"; "Change Redsocks Proxy";
        "--radiolist"; "Select a proxy server:";
        "10.0.0.1"; "A  (10.0.0.1)"; "off";
        "10.0.0.2"; "B  (10.0.0.2)"; "on";
        "__custom__"; "Enter custom IP…"; "off"].
Proof.
  intros E.
  refine (proj1 (radiolist_command_line E "Change Redsocks Proxy" record_B sample_state
                   [record_A; record_B] "10.0.0.2" eq_refl _ _ eq_refl)).
  - discriminate.
  - repeat constructor; eexists; reflexivity.
Defined.

(** X19. When a catalog record lacks an address or a name, or the current
    selection lacks an address while the catalog is not empty, the change
    action raises KeyError before any dialog is shown: nothing is spawned
    or notified, the selections stay, and no refresh runs. *)
Theorem change_raises_on_unlistable (E : env) (sub : subsystem) (s : state)
    (proxies : list record) :
  catalog E s = Ok proxies → proxies ≠ [] →
  Exists (λ p, ¬ listable p) proxies ∨ selection_of sub s !! "ip" = None →
  ∃ key, change E sub s = (Raise (KeyError key), s).
Proof.
  intros Hcat Hne Hbad. apply catalog_load in Hcat.
  destruct (radiolist_entries_unlistable proxies (selection_of sub s)
              (radiolist_head (picker_title sub)) s) as [key Hent]; [tauto|].
  exists key.
  assert (_pick_proxy E (picker_title sub) (selection_of sub s) s = (Raise (KeyError key), s))
    as Hpick.
  { unfold _pick_proxy. rewrite (bind_ok _ _ _ _ _ Hcat).
    destruct proxies as [|p rest]; [done|]. by rewrite (bind_raise _ _ _ _ _ Hent). }
  destruct sub; simpl in *.
  - unfold _change_proxy. unfold bind at 1, get at 1.
    by rewrite (bind_raise _ _ _ _ _ Hpick).
  - unfold _change_redsocks_proxy. unfold bind at 1, get at 1.
    by rewrite (bind_raise _ _ _ _ _ Hpick).
Qed.

Lemma change_raises_on_unlistable_witness :
  catalog unnamed_world sample_state = Ok [record_A; record_unnamed]
  ∧ ∃ key, change unnamed_world SystemProxy sample_state
           = (Raise (KeyError key), sample_state).
Proof.
  split; [reflexivity|].
  apply (change_raises_on_unlistable unnamed_world SystemProxy sample_state
           [record_A; record_unnamed] eq_refl).
  - discriminate.
  - left. apply Exists_cons_tl, Exists_cons_hd. intros [_ [name Hname]]. discriminate Hname.
Defined.

(** ** The background loop and Quit *)

Lemma refresh_effect E (s : state) :
  ∃ probes,
    length probes = 4
    ∧ Forall is_probe probes
    ∧ log (exec (_refresh E) s) = (log s ++ probes)%list
    ∧ _running (exec (_refresh E) s) = _running s.
Proof.
  unfold exec. rewrite refresh_run.
  eexists [_; _; _; _].
  split_and!; [done| | |].
  2: { destruct (proxy_selection s !! "ip"); [destruct (redsocks_selection s !! "ip")|];
         simpl; by rewrite <- !app_assoc. }
  - do 4 (constructor; [simpl; auto|]). constructor.
  - by destruct (proxy_selection s !! "ip"); [destruct (redsocks_selection s !! "ip")|].
Qed.

(** X20. While [_running] is set the background loop never stops by itself
    and never raises: unrolled [fuel] times it makes exactly [fuel] passes,
    each a sleep of five seconds followed by the four probes of a refresh,
    whether or not the refresh raised. *)
Theorem monitor_passes (E : env) (fuel : nat) (s : state) :
  _running s = true →
  ∃ s',
    _monitor E fuel s = (Ok tt, s')
    ∧ _running s' = true
    ∧ filter is_sleep (new_events s s') = replicate fuel (Sleep POLL_INTERVAL)
    ∧ length (new_events s s') = 5 * fuel
    ∧ Forall is_poll (new_events s s').
Proof.
  revert s. induction fuel as [|fuel IH]; intros s Hrun.
  - exists s. rewrite new_events_same. done.
  - destruct (refresh_effect E (record_event (Sleep POLL_INTERVAL) s))
      as (probes & Hlen & Hprobes & Hlog & Hrunning).
    unfold exec in *.
    set (s1 := snd (_refresh E (record_event (Sleep POLL_INTERVAL) s))) in *.
    destruct (IH s1) as (s' & Hmon & Hrun' & Hsleeps & Hcount & Hpoll); [by rewrite Hrunning|].
    exists s'.
    assert (_monitor E (S fuel) s = _monitor E fuel s1) as Hstep.
    { simpl. unfold bind at 1, get at 1. rewrite Hrun.
      unfold bind at 1, modify at 1. unfold bind at 1, try_except.
      subst s1. by destruct (_refresh E _) as [[[]|e] s2]. }
    destruct (quiet_monitor E fuel s1) as (tr & _ & Htr & _).
    unfold exec in Htr. rewrite Hmon in Htr. simpl in Htr.
    assert (new_events s1 s' = tr) as Hn1 by (by apply new_events_app).
    assert (new_events s s' = (Sleep POLL_INTERVAL :: probes) ++ tr)%list as Hn.
    { apply new_events_app. rewrite Htr, Hlog. simpl. by rewrite <- !app_assoc. }
    rewrite Hn1 in Hsleeps, Hcount, Hpoll. rewrite Hstep, Hn.
    split_and!; [done|done|..].
    + rewrite filter_app, Hsleeps. simpl.
      assert (filter is_sleep probes = []) as ->.
      { apply (filter_none _ is_probe); [|done]. by intros []. }
      done.
    + rewrite length_app, Hcount. simpl. lia.
    + apply Forall_app. split; [|done]. constructor; [done|].
      eapply Forall_impl; [done|]. by intros [].
Qed.

Lemma monitor_passes_witness :
  let E := sample_world third_call_fails in
  _running sample_state = true
  ∧ ∃ s', _monitor E 3 sample_state = (Ok tt, s')
          ∧ length (new_events sample_state s') = 15.
Proof.
  intros E. split; [reflexivity|].
  destruct (monitor_passes E 3 sample_state eq_refl) as (s' & Hmon & _ & _ & Hcount & _).
  exists s'. split; [exact Hmon | exact Hcount].
Defined.

(** X21. Quit clears [_running] and stops the icon without spawning or
    notifying anything, and after it the background loop makes no further
    pass, however long it is given. *)
Theorem quit_stops_loop (E : env) (fuel : nat) (s : state) :
  let s' := exec (callback E Quit) s in
  callback E Quit s = (Ok tt, s')
  ∧ _running s' = false ∧ icon_stopped s' = true
  ∧ log s' = log s ∧ selections s' = selections s
  ∧ _monitor E fuel s' = (Ok tt, s').
Proof.
  intros s'. subst s'. split_and!; try done.
  destruct fuel as [|fuel]; [done|]. simpl. done.
Qed.

(** *** [_running] is cleared by Quit only *)

Section Preserves.

Context {B : Type} (f : state → B).

Lemma preserves_ret {A} (a : A) : preserves f (ret a).
Proof. done. Qed.

Lemma preserves_raise {A} (e : exn) : preserves f (@raise A e).
Proof. done. Qed.

Lemma preserves_get {A} (g : state → A) : preserves f (get g).
Proof. done. Qed.

Lemma preserves_getitem (d : record) (k : string) : preserves f (getitem d k).
Proof. unfold getitem. by destruct (d !! k). Qed.

Lemma preserves_bind {A C} (m : M A) (k : A → M C) :
  preserves f m → (∀ a, preserves f (k a)) → preserves f (bind m k).
Proof.
  intros Hm Hk s. specialize (Hm s). unfold exec, bind in *.
  destruct (m s) as [[a|e] s1]; simpl in *; [|done].
  specialize (Hk a s1). unfold exec in Hk. congruence.
Qed.

Lemma preserves_try_except {A} (m : M A) (h : exn → M A) :
  preserves f m → (∀ e, preserves f (h e)) → preserves f (try_except m h).
Proof.
  intros Hm Hh s. specialize (Hm s). unfold exec, try_except in *.
  destruct (m s) as [[a|e] s1]; simpl in *; [done|].
  specialize (Hh e s1). unfold exec in Hh. congruence.
Qed.

Lemma preserves_for_each {A} (l : list A) (body : A → M unit) :
  (∀ x, preserves f (body x)) → preserves f (for_each l body).
Proof.
  intros Hbody. induction l as [|x l IH]; simpl; [done|].
  apply preserves_bind; auto.
Qed.

Lemma preserves_modify (g : state → state) :
  (∀ s, f (g s) = f s) → preserves f (modify g).
Proof. intros Hg s. apply Hg. Qed.

Lemma preserves_subprocess_run E argv t chk :
  (∀ e s, f (record_event e s) = f s) → preserves f (subprocess_run E argv t chk).
Proof.
  intros Hf s. unfold exec. rewrite subprocess_run_eq. apply Hf.
Qed.

End Preserves.

Ltac running_step :=
  cbv beta zeta;
  lazymatch goal with
  | |- preserves _ (bind _ _) => apply preserves_bind; [|intros ?]
  | |- preserves _ (try_except _ _) => apply preserves_try_except; [|intros ?]
  | |- preserves _ (ret _) => apply preserves_ret
  | |- preserves _ (raise _) => apply preserves_raise
  | |- preserves _ (get _) => apply preserves_get
  | |- preserves _ (getitem _ _) => apply preserves_getitem
  | |- preserves _ (subprocess_run _ _ _ _) => apply preserves_subprocess_run; done
  | |- preserves _ (check_call _ _ _) => unfold check_call
  | |- preserves _ (_notify _ _ _) => apply preserves_modify; done
  | |- preserves _ (modify _) => apply preserves_modify; done
  | |- preserves _ (for_each _ _) => apply preserves_for_each; intros ?
  | |- preserves _ (is_proxy_on _) => unfold is_proxy_on
  | |- preserves _ (is_redsocks_on _) => unfold is_redsocks_on
  | |- preserves _ (_render_icon _) => unfold _render_icon
  | |- preserves _ (_tooltip _) => unfold _tooltip
  | |- preserves _ (_refresh _) => unfold _refresh
  | |- preserves _ (if ?b then _ else _) => destruct b
  | |- preserves _ (match ?x with _ => _ end) => destruct x
  end.

Lemma running_load_proxies E : preserves _running (_load_proxies E).
Proof. intros s. unfold exec. by rewrite load_proxies_eq. Qed.

Lemma running_radiolist_entries proxies cur args :
  preserves _running (radiolist_entries proxies cur args).
Proof.
  revert args. induction proxies as [|p rest IH]; intros args; simpl.
  - apply preserves_ret.
  - repeat running_step. apply IH.
Qed.

Lemma running_find_choice proxies choice : preserves _running (find_choice proxies choice).
Proof.
  induction proxies as [|p rest IH]; simpl.
  - apply preserves_ret.
  - running_step; [running_step|]. cbv beta.
    destruct (String.eqb _ choice); [apply preserves_ret | apply IH].
Qed.

Lemma running_refresh E : preserves _running (_refresh E).
Proof. repeat running_step. Qed.

Lemma running_pick_proxy E title cur : preserves _running (_pick_proxy E title cur).
Proof.
  unfold _pick_proxy. apply preserves_bind; [apply running_load_proxies|].
  intros [|p rest]; [repeat running_step|].
  apply preserves_bind; [apply running_radiolist_entries|]. intros args.
  apply preserves_try_except; [|intros; repeat running_step].
  apply preserves_bind; [running_step|]. intros r. cbv beta zeta.
  destruct (negb _); [apply preserves_ret|].
  destruct (String.eqb _ _); [repeat running_step | apply running_find_choice].
Qed.

Lemma running_monitor E (fuel : nat) : preserves _running (_monitor E fuel).
Proof.
  induction fuel as [|fuel IH]; simpl; [apply preserves_ret|].
  apply preserves_bind; [apply preserves_get|]. intros [|]; [|apply preserves_ret].
  apply preserves_bind; [by apply preserves_modify|]. intros _.
  apply preserves_bind; [|by intros _].
  apply preserves_try_except; [apply running_refresh | intros; apply preserves_ret].
Qed.

Lemma running_activity E (a : activity) : not_quit a → preserves _running (perform E a).
Proof.
  intros Ha. destruct a as [|it|]; simpl.
  - unfold proxy_label, redsocks_label. repeat running_step.
  - destruct it; simpl.
    + unfold _enable_proxy. repeat running_step.
    + unfold _disable_proxy. repeat running_step.
    + unfold _change_proxy. apply preserves_bind; [apply preserves_get|]. intros cur.
      apply preserves_bind; [apply running_pick_proxy|]. intros [res|]; [|apply running_refresh].
      destruct (truthy_record res); [|apply running_refresh].
      repeat running_step.
    + unfold _enable_redsocks. repeat running_step.
    + unfold _disable_redsocks. repeat running_step.
    + unfold _change_redsocks_proxy. apply preserves_bind; [apply preserves_get|]. intros cur.
      apply preserves_bind; [apply running_pick_proxy|]. intros [res|]; [|apply running_refresh].
      destruct (truthy_record res); [|apply running_refresh].
      repeat running_step.
    + by destruct Ha.
  - apply (running_monitor E 1).
Qed.

(** X22. Only Quit clears [_running]: over any interleaving of loop passes,
    menu openings and clicks on the other entries, pickers and failing
    commands included, the flag keeps its value, so the background loop
    goes on polling. *)
Theorem running_until_quit (E : env) (sched : list activity) (s : state) :
  Forall not_quit sched → _running (run_schedule E sched s) = _running s.
Proof.
  intros Hsched. revert s. induction Hsched as [|a rest Ha _ IH]; intros s; simpl; [done|].
  rewrite IH. apply (running_activity E a Ha).
Qed.

Lemma running_until_quit_witness :
  let E := sample_world no_display in
  let sched := [Click ChangeProxy; Poll; Click DisableRedsocks; OpenMenu] in
  Forall not_quit sched
  ∧ _running (run_schedule E sched sample_state) = true.
Proof.
  intros E sched.
  assert (Forall not_quit sched) as Hsched by (repeat constructor; discriminate).
  split; [exact Hsched|].
  apply (running_until_quit E sched sample_state Hsched).
Defined.

(** ** The catalog read from [proxy.txt] *)

Lemma str_of_nat_inj (n m : nat) : Py.str_of_nat n = Py.str_of_nat m → n = m.
Proof.
  unfold Py.str_of_nat. intros H. apply Unsigned.to_uint_inj.
  apply (f_equal NilEmpty.uint_of_string) in H. rewrite !NilEmpty.usu in H.
  by injection H.
Qed.

Lemma make_record_fields (name ip user password : string) :
  make_record name ip user password !! "name" = Some name
  ∧ make_record name ip user password !! "ip" = Some ip
  ∧ make_record name ip user password !! "user" = Some user
  ∧ make_record name ip user password !! "password" = Some password.
Proof.
  unfold make_record. split_and!.
  - apply lookup_insert_eq.
  - rewrite lookup_insert_ne by done. apply lookup_insert_eq.
  - rewrite !lookup_insert_ne by done. apply lookup_insert_eq.
  - rewrite !lookup_insert_ne by done. apply lookup_insert_eq.
Qed.

Lemma text_entries_from (k : nat) (lines : list string) :
  let entries : list record := omap id (imap (λ j, line_entry (k + j)) lines) in
  Forall (λ p : record,
            from_text p
            ∧ ∃ n : nat, (k ≤ n)%nat ∧ p !! "name" = Some ("Proxy " +:+ Py.str_of_nat n))
         entries
  ∧ NoDup ((λ p : record, p !! "name") <$> entries)
  ∧ (length entries ≤ length lines)%nat.
Proof.
  revert k. induction lines as [|line rest IH]; intros k; simpl.
  - split_and!; [done | constructor | done].
  - assert (imap ((λ j, line_entry (k + j)) ∘ S) rest
            = imap (λ j, line_entry (S k + j)) rest) as ->.
    { apply imap_ext. intros j x _. simpl. f_equal. lia. }
    destruct (IH (S k)) as (Hall & Hnodup & Hlen). rewrite Nat.add_0_r.
    simpl in Hall, Hnodup, Hlen.
    assert (Forall (λ p : record,
                      from_text p
                      ∧ ∃ n : nat, (k ≤ n)%nat
                                   ∧ p !! "name" = Some ("Proxy " +:+ Py.str_of_nat n))
              (omap id (imap (λ j, line_entry (S k + j)) rest))) as Hall'.
    { eapply Forall_impl; [exact Hall|]. intros p (? & n & ? & ?). split; [done|].
      exists n. split; [lia|done]. }
    destruct (line_entry k line) as [r|] eqn:Hentry; simpl.
    + unfold line_entry in Hentry.
      destruct (decide (Py.strip line = "")) as [|Hfull]; [done|]. injection Hentry as <-.
      destruct (make_record_fields ("Proxy " +:+ Py.str_of_nat k) (Py.strip line)
                  "edcguest" "edcguest") as (Hname & Hip & Huser & Hpass).
      split_and!; [| |exact (le_n_S _ _ Hlen)].
      * constructor; [|exact Hall'].
        split; [|by exists k]. split_and!; [by exists k | by eexists | done | done].
      * constructor; [|exact Hnodup]. rewrite Hname. intros Hin.
        apply list_elem_of_fmap in Hin as (p & Hp & Hin).
        rewrite Forall_forall in Hall. destruct (Hall p Hin) as (_ & n & Hn & Hpn).
        rewrite Hpn in Hp. injection Hp as Hp. apply str_of_nat_inj in Hp. lia.
    + split_and!; [exact Hall' | exact Hnodup | exact (Nat.le_le_succ_r _ _ Hlen)].
Qed.

(** X23. When the structured source gives nothing, every record of the
    catalog comes from a non-blank line of [proxy.txt]: it has a name
    "Proxy n", a non-empty address and the fixed user and password; the
    names are pairwise distinct, and there are no more records than lines.
    Such a catalog can always be listed by the picker. *)
Theorem text_catalog_records (E : env) (s : state) :
  json_unusable (read_json E (log s)) →
  ∃ proxies,
    catalog E s = Ok proxies
    ∧ Forall from_text proxies
    ∧ Forall listable proxies
    ∧ NoDup ((λ p : record, p !! "name") <$> proxies)
    ∧ (length proxies ≤ length (fst (read_txt E (log s))))%nat.
Proof.
  intros Hjson. unfold catalog. rewrite load_proxies_eq. simpl.
  eexists. split; [reflexivity|].
  assert (match read_json E (log s) with
          | inr (JsonList (first :: others)) => first :: others
          | _ => txt_loop 1 (fst (read_txt E (log s))) []
          end = txt_loop 1 (fst (read_txt E (log s))) []) as ->.
  { by destruct (read_json E (log s)) as [exc|[[|first others]|]]. }
  rewrite txt_loop_from. simpl.
  destruct (text_entries_from 1 (fst (read_txt E (log s)))) as (Hall & Hnodup & Hlen).
  simpl in *. split_and!; [| |done|done].
  - eapply Forall_impl; [done|]. by intros p [? _].
  - eapply Forall_impl; [done|].
    intros p [((n & Hn) & (ip & Hip & _) & _) _]. split; by eexists.
Qed.

Lemma text_catalog_records_witness :
  json_unusable (read_json text_world (log sample_state))
  ∧ ∃ proxies, catalog text_world sample_state = Ok proxies
               ∧ Forall listable proxies ∧ (length proxies ≤ 3)%nat.
Proof.
  assert (json_unusable (read_json text_world (log sample_state))) as Hjson by exact I.
  split; [exact Hjson|].
  destruct (text_catalog_records text_world sample_state Hjson)
    as (proxies & Hcat & _ & Hlist & _ & Hlen).
  exists proxies. split_and!; [exact Hcat | exact Hlist | exact Hlen].
Defined.

(** ** Actions act on the selection of the moment *)

Lemma failed_mutation_is_call (tr : list event) :
  Exists is_failed_mutation tr → mutation_calls tr ≠ [].
Proof.
  intros Hex Hnil. apply Exists_exists in Hex as (e & Hin & Hfail).
  assert (e ∈ mutation_calls tr) as He.
  { apply list_elem_of_filter. split; [|done].
    destruct e as [argv t o| |]; [|done..]. unfold is_failed_mutation in Hfail.
    by apply andb_True in Hfail as [? _]. }
  rewrite Hnil in He. by apply elem_of_nil in He.
Qed.

(** X24. Enable-redsocks passes the address of the selection of the moment:
    after a custom address has been entered for redsocks, the one command
    the enable action sends is the helper with [enable] and that address,
    whether the command then succeeds or fails. *)
Theorem enable_redsocks_after_custom (E : env) (s : state) (addr : string) :
  custom_entered E (picker_title Redsocks) (selection_of Redsocks s) s addr →
  let s1 := exec (change E Redsocks) s in
  map event_argv (mutation_calls (new_events s1 (exec (callback E EnableRedsocks) s1)))
  = [["pkexec"; PROXY_CMD; "enable"; addr]].
Proof.
  intros Hcustom s1.
  destruct (custom_pick E _ _ s addr Hcustom) as (s0 & pre & Hpick & _ & _).
  destruct (change_with_pick E Redsocks s s0 _ Hpick) as [Hsel _].
  change (redsocks_selection s1 = make_record "Custom" addr "edcguest" "edcguest") in Hsel.
  assert (redsocks_selection s1 !! "ip" = Some addr) as Hip
    by (rewrite Hsel; apply make_record_ip).
  destruct (action_report_observed E _ s1 _ _ _
              (mutation_report E EnableRedsocks s1 eq_refl
                 (λ sel Hs, eq_ind _ (λ r, is_Some (r !! "ip"))
                              (ex_intro _ addr Hip) _ (Some_inj _ _ Hs))))
    as (Hok & Hprefix & _).
  simpl in Hok, Hprefix. rewrite Hip in Hok, Hprefix. simpl in Hok, Hprefix.
  cbn [callback].
  set (tr := new_events s1 (exec (_enable_redsocks E) s1)) in *.
  destruct (mutation_calls tr) as [|e rest] eqn:Hcalls.
  - assert (¬ Exists is_failed_mutation tr) as Hnone.
    { intros Hex. by apply failed_mutation_is_call in Hex. }
    by destruct (Hok Hnone) as [Heq _].
  - destruct Hprefix as [k Hk]. cbn [map app] in Hk |- *.
    injection Hk as He Hrest. symmetry in Hrest.
    apply app_eq_nil in Hrest as [Hrest _].
    by rewrite Hrest, <- He.
Qed.

Lemma enable_redsocks_after_custom_witness :
  let E := sample_world custom_then_address in
  let s1 := exec (change E Redsocks) sample_state in
  custom_entered E (picker_title Redsocks) (selection_of Redsocks sample_state)
    sample_state "192.168.1.9"
  ∧ map event_argv (mutation_calls (new_events s1 (exec (callback E EnableRedsocks) s1)))
    = [["pkexec"; "/usr/local/sbin/proxyredsocks"; "enable"; "192.168.1.9"]].
Proof.
  intros E s1.
  assert (custom_entered E (picker_title Redsocks)
            (selection_of Redsocks sample_state) sample_state "192.168.1.9") as Hcustom.
  { eapply (custom_confirmed E _ _ _ _ [record_A; record_B] _ _ "10.0.0.1");
      [reflexivity | discriminate | reflexivity | reflexivity | reflexivity
      | reflexivity | reflexivity | reflexivity | discriminate]. }
  split; [exact Hcustom|].
  apply (enable_redsocks_after_custom E sample_state "192.168.1.9" Hcustom).
Defined.

(** X25. A mutation that finds its address ends with a refresh made after
    all its commands: the last four events it logs are the probes, no
    mutating command comes after them, and the icon it leaves shows what
    the first two of these probes answered. *)
Theorem mutation_ends_with_fresh_icon (E : env) (it : menu_item) (s : state) :
  is_mutation it = true →
  (∀ sel, enabled_selection it s = Some sel → is_Some (sel !! "ip")) →
  let s' := exec (callback E it) s in
  ∃ pre o1 o2 o3 o4,
    new_events s s'
    = (pre ++ [Spawn kreadconfig6_proxy_type 3 o1; Spawn systemctl_is_active 3 o2;
               Spawn kreadconfig6_proxy_type 3 o3; Spawn systemctl_is_active 3 o4])%list
    ∧ mutation_calls (new_events s s') = mutation_calls pre
    ∧ (fill (icon_icon s'), glyph (icon_icon s'))
      = spec_display (proxy_answer o1) (redsocks_answer o2).
Proof.
  intros Hit Hip s'.
  destruct (mutation_report E it s Hit Hip) as (s1 & writes & tail & Hrun & Hlog & _).
  destruct (refresh_log_icon E s1) as (o1 & o2 & o3 & o4 & Hev & Hicon).
  subst s'. unfold exec in *. rewrite Hrun.
  exists (writes ++ tail)%list, o1, o2, o3, o4.
  assert (new_events s (snd (_refresh E s1))
          = ((writes ++ tail)
             ++ [Spawn kreadconfig6_proxy_type 3 o1; Spawn systemctl_is_active 3 o2;
                 Spawn kreadconfig6_proxy_type 3 o3; Spawn systemctl_is_active 3 o4])%list)
    as Htr.
  { apply new_events_app. by rewrite Hev, Hlog, <- !app_assoc. }
  split_and!; [done| |done].
  rewrite Htr, mutation_calls_app. simpl. by rewrite app_nil_r.
Qed.

Lemma mutation_ends_with_fresh_icon_witness :
  let E := probe_world true false in
  let s' := exec (callback E DisableRedsocks) sample_state in
  ∃ pre o1 o2 o3 o4,
    new_events sample_state s'
    = (pre ++ [Spawn kreadconfig6_proxy_type 3 o1; Spawn systemctl_is_active 3 o2;
               Spawn kreadconfig6_proxy_type 3 o3; Spawn systemctl_is_active 3 o4])%list
    ∧ mutation_calls (new_events sample_state s') = mutation_calls pre
    ∧ (CLR_PROXY, "P") = spec_display (proxy_answer o1) (redsocks_answer o2).
Proof.
  intros E s'.
  assert (∀ sel, enabled_selection DisableRedsocks sample_state = Some sel
                 → is_Some (sel !! "ip")) as Hip.
  { intros sel Hsel. discriminate Hsel. }
  destruct (mutation_ends_with_fresh_icon E DisableRedsocks sample_state eq_refl Hip)
    as (pre & o1 & o2 & o3 & o4 & Hev & Hmut & Hicon).
  exists pre, o1, o2, o3, o4. split_and!; [exact Hev | exact Hmut |].
  rewrite <- Hicon. vm_compute. reflexivity.
Defined.
